(** * BrainBolt: request pipeline of the API routes

    A shallow embedding of the server-side core of the BrainBolt
    application: the input sanitizer ([lib/sanitize]), the in-memory rate
    limiters ([lib/rate-limit] and the per-route stores), the model router
    ([lib/modelRouter]), the error normaliser ([lib/errorHandler]) and the
    four route handlers ([api/format], [api/mcq], [api/flashcards],
    [api/concept-booster]).

    JavaScript strings are sequences of UTF-16 code units, modelled as
    [list N]; the numbers of the replies of the model are modelled as
    integers ([Z]), the numbers the handlers compute with as rationals,
    [NaN] or an infinity ([JsNumber]); the in-memory [Map] objects are
    [gmap]s keyed by strings. *)

From Stdlib Require Import ZArith NArith QArith.QArith_base List Bool String Ascii Lia.
From Stdlib Require Import QArith.Qround Sorting.Sorted.
From stdpp Require Import base option list gmap.

Set Default Proof Using "Type".
Open Scope string_scope.
Open Scope list_scope.
Open Scope N_scope.

(* ===================================================================== *)
(** ** JavaScript strings *)
(* ===================================================================== *)

Module JsString.

(** A string value: its UTF-16 code units. *)
Abbreviation t := (list N).

(** The code units of an ASCII literal. *)
Definition js (s : string) : t :=
  List.map N_of_ascii (list_ascii_of_string s).

Definition eqb (a b : t) : bool := bool_decide (a = b).

(** [toUpperCase] / [toLowerCase] restricted to the ASCII letters. *)
Definition upper_unit (c : N) : N :=
  if (97 <=? c) && (c <=? 122) then c - 32 else c.

Definition lower_unit (c : N) : N :=
  if (65 <=? c) && (c <=? 90) then c + 32 else c.

(** [String.prototype.toUpperCase].  Code units outside ASCII are left
    alone: no such unit upper-cases to one of the ASCII letters the
    routes compare the result with. *)
Definition toUpperCase (s : t) : t := List.map upper_unit s.

(** [String.prototype.toLowerCase].  Besides the ASCII letters, the two
    non-ASCII code units whose lower case contains an ASCII letter are
    handled: U+212A (Kelvin sign) gives [k] and U+0130 gives [i]
    followed by U+0307.  Every other code unit outside ASCII lower-cases
    to code units outside ASCII, which an ASCII needle never meets. *)
Definition toLowerCase (s : t) : t :=
  List.concat
    (List.map (fun c => if c =? 8490 then [107]
                        else if c =? 304 then [105; 775]
                        else [lower_unit c]) s).

Fixpoint startsWith (pre s : t) : bool :=
  match pre, s with
  | [], _ => true
  | a :: pre', b :: s' => (a =? b) && startsWith pre' s'
  | _ :: _, [] => false
  end.

(** [String.prototype.includes]. *)
Fixpoint includes (needle s : t) : bool :=
  startsWith needle s ||
  match s with
  | [] => false
  | _ :: s' => includes needle s'
  end.

(** White space and line terminators, as [trim] and the regular
    expression class [\s] see them. *)
Definition is_space (c : N) : bool :=
  ((9 <=? c) && (c <=? 13)) || (c =? 32) || (c =? 160) || (c =? 5760)
  || ((8192 <=? c) && (c <=? 8202)) || (c =? 8232) || (c =? 8233)
  || (c =? 8239) || (c =? 8287) || (c =? 12288) || (c =? 65279).

Fixpoint trimStart (s : t) : t :=
  match s with
  | c :: s' => if is_space c then trimStart s' else s
  | [] => []
  end.

(** [String.prototype.trim]. *)
Definition trim (s : t) : t := rev (trimStart (rev (trimStart s))).

(** [s.substring(0, n)]. *)
Definition substring0 (n : nat) (s : t) : t := take n s.

(** Decimal rendering of an integer, as [String(n)] gives it (for
    magnitudes below 10^21, where JavaScript does not switch to an
    exponent). *)
Fixpoint digits (fuel : nat) (n : N) (acc : t) : t :=
  match fuel with
  | O => acc
  | S f => let acc' := (48 + n mod 10) :: acc in
           if n <? 10 then acc' else digits f (n / 10) acc'
  end.

Definition of_N (n : N) : t := digits (S (N.to_nat (N.log2 n))) n [].

Definition of_Z (z : Z) : t :=
  match z with
  | Z0 => [48]
  | Zpos p => of_N (Npos p)
  | Zneg p => 45 :: of_N (Npos p)
  end.

End JsString.

Abbreviation jsstring := (list N).
Abbreviation js := JsString.js.

(* ===================================================================== *)
(** ** JavaScript numbers *)
(* ===================================================================== *)

Module JsNumber.

(** A Number value.  Every finite double is a rational, and the sign of
    zero plays no part in the operations below; what [JSON.parse] returns
    for a number is finite, or an infinity when the literal overflows. *)
Inductive number : Type :=
| Finite (q : Q)
| NaN
| Infinity (negative : bool).

Definition of_Z (n : Z) : number := Finite (inject_Z n).

(** [ToBoolean]: zero and [NaN] are falsy. *)
Definition truthy (x : number) : bool :=
  match x with
  | Finite q => negb (Qeq_bool q 0)
  | NaN => false
  | Infinity _ => true
  end.

(** [x || d] *)
Definition or_else (x d : number) : number := if truthy x then x else d.

(** [x < y]: false as soon as one side is [NaN]. *)
Definition ltb (x y : number) : bool :=
  match x, y with
  | NaN, _ | _, NaN => false
  | Finite p, Finite q => negb (Qle_bool q p)
  | Finite _, Infinity negative => negb negative
  | Infinity negative, Finite _ => negative
  | Infinity n1, Infinity n2 => n1 && negb n2
  end.

(** The integral part of a finite number: rounding towards zero. *)
Definition truncate (q : Q) : Z := (Qnum q ÷ Zpos (Qden q))%Z.

(** [array.slice(0, end)]: [ToIntegerOrInfinity(end)], counted from the
    end of the array when negative, and never beyond either end. *)
Definition slice_to {A} (end_ : number) (items : list A) : list A :=
  match end_ with
  | NaN => []
  | Infinity negative => if negative then [] else items
  | Finite q =>
      let k := truncate q in
      if (k <? 0)%Z
      then take (Z.to_nat (Z.max (Z.of_nat (length items) + k) 0)) items
      else take (Z.to_nat k) items
  end.

(** The conversion to [unsigned short] of Web IDL, which the [status] of
    a [ResponseInit] goes through: [NaN] and the infinities give 0, a
    finite number its integral part modulo 2^16. *)
Definition to_uint16 (x : number) : Z :=
  match x with
  | Finite q => (truncate q mod 65536)%Z
  | _ => 0%Z
  end.

End JsNumber.

(* ===================================================================== *)
(** ** A backtracking matcher for the regular expressions of the sanitizer *)
(* ===================================================================== *)

Module Regex.

(** A character class: inclusive ranges of code units. *)
Definition ranges := list (N * N).

Inductive regex : Type :=
| Eps
| Cls (neg : bool) (rs : ranges)         (* [...] and [^...]; one character *)
| Seq (a b : regex)
| Alt (a b : regex)                      (* a|b, left alternative first *)
| Star (a : regex)                       (* a*, greedy *)
| WordB                                  (* \b *)
| NotAhead (a : regex)                   (* (?!a) *)
| Bol                                    (* ^ *)
| Eol.                                   (* $ *)

(** A position in the subject: the unit just before it and what follows. *)
Record pos := Pos { prev : option N; rest : jsstring }.

Definition in_ranges (rs : ranges) (c : N) : bool :=
  existsb (fun '(lo, hi) => (lo <=? c) && (c <=? hi)) rs.

(** Class membership.  With the [i] flag a unit matches when a member of
    the class has the same canonical (upper-case) form; the classes of
    the sanitizer list ASCII and caseless units only, for which that is
    membership of the unit or of its other-case ASCII form. *)
Definition cls_match (ci neg : bool) (rs : ranges) (c : N) : bool :=
  xorb neg
    (if ci
     then in_ranges rs c || in_ranges rs (JsString.upper_unit c)
          || in_ranges rs (JsString.lower_unit c)
     else in_ranges rs c).

Definition word_ranges : ranges := [(65, 90); (97, 122); (48, 57); (95, 95)].

Definition is_word (o : option N) : bool :=
  match o with
  | Some c => in_ranges word_ranges c
  | None => false
  end.

(** Greedy iteration: one more round of [body] first, the continuation
    otherwise.  A round that consumes nothing is rejected, so [fuel],
    one more than the length of what is left, is never used up. *)
Fixpoint star_loop (body : pos -> (pos -> option pos) -> option pos)
    (fuel : nat) (p : pos) (k : pos -> option pos) : option pos :=
  match fuel with
  | O => k p
  | S f =>
      match body p (fun p' =>
               if (length (rest p') <? length (rest p))%nat
               then star_loop body f p' k else None) with
      | Some q => Some q
      | None => k p
      end
  end.

(** [rmatch ci r p k]: match [r] at [p], then the continuation [k];
    the first success in backtracking order. *)
Fixpoint rmatch (ci : bool) (r : regex) (p : pos)
    (k : pos -> option pos) : option pos :=
  match r with
  | Eps => k p
  | Cls neg rs =>
      match rest p with
      | c :: s' => if cls_match ci neg rs c then k (Pos (Some c) s') else None
      | [] => None
      end
  | Seq a b => rmatch ci a p (fun p' => rmatch ci b p' k)
  | Alt a b =>
      match rmatch ci a p k with
      | Some q => Some q
      | None => rmatch ci b p k
      end
  | Star a => star_loop (rmatch ci a) (S (length (rest p))) p k
  | WordB =>
      if xorb (is_word (prev p)) (is_word (head (rest p))) then k p else None
  | NotAhead a =>
      match rmatch ci a p Some with
      | Some _ => None
      | None => k p
      end
  | Bol => match prev p with None => k p | Some _ => None end
  | Eol => match rest p with [] => k p | _ :: _ => None end
  end.

(** The leftmost match at or after the position: the units skipped
    before it and the position where it ends. *)
Fixpoint find_from (ci : bool) (r : regex) (pv : option N) (s : jsstring)
    : option (jsstring * pos) :=
  match rmatch ci r (Pos pv s) Some with
  | Some q => Some ([], q)
  | None =>
      match s with
      | [] => None
      | c :: s' =>
          match find_from ci r (Some c) s' with
          | Some (skipped, q) => Some (c :: skipped, q)
          | None => None
          end
      end
  end.

(** [regex.test(s)]. *)
Definition test (ci : bool) (r : regex) (s : jsstring) : bool :=
  match find_from ci r None s with Some _ => true | None => false end.

(** [s.replace(regex, rep)] with the [g] flag; [rep] receives the matched
    text.  After an empty match the search resumes one unit further. *)
Fixpoint replace_loop (ci : bool) (r : regex) (rep : jsstring -> jsstring)
    (fuel : nat) (pv : option N) (s : jsstring) : jsstring :=
  match fuel with
  | O => s
  | S f =>
      match find_from ci r pv s with
      | None => s
      | Some (skipped, q) =>
          let from := drop (length skipped) s in
          let matched := take (length from - length (rest q)) from in
          match matched, rest q with
          | [], [] => skipped ++ rep []
          | [], c :: s' =>
              skipped ++ rep [] ++ c :: replace_loop ci r rep f (Some c) s'
          | _ :: _, s' =>
              skipped ++ rep matched ++ replace_loop ci r rep f (prev q) s'
          end
      end
  end.

Definition replace_with (ci : bool) (r : regex) (rep : jsstring -> jsstring)
    (s : jsstring) : jsstring :=
  replace_loop ci r rep (S (length s)) None s.

Definition replace (ci : bool) (r : regex) (rep : jsstring) (s : jsstring)
    : jsstring :=
  replace_with ci r (fun _ => rep) s.

(** The continuations agree wherever the matcher may call them: at
    positions with no more left than at [p]. *)
Definition agree_below (p : pos) (k1 k2 : pos -> option pos) : Prop :=
  forall p', (length (rest p') <= length (rest p))%nat -> k1 p' = k2 p'.

(** *** Surface syntax *)

Definition chr (c : string) : regex :=
  Cls false (List.map (fun u => (u, u)) (js c)).

(** A literal: the units of [s] in sequence. *)
Definition lit (s : string) : regex :=
  fold_right (fun u r => Seq (Cls false [(u, u)]) r) Eps (js s).

Definition plus (a : regex) : regex := Seq a (Star a).
Definition opt (a : regex) : regex := Alt a Eps.

(** [a{n,}] *)
Fixpoint at_least (n : nat) (a : regex) : regex :=
  match n with
  | O => Star a
  | S n' => Seq a (at_least n' a)
  end.

Definition seqs (l : list regex) : regex := fold_right Seq Eps l.

Definition alts (l : list regex) : regex :=
  match l with
  | [] => Cls false []
  | a :: l' => fold_left Alt l' a
  end.

(** [.]: anything but a line terminator. *)
Definition dot : regex := Cls true [(10, 10); (13, 13); (8232, 8233)].
Definition space_ranges : ranges :=
  [(9, 13); (32, 32); (160, 160); (5760, 5760); (8192, 8202); (8232, 8233);
   (8239, 8239); (8287, 8287); (12288, 12288); (65279, 65279)].
Definition ws : regex := Cls false space_ranges.            (* \s *)
Definition digit : regex := Cls false [(48, 57)].           (* \d *)
Definition word : regex := Cls false word_ranges.           (* \w *)

End Regex.

(* ===================================================================== *)
(** ** The sanitizer ([sanitizeInput] and its two wrappers) *)
(* ===================================================================== *)

Module Sanitize.
Import Regex.

Record options := Options {
  allowHtml : bool;
  maxLength : option nat;
  removeNewlines : bool
}.

Definition BLOCKED : jsstring := js "[BLOCKED]".
Definition BLOCKED_URL : jsstring := js "[BLOCKED_URL]".
Definition BLOCKED_PATH : jsstring := js "[BLOCKED_PATH]".
Definition API_KEY_REMOVED : jsstring := js "[API_KEY_REMOVED]".

(** [/[\x00-\x08\x0B-\x0C\x0E-\x1F\x7F]/g] *)
Definition re_control : regex :=
  Cls false [(0, 8); (11, 12); (14, 31); (127, 127)].

(** The block of a [script] or [style] element with its content: the
    opening [<tag] at a word boundary, units other than [<], then rounds
    of a [<] that does not start the closing tag followed by units other
    than [<], and the closing tag. *)
Definition re_block (tag : string) : regex :=
  let close := lit (String.append "</" (String.append tag ">")) in
  seqs [lit (String.append "<" tag); WordB; Star (Cls true [(60, 60)]);
        Star (seqs [NotAhead close; chr "<"; Star (Cls true [(60, 60)])]);
        close].

(** [/<[^>]+>/g] *)
Definition re_tag : regex :=
  seqs [chr "<"; plus (Cls true [(62, 62)]); chr ">"].

(** The five entity escapes, in the order of the chained [replace]s. *)
Definition entities : list (regex * jsstring) :=
  [(chr "&", js "&amp;"); (chr "<", js "&lt;"); (chr ">", js "&gt;");
   (Cls false [(34, 34)], js "&quot;"); (chr "'", js "&#x27;")].

Definition keywords (l : list string) : regex :=
  seqs [WordB; alts (List.map lit l); WordB].

(** [\bKW\b\s*\d+\s*=\s*\d+] *)
Definition re_tautology (kw : string) : regex :=
  seqs [WordB; lit kw; WordB; Star ws; plus digit; Star ws; chr "=";
        Star ws; plus digit].

Definition backslash : regex := Cls false [(92, 92)].

(** The patterns of [sqlPatterns], each with its [i] flag. *)
Definition sqlPatterns : list (bool * regex) :=
  [(true, keywords ["SELECT"; "INSERT"; "UPDATE"; "DELETE"; "DROP"; "CREATE";
                    "ALTER"; "EXEC"; "EXECUTE"; "UNION"; "SCRIPT"]);
   (false, alts [chr "'"; Seq backslash (chr "'");
                 chr ";"; Seq backslash (chr ";");
                 lit "--"; Seq backslash (lit "--");
                 lit "/*"; Seq backslash (lit "/*");
                 lit "*/"; Seq backslash (lit "*/")]);
   (true, re_tautology "OR");
   (true, re_tautology "AND");
   (true, seqs [WordB; lit "UNION"; WordB; Star dot; WordB; lit "SELECT"; WordB])].

(** [[;&|`$(){}[\]]] *)
Definition shell_meta : regex :=
  Cls false [(59, 59); (38, 38); (124, 124); (96, 96); (36, 36); (40, 40);
             (41, 41); (123, 123); (125, 125); (91, 91); (93, 93)].

Definition commandPatterns : list (bool * regex) :=
  [(false, shell_meta);
   (true, keywords ["cat"; "ls"; "pwd"; "whoami"; "id"; "uname"; "ps"; "kill";
                    "rm"; "mv"; "cp"; "chmod"; "chown"]);
   (true, seqs [chr "|"; Star ws;
                alts (List.map lit ["nc"; "netcat"; "curl"; "wget"; "bash"; "sh";
                                    "python"; "perl"; "ruby"]);
                WordB]);
   (true, seqs [chr ">"; Star ws; lit "/dev/";
                alts (List.map lit ["null"; "tcp"; "udp"])]);
   (false, seqs [lit "${"; Star dot; chr "}"]);
   (false, seqs [chr "`"; Star dot; chr "`"])].

Definition jsPatterns : list (bool * regex) :=
  [(true, lit "javascript:");
   (true, seqs [lit "on"; plus word; Star ws; chr "="]);
   (true, seqs [lit "eval"; Star ws; chr "("]);
   (true, seqs [lit "function"; Star ws; chr "("]);
   (true, seqs [alts [lit "setTimeout"; lit "setInterval"]; Star ws; chr "("]);
   (true, seqs [lit "document."; alts (List.map lit ["cookie"; "write"; "location"])]);
   (true, seqs [lit "window."; alts (List.map lit ["location"; "open"])]);
   (true, seqs [alts [lit "XMLHttpRequest"; lit "fetch"]; Star ws; chr "("])].

(** [/(https?:\/\/[^\s]+(javascript|data|vbscript):)/gi] *)
Definition re_url : regex :=
  seqs [lit "http"; opt (chr "s"); lit "://"; plus (Cls true space_ranges);
        alts (List.map lit ["javascript"; "data"; "vbscript"]); chr ":"].

Definition CR : regex := Cls false [(13, 13)].
Definition LF : regex := Cls false [(10, 10)].

(** [/ {3,}/g] *)
Definition re_spaces : regex := at_least 3 (chr " ").

(** U+200B to U+200D and U+FEFF *)
Definition re_invisible : regex := Cls false [(8203, 8205); (65279, 65279)].

(** [/(\.\.\/|\.\.\\|\.\.\/\.\.|\.\.\\\.\.)/g] *)
Definition re_path : regex :=
  alts [lit "../"; Seq (lit "..") backslash; lit "../..";
        seqs [lit ".."; backslash; lit ".."]].

Definition key_ranges : ranges := [(65, 90); (97, 122); (48, 57); (95, 95); (45, 45)].
Definition alnum_ranges : ranges := [(65, 90); (97, 122); (48, 57)].

(** [/Bearer\s+[A-Za-z0-9_-]{20,}/gi] *)
Definition re_bearer : regex :=
  seqs [lit "Bearer"; plus ws; at_least 20 (Cls false key_ranges)].
(** [/sk-[A-Za-z0-9]{32,}/gi] *)
Definition re_sk : regex := Seq (lit "sk-") (at_least 32 (Cls false alnum_ranges)).
(** [/[A-Za-z0-9_-]{40,}/g] *)
Definition re_long : regex := at_least 40 (Cls false key_ranges).
(** [/^[A-Za-z0-9_-]+$/] *)
Definition re_key_only : regex := seqs [Bol; plus (Cls false key_ranges); Eol].

(** [for (const pattern of patterns) sanitized = sanitized.replace(pattern, marker)] *)
Definition block_all (patterns : list (bool * regex)) (marker : jsstring)
    (s : jsstring) : jsstring :=
  fold_left (fun acc '(ci, r) => replace ci r marker acc) patterns s.

(** [sanitizeInput] on a string (for any other argument the function
    returns the empty string before it does anything). *)
Definition sanitizeInput (input : jsstring) (o : options) : jsstring :=
  let sanitized := input in
  (* 1. control characters *)
  let sanitized := replace false re_control [] sanitized in
  (* 2. HTML *)
  let sanitized :=
    if allowHtml o then sanitized
    else
      let sanitized := replace true (re_block "script") [] sanitized in
      let sanitized := replace true (re_block "style") [] sanitized in
      let sanitized := replace false re_tag [] sanitized in
      fold_left (fun acc '(r, e) => replace false r e acc) entities sanitized in
  (* 3. SQL, 4. commands, 5. JavaScript *)
  let sanitized := block_all sqlPatterns BLOCKED sanitized in
  let sanitized := block_all commandPatterns BLOCKED sanitized in
  let sanitized := block_all jsPatterns BLOCKED sanitized in
  (* 6. URLs *)
  let sanitized := replace true re_url BLOCKED_URL sanitized in
  (* 7. newlines *)
  let sanitized :=
    if removeNewlines o
    then replace false (Seq (opt CR) LF) (js " ") sanitized
    else replace false CR [10] (replace false (Seq CR LF) [10] sanitized) in
  (* 8. runs of spaces *)
  let sanitized := replace false re_spaces (js "  ") sanitized in
  (* 9. invisible characters *)
  let sanitized := replace false re_invisible [] sanitized in
  (* 10. path traversal *)
  let sanitized := replace false re_path BLOCKED_PATH sanitized in
  (* 11. keys and tokens *)
  let sanitized := replace true re_bearer API_KEY_REMOVED sanitized in
  let sanitized := replace true re_sk API_KEY_REMOVED sanitized in
  let sanitized :=
    replace_with false re_long
      (fun m => if test false re_key_only m then API_KEY_REMOVED else m)
      sanitized in
  (* 12. trim, then the length cap ([0] and a missing cap are both falsy) *)
  let sanitized := JsString.trim sanitized in
  match maxLength o with
  | Some (S n) =>
      if (S n <? length sanitized)%nat
      then JsString.substring0 (S n) sanitized else sanitized
  | _ => sanitized
  end.

Definition sanitizeTextInput (input : jsstring) (maxLen : option nat) : jsstring :=
  sanitizeInput input (Options false maxLen false).

Definition sanitizeSingleLineInput (input : jsstring) (maxLen : option nat)
    : jsstring :=
  sanitizeInput input (Options false maxLen true).

(** Every pattern the pipeline runs under [o], with its [i] flag, in the
    order of the pipeline. *)
Definition patterns (o : options) : list (bool * regex) :=
  [(false, re_control)]
  ++ (if allowHtml o then []
      else [(true, re_block "script"); (true, re_block "style"); (false, re_tag)]
           ++ List.map (fun '(r, _) => (false, r)) entities)
  ++ sqlPatterns ++ commandPatterns ++ jsPatterns
  ++ [(true, re_url)]
  ++ (if removeNewlines o then [(false, Seq (opt CR) LF)]
      else [(false, Seq CR LF); (false, CR)])
  ++ [(false, re_spaces); (false, re_invisible); (false, re_path);
      (true, re_bearer); (true, re_sk); (false, re_long)].

(** The pattern does not occur in [s]. *)
Definition absent (s : jsstring) (p : bool * regex) : bool :=
  let '(ci, r) := p in negb (test ci r s).

(** Text the sanitizer has nothing to do on: no pattern of the pipeline
    occurs in it, it is trimmed, and it fits the length cap. *)
Definition clean (o : options) (s : jsstring) : bool :=
  forallb (absent s) (patterns o)
  && JsString.eqb (JsString.trim s) s
  && match maxLength o with
     | Some n => (length s <=? n)%nat
     | None => true
     end.

End Sanitize.

(* ===================================================================== *)
(** ** JSON values and the JavaScript operations the routes apply to them *)
(* ===================================================================== *)

Module Json.

(** A value as [JSON.parse] returns it and [Response.json] serialises it.
    An object lists its properties in order, one entry per name. *)
Unset Elimination Schemes.
Inductive value : Type :=
| Null
| Bool (b : bool)
| Num (n : Z)
| Str (s : jsstring)
| Arr (items : list value)
| Obj (fields : list (jsstring * value)).
Set Elimination Schemes.

(** Induction with the hypotheses for the values nested in arrays and
    objects. *)
Section Induction.
Variable P : value -> Prop.
Hypothesis HNull : P Null.
Hypothesis HBool : forall b, P (Bool b).
Hypothesis HNum : forall n, P (Num n).
Hypothesis HStr : forall s, P (Str s).
Hypothesis HArr : forall items, Forall P items -> P (Arr items).
Hypothesis HObj : forall fields, Forall (fun kv => P (snd kv)) fields -> P (Obj fields).

Fixpoint value_nested_ind (v : value) : P v :=
  match v with
  | Null => HNull
  | Bool b => HBool b
  | Num n => HNum n
  | Str s => HStr s
  | Arr items =>
      HArr items
        ((fix go (l : list value) : Forall P l :=
            match l with
            | [] => @List.Forall_nil _ P
            | x :: l' => @List.Forall_cons _ P x l' (value_nested_ind x) (go l')
            end) items)
  | Obj fields =>
      HObj fields
        ((fix go (l : list (jsstring * value)) : Forall (fun kv => P (snd kv)) l :=
            match l with
            | [] => @List.Forall_nil _ _
            | kv :: l' =>
                @List.Forall_cons _ (fun kv => P (snd kv)) kv l'
                  (value_nested_ind (snd kv)) (go l')
            end) fields)
  end.
End Induction.

(** A JavaScript value that may be [undefined]. *)
Abbreviation jsval := (option value).

Definition lookup_field (k : jsstring) (fields : list (jsstring * value)) : jsval :=
  match List.find (fun kv => JsString.eqb (fst kv) k) fields with
  | Some kv => Some (snd kv)
  | None => None
  end.

(** Truthiness: [undefined], [null], [false], [0] and the empty string
    are falsy. *)
Definition truthy (v : jsval) : bool :=
  match v with
  | None | Some Null => false
  | Some (Bool b) => b
  | Some (Num n) => negb (n =? 0)%Z
  | Some (Str s) => match s with [] => false | _ :: _ => true end
  | Some (Arr _) | Some (Obj _) => true
  end.

(** [a || b] with a defined right operand. *)
Definition or_else (a : jsval) (b : value) : value :=
  match a with
  | Some v => if truthy a then v else b
  | None => b
  end.

(** [v === "literal"] *)
Definition is_str (v : jsval) (s : string) : bool :=
  match v with
  | Some (Str x) => JsString.eqb x (js s)
  | _ => false
  end.

(** [String(v)]: arrays join the renderings of their elements with commas
    ([null] elements render empty), objects render as [[object Object]]. *)
Fixpoint to_String (v : value) : jsstring :=
  match v with
  | Null => js "null"
  | Bool true => js "true"
  | Bool false => js "false"
  | Num n => JsString.of_Z n
  | Str s => s
  | Arr items =>
      (fix join (l : list value) : jsstring :=
         match l with
         | [] => []
         | x :: l' =>
             let e := match x with Null => [] | _ => to_String x end in
             match l' with
             | [] => e
             | _ :: _ => e ++ 44 :: join l'
             end
         end) items
  | Obj _ => js "[object Object]"
  end.

(** Null, booleans and numbers. *)
Definition is_scalar (v : value) : bool :=
  match v with
  | Null | Bool _ | Num _ => true
  | _ => false
  end.

(** An object literal some of whose properties may be [undefined]:
    serialisation leaves those out. *)
Definition object (props : list (string * jsval)) : value :=
  Obj (omap (fun '(k, v) => match v with Some x => Some (js k, x) | None => None end)
         props).

(** The property [k] of a serialised body. *)
Definition field (k : string) (v : value) : jsval :=
  match v with
  | Obj fields => lookup_field (js k) fields
  | _ => None
  end.

End Json.

(* ===================================================================== *)
(** ** Exceptions, early responses *)
(* ===================================================================== *)

(** An [Error] object: its [name] and [message]. *)
Record exn := Exn { exn_name : jsstring; exn_message : jsstring }.

Definition Error (msg : jsstring) : exn := Exn (js "Error") msg.

(** Errors the engine raises; the message texts are those of V8. *)
Definition TypeError (msg : jsstring) : exn := Exn (js "TypeError") msg.

Record response := Response {
  status : Z;
  body : Json.value;
  headers : list (string * jsstring)
}.

(** [NextResponse.json(body, { status })] *)
Definition respond (st : Z) (b : Json.value) : response := Response st b [].

(** What a block of handler code comes to: a value to go on with, a
    [return] of a response, or a [throw]. *)
Inductive flow (A : Type) : Type :=
| Go (a : A)
| Return (r : response)
| Throw (e : exn).
Arguments Go {A} a.
Arguments Return {A} r.
Arguments Throw {A} e.

Definition flow_bind {A B} (m : flow A) (f : A -> flow B) : flow B :=
  match m with
  | Go a => f a
  | Return r => Return r
  | Throw e => Throw e
  end.

#[global] Instance flow_mbind : MBind flow := fun A B f m => flow_bind m f.
#[global] Instance flow_mret : MRet flow := fun A a => Go a.

(** [if (c) throw e] *)
Definition throw_if {A} (c : bool) (e : exn) (k : flow A) : flow A :=
  if c then Throw e else k.

(** All the items in order, stopping at the first that does not go on
    ([Array.prototype.map] with a callback that may throw). *)
Fixpoint flow_map {A B} (f : nat -> A -> flow B) (i : nat) (l : list A)
    : flow (list B) :=
  match l with
  | [] => Go []
  | x :: l' =>
      y ← f i x;
      ys ← flow_map f (S i) l';
      Go (y :: ys)
  end.

(** Property access [v.k] on a parsed value: a [TypeError] on [null],
    [undefined] on anything that is not an object. *)
Definition prop (v : Json.value) (k : string) : flow Json.jsval :=
  match v with
  | Json.Null =>
      Throw (TypeError (js "Cannot read properties of null (reading '"
                          ++ js k ++ js "')"))
  | Json.Obj fields => Go (Json.lookup_field (js k) fields)
  | _ => Go None
  end.

(* ===================================================================== *)
(** ** Requests *)
(* ===================================================================== *)

(** The parts of a [NextRequest] the handlers read.  [content_length] is
    [parseInt] of the header, absent when the header is missing or empty
    or does not start with a number; [payload] is what [req.json()]
    resolves to, a body of the type [B] the route declares for it, absent
    when it rejects. *)
Record request (B : Type) := Request {
  x_forwarded_for : option jsstring;
  x_real_ip : option jsstring;
  content_length : option Z;
  payload : option B
}.
Arguments Request {B} _ _ _ _.
Arguments x_forwarded_for {B} _.
Arguments x_real_ip {B} _.
Arguments content_length {B} _.
Arguments payload {B} _.

(** [s.split(",")[0]] *)
Fixpoint before_comma (s : jsstring) : jsstring :=
  match s with
  | [] => []
  | c :: s' => if c =? 44 then [] else c :: before_comma s'
  end.

(** A header or a string field that is present and not empty. *)
Definition nonempty (o : option jsstring) : option jsstring :=
  match o with
  | Some (c :: s) => Some (c :: s)
  | _ => None
  end.

(** [forwarded ? forwarded.split(",")[0].trim()
               : req.headers.get("x-real-ip") || "unknown"] *)
Definition client_ip {B} (req : request B) : jsstring :=
  match nonempty (x_forwarded_for req) with
  | Some forwarded => JsString.trim (before_comma forwarded)
  | None =>
      match nonempty (x_real_ip req) with
      | Some ip => ip
      | None => js "unknown"
      end
  end.

(** What one request observes of the clock and of [Math.random]:
    [now] is [Date.now()] inside the limiter, [sweep] tells whether
    [Math.random() < 0.1] held there, and [later] is the [Date.now()]
    of the 429 response. *)
Record tick := Tick { now : Z; sweep : bool; later : Z }.

(* ===================================================================== *)
(** ** The rate limiters *)
(* ===================================================================== *)

Module RateLimit.
Open Scope Z_scope.

Record entry := Entry { count : Z; resetTime : Z }.

Record RateLimitResult := Result {
  allowed : bool;
  remaining : Z;
  resetAt : Z
}.

Abbreviation store := (gmap jsstring entry).

(** The sweep: every entry whose window is over is deleted. *)
Definition cleanup (now : Z) (s : store) : store :=
  filter (fun kv => ~ (resetTime (snd kv) < now)) s.

(** The decision on the entry read for [key]; a live entry below the
    limit is incremented in place, so the store sees the new count as
    long as it still holds the entry. *)
Definition decide_entry (found : option entry) (key : jsstring)
    (now limit windowMs : Z) (s : store) : RateLimitResult * store :=
  match found with
  | Some e =>
      if resetTime e <? now then
        (Result true (limit - 1) (now + windowMs),
         <[key := Entry 1 (now + windowMs)]> s)
      else if limit <=? count e then
        (Result false 0 (resetTime e), s)
      else
        (Result true (limit - (count e + 1)) (resetTime e),
         alter (fun _ => Entry (count e + 1) (resetTime e)) key s)
  | None =>
      (Result true (limit - 1) (now + windowMs),
       <[key := Entry 1 (now + windowMs)]> s)
  end.

(** [MemoryRateLimiter.check] on the key of a client: the sweep, when
    the draw asks for it, runs before the entry is read. *)
Definition check_key (key : jsstring) (t : tick) (limit windowMs : Z)
    (s : store) : RateLimitResult * store :=
  let s := if sweep t then cleanup (now t) s else s in
  decide_entry (s !! key) key (now t) limit windowMs s.

Definition memory_key {B} (req : request B) : jsstring :=
  js "rate_limit:" ++ client_ip req.

Definition check {B} (req : request B) (t : tick) (limit windowMs : Z)
    (s : store) : RateLimitResult * store :=
  check_key (memory_key req) t limit windowMs s.

(** [getRateLimiter()]: a new [MemoryRateLimiter], whose store is empty;
    with the KV variables set, a [RedisRateLimiter], whose [check] makes
    a new [MemoryRateLimiter] for the call.  Either way the check runs
    on an empty store that nothing keeps afterwards. *)
Definition getRateLimiter_check {B} (req : request B) (t : tick)
    (limit windowMs : Z) : RateLimitResult :=
  fst (check req t limit windowMs ∅).

Definition RATE_LIMIT_MAX_REQUESTS : Z := 10.
Definition RATE_LIMIT_WINDOW_MS : Z := 60 * 1000.

(** [checkRateLimit] of the flashcards and concept-booster routes: the
    entry is read first, the sweep comes after. *)
Definition checkRateLimit (key : jsstring) (t : tick) (s : store)
    : RateLimitResult * store :=
  let found := s !! key in
  let s := if sweep t then cleanup (now t) s else s in
  decide_entry found key (now t) RATE_LIMIT_MAX_REQUESTS RATE_LIMIT_WINDOW_MS s.

(** The entry of a key whose window is still open at [now]. *)
Definition live (now : Z) (s : store) (k : jsstring) : option entry :=
  match s !! k with
  | Some e => if resetTime e <? now then None else Some e
  | None => None
  end.

(** What a check answers and what it leaves under the key, from the
    live entry it finds. *)
Definition verdict (found : option entry) (now limit windowMs : Z)
    : RateLimitResult * entry :=
  match found with
  | None => (Result true (limit - 1) (now + windowMs), Entry 1 (now + windowMs))
  | Some e =>
      if limit <=? count e then (Result false 0 (resetTime e), e)
      else (Result true (limit - (count e + 1)) (resetTime e),
            Entry (count e + 1) (resetTime e))
  end.

(** Consecutive checks of one key. *)
Fixpoint checks (k : jsstring) (L w : Z) (ts : list tick) (s : store)
    : list RateLimitResult * store :=
  match ts with
  | [] => ([], s)
  | t :: ts' =>
      let '(r, s) := check_key k t L w s in
      let '(rs, s) := checks k L w ts' s in
      (r :: rs, s)
  end.

(** The answers from a window that stands at count [c]: allowed while
    the count is below the limit. *)
Fixpoint answers (L reset c : Z) (n : nat) : list RateLimitResult :=
  match n with
  | O => []
  | S n' =>
      (if L <=? c then Result false 0 reset else Result true (L - (c + 1)) reset)
      :: answers L reset (if L <=? c then c else c + 1) n'
  end.

(** [Math.ceil((resetAt - Date.now()) / 1000)] *)
Definition retry_after (r : RateLimitResult) (t : tick) : Z :=
  - ((later t - resetAt r) / 1000).

End RateLimit.

(* ===================================================================== *)
(** ** The model router *)
(* ===================================================================== *)

(** The process environment the server code reads. *)
Record environment := Environment {
  api_key : bool;                              (* GROQ_API_KEY || OPENROUTER_API_KEY *)
  development : bool;                          (* NODE_ENV === "development" *)
  BRAINBOLT_MODEL : option jsstring;
  BRAINBOLT_MODEL_FORMATTER : option jsstring;
  BRAINBOLT_MODEL_FLASHCARDS : option jsstring;
  BRAINBOLT_MODEL_MCQS : option jsstring;
  BRAINBOLT_MODEL_CONCEPT_BOOSTER : option jsstring
}.

Module ModelRouter.

Inductive TaskType := formatter | flashcards | mcqs | concept_booster.

Record ModelConfig := Config {
  model : jsstring;
  temperature : Q;
  description : jsstring
}.

Definition task_name (t : TaskType) : jsstring :=
  match t with
  | formatter => js "formatter"
  | flashcards => js "flashcards"
  | mcqs => js "mcqs"
  | concept_booster => js "concept_booster"
  end.

Definition taskModels (e : environment) (t : TaskType) : option jsstring :=
  match t with
  | formatter => BRAINBOLT_MODEL_FORMATTER e
  | flashcards => BRAINBOLT_MODEL_FLASHCARDS e
  | mcqs => BRAINBOLT_MODEL_MCQS e
  | concept_booster => BRAINBOLT_MODEL_CONCEPT_BOOSTER e
  end.

Definition defaultModels (t : TaskType) : jsstring :=
  match t with
  | formatter | flashcards | mcqs => js "x-ai/grok-4.1-fast"
  | concept_booster => js "meta-llama/llama-3.1-70b-instruct"
  end.

(** The temperature and its rendering in a template literal. *)
Definition temperatures (t : TaskType) : Q * jsstring :=
  match t with
  | formatter | flashcards | mcqs => (2 # 10, js "0.2")
  | concept_booster => (3 # 10, js "0.3")
  end.

Definition getModel (e : environment) (t : TaskType) : ModelConfig :=
  let model :=
    match nonempty (taskModels e t) with
    | Some m => m
    | None =>
        match nonempty (BRAINBOLT_MODEL e) with
        | Some m => m
        | None => defaultModels t
        end
    end in
  Config model (fst (temperatures t))
    (js "Model for " ++ task_name t ++ js ": " ++ model
     ++ js " (temperature: " ++ snd (temperatures t) ++ js ")").

(** [isValidModel]: a slash somewhere and more than three units. *)
Definition isValidModel (m : option jsstring) : bool :=
  match nonempty m with
  | Some s => JsString.includes (js "/") s && (3 <? length s)%nat
  | None => false
  end.

(** [if (body.model && body.model !== "auto") { modelConfig.model = body.model; ... }] *)
Definition override (requested : option jsstring) (c : ModelConfig) : ModelConfig :=
  match nonempty requested with
  | Some m =>
      if JsString.eqb m (js "auto") then c
      else Config m (temperature c) (js "User override: " ++ m)
  | None => c
  end.

End ModelRouter.

(** The request the gateway sends upstream, prompts left out. *)
Record upstream := Upstream { sent_model : jsstring; sent_temperature : Q }.

Definition call_of (c : ModelRouter.ModelConfig) : upstream :=
  Upstream (ModelRouter.model c) (ModelRouter.temperature c).

(** What comes back from [client.chat.completions.create]: a rejection
    (also when [getGroqClient] throws), or the content of the first
    choice; [parsed] is what [JSON.parse] makes of the content once the
    route has stripped fences or cut out the braces. *)
Inductive completion : Type :=
| Rejected (e : exn)
| Content (raw : option jsstring) (parsed : exn + Json.value).

(* ===================================================================== *)
(** ** The error normaliser *)
(* ===================================================================== *)

Module ErrorHandler.
Import Json.

Record SafeError := Safe {
  message : jsstring;
  statusCode : Z;
  code : jsstring
}.

(** [toSafeError]; [error] is absent when the thrown value is not an
    [Error] instance. *)
Definition toSafeError (dev : bool) (error : option exn) (defaultMessage : jsstring)
    : SafeError :=
  match error with
  | Some e =>
      Safe (if dev then exn_message e else defaultMessage) 500 (js "INTERNAL_ERROR")
  | None => Safe defaultMessage 500 (js "UNKNOWN_ERROR")
  end.

(** The [catch] block every route ends with.  [safeError.details] is
    never set, so the body has the two properties only. *)
Definition caught (dev : bool) (defaultMessage : string) (e : exn) : response :=
  let safeError := toSafeError dev (Some e) (js defaultMessage) in
  respond (statusCode safeError)
    (object [("error", Some (Str (message safeError)));
             ("code", Some (Str (code safeError)))]).

Definition REDACTED : jsstring := js "[REDACTED]".

Definition sensitive_words : list jsstring :=
  [js "password"; js "secret"; js "key"; js "token"; js "auth"].

(** [key.toLowerCase().includes(w)] for one of the five words. *)
Definition sensitive (key : jsstring) : bool :=
  existsb (fun w => JsString.includes w (JsString.toLowerCase key)) sensitive_words.

(** The replacer of [logError] applied to one property. *)
Definition replacer (key : jsstring) (v : value) : value :=
  match v with
  | Str _ => if sensitive key then Str REDACTED else v
  | _ => v
  end.

(** [JSON.stringify(v, replacer)] up to the rendering as text: the
    replacer sees every property with its name (an array element with
    its index); it returns arrays and objects as they are, and their
    properties are visited in turn. *)
Fixpoint stringify_with (key : jsstring) (v : value) : value :=
  match v with
  | Arr items =>
      Arr ((fix walk (i : N) (l : list value) : list value :=
              match l with
              | [] => []
              | x :: l' => stringify_with (JsString.of_N i) x :: walk (i + 1) l'
              end) 0 items)
  | Obj fields =>
      Obj ((fix walk (l : list (jsstring * value)) : list (jsstring * value) :=
              match l with
              | [] => []
              | (k, x) :: l' => (k, stringify_with k x) :: walk l'
              end) fields)
  | _ => replacer key v
  end.

(** [obj[k] = v]: an existing property keeps its place. *)
Fixpoint set_prop (k : jsstring) (v : value) (fields : list (jsstring * value))
    : list (jsstring * value) :=
  match fields with
  | [] => [(k, v)]
  | (k', v') :: fields' =>
      if JsString.eqb k' k then (k, v) :: fields'
      else (k', v') :: set_prop k v fields'
  end.

(** The payload [logError] builds: [error], [name], the properties of
    the context (those with a defined value) spread over them, and the
    stack in development. *)
Definition logData (dev : bool) (error : option exn) (stack : option jsstring)
    (context : list (jsstring * value)) : value :=
  let errorMessage :=
    match error with Some e => exn_message e | None => js "Unknown error" end in
  let errorName :=
    match error with Some e => exn_name e | None => js "Error" end in
  let errorStack := match error with Some _ => stack | None => None end in
  let data :=
    fold_left (fun acc '(k, v) => set_prop k v acc) context
      [(js "error", Str errorMessage); (js "name", Str errorName)] in
  Obj match nonempty errorStack with
      | Some st => if dev then set_prop (js "stack") (Str st) data else data
      | None => data
      end.

(** What [logError] hands to [console.error], before it is rendered. *)
Definition logError (dev : bool) (error : option exn) (stack : option jsstring)
    (context : list (jsstring * value)) : value :=
  stringify_with [] (logData dev error stack context).

(** The value at the end of a path of property names and indices. *)
Inductive step := Key (k : jsstring) | Index (i : nat).

Definition step_name (s : step) : jsstring :=
  match s with
  | Key k => k
  | Index i => JsString.of_N (N.of_nat i)
  end.

Fixpoint at_path (v : value) (p : list step) : option value :=
  match p with
  | [] => Some v
  | Key k :: p' =>
      match v with
      | Obj fields =>
          match lookup_field k fields with
          | Some x => at_path x p'
          | None => None
          end
      | _ => None
      end
  | Index i :: p' =>
      match v with
      | Arr items =>
          match items !! i with
          | Some x => at_path x p'
          | None => None
          end
      | _ => None
      end
  end.

(** The name under which the replacer sees the value at the end of a path
    that starts at a value seen under [key]. *)
Definition final_key (key : jsstring) (p : list step) : jsstring :=
  match last p with
  | Some s => step_name s
  | None => key
  end.

End ErrorHandler.

(** The outer [try]/[catch] of a route. *)
Definition settle (dev : bool) (defaultMessage : string) (m : flow response)
    : response :=
  match m with
  | Go r | Return r => r
  | Throw e => ErrorHandler.caught dev defaultMessage e
  end.

(** The inner [try]/[catch] around the parsing: whatever is thrown comes
    out as a new [Error] with the prefix. *)
Definition rethrow {A} (prefix : string) (m : flow A) : flow A :=
  match m with
  | Throw e => Throw (Error (js prefix ++ exn_message e))
  | _ => m
  end.

(** A response and, when the handler got that far, the upstream call. *)
Record outcome := Outcome { reply : response; sent : option upstream }.

Definition rate_headers (r : RateLimit.RateLimitResult) : list (string * jsstring) :=
  [("X-RateLimit-Remaining", JsString.of_Z (RateLimit.remaining r));
   ("X-RateLimit-Reset", JsString.of_Z (RateLimit.resetAt r))].

Definition too_many (r : RateLimit.RateLimitResult) (t : tick) : response :=
  respond 429
    (Json.object
       [("error", Some (Json.Str (js "Rate limit exceeded. Please try again later.")));
        ("retry_after", Some (Json.Num (RateLimit.retry_after r t)))]).

Definition error_body (msg : jsstring) : Json.value :=
  Json.object [("error", Some (Json.Str msg))].

(** [o?.k] on a property that may be missing or [null]. *)
Definition chain (o : Json.jsval) (k : string) : Json.jsval :=
  match o with
  | Some v => Json.field k v
  | None => None
  end.

(** [reported || Math.ceil(length / 4)] *)
Definition tokens_estimate (reported : Json.jsval) (sanitized : jsstring) : Json.value :=
  Json.or_else reported (Json.Num ((Z.of_nat (length sanitized) + 3) / 4)).

(** [const llmResponse = ...content; if (!llmResponse) throw ...] *)
Definition received (llm : completion) : flow (exn + Json.value) :=
  match llm with
  | Rejected e => Throw e
  | Content raw parsed =>
      match nonempty raw with
      | None => Throw (Error (js "No response received from LLM"))
      | Some _ => Go parsed
      end
  end.

(** [JSON.parse(cleanedResponse)] *)
Definition json_parse (parsed : exn + Json.value) : flow Json.value :=
  match parsed with
  | inl e => Throw e
  | inr v => Go v
  end.

(* ===================================================================== *)
(** ** [api/mcq] *)
(* ===================================================================== *)

Module McqRoute.
Import Json.

Definition MAX_TEXT_LENGTH : nat := Z.to_nat 12000.
Definition MAX_REQUEST_SIZE : Z := 15000.

(** The body as [interface MCQRequest] declares it, a property that is
    absent being [None].  Nothing checks [num_questions] before the
    handler computes with it: it is any number, whole or not. *)
Record MCQRequest := Body {
  text : option jsstring;
  num_questions : option JsNumber.number;
  difficulty : option jsstring;
  include_explanations : option bool;
  title : option jsstring;
  model : option jsstring
}.

Definition sanitizeText (text : jsstring) : jsstring :=
  Sanitize.sanitizeTextInput text (Some MAX_TEXT_LENGTH).

Definition validDifficulties : list jsstring := [js "easy"; js "medium"; js "hard"].

(** [validateInput]: the message of the first failing check. *)
Definition validateInput (text : jsstring) (numQuestions : JsNumber.number)
    (difficulty : jsstring) : option jsstring :=
  if (length (JsString.trim text) =? 0)%nat then
    Some (js "Input text cannot be empty.")
  else
    let sanitized := sanitizeText text in
    if (length sanitized =? 0)%nat then
      Some (js "Input text contains no valid content after sanitization.")
    else if (MAX_TEXT_LENGTH <? length sanitized)%nat then
      Some (js "Input text exceeds maximum length of 12000 characters.")
    else if JsNumber.ltb numQuestions (JsNumber.of_Z 1)
            || JsNumber.ltb (JsNumber.of_Z 50) numQuestions then
      Some (js "Number of questions must be between 1 and 50.")
    else if negb (existsb (JsString.eqb difficulty) validDifficulties) then
      Some (js "Difficulty must be one of: easy, medium, hard.")
    else None.

Definition answers : list jsstring := [js "A"; js "B"; js "C"; js "D"].

(** The callback of [mcqsArray.map]; with [index] it is the callback of
    the old-format branch, which names questions by position. *)
Definition format_item (includeExplanations : bool) (index : option nat)
    (item : value) : flow value :=
  q ← prop item "question";
  let id := field "id" item in
  let label :=
    match index with
    | None => to_String (or_else id (Str (js "unknown")))
    | Some i => JsString.of_Z (Z.of_nat i + 1)
    end in
  let question := or_else q (Str []) in
  throw_if (negb (truthy (Some question)))
    (Error (js "Question " ++ label ++ js " is missing question text"))
    (options ←
       match field "options" item with
       | Some (Arr l) =>
           if (length l =? 4)%nat then Go l
           else Throw (Error (js "Question " ++ label ++ js " must have exactly 4 options"))
       | _ => Throw (Error (js "Question " ++ label ++ js " must have exactly 4 options"))
       end;
     let invalid :=
       Error (js "Question " ++ label ++
              match index with
              | None => js " must have a valid correct answer (A, B, C, or D)"
              | Some _ => js " must have a valid correct answer"
              end) in
     correct ←
       match or_else (field "correct" item) (Str []) with
       | Str [] => Throw invalid
       | Str c =>
           if existsb (JsString.eqb (JsString.toUpperCase c)) answers
           then Go (JsString.toUpperCase c) else Throw invalid
       | _ => Throw (TypeError (js "correct.toUpperCase is not a function"))
       end;
     let explanation :=
       if includeExplanations && truthy (field "explanation" item)
       then match field "explanation" item with
            | Some x => Some (Str (JsString.trim (to_String x)))
            | None => None
            end
       else None in
     trimmed ←
       match question with
       | Str s => Go (JsString.trim s)
       | _ => Throw (TypeError (js "question.trim is not a function"))
       end;
     Go (object
           [("id", Some (or_else id (match index with
                                     | None => Num 0
                                     | Some i => Num (Z.of_nat i + 1)
                                     end)));
            ("question", Some (Str trimmed));
            ("options", Some (Arr (List.map (fun opt => Str (JsString.trim (to_String opt)))
                                    options)));
            ("correct", Some (Str correct));
            ("explanation", explanation)])).

(** The invariants of an item as the specification words them: a question
    text, an array of exactly four options, and a correct answer that is
    one of A, B, C, D once upper-cased. *)
Definition meets_invariants (item : value) : bool :=
  truthy (field "question" item)
  && match field "options" item with
     | Some (Arr l) => (length l =? 4)%nat
     | _ => false
     end
  && match field "correct" item with
     | Some (Str c) => existsb (JsString.eqb (JsString.toUpperCase c)) answers
     | _ => false
     end.

Definition success (mcqs : list value) (source_tokens : value)
    (rateLimit : RateLimit.RateLimitResult) : response :=
  Response 200
    (object [("mcqs", Some (Arr mcqs)); ("source_tokens", Some source_tokens)])
    (rate_headers rateLimit).

(** The body of the inner [try], from the parsed reply on. *)
Definition interpret (includeExplanations : bool) (numQuestions : JsNumber.number)
    (sanitizedText : jsstring) (rateLimit : RateLimit.RateLimitResult)
    (parsedResponse : value) : flow response :=
  st ← prop parsedResponse "status";
  if is_str st "ERROR" then
    let errorCode := or_else (field "error_code" parsedResponse)
                       (Str (js "UNKNOWN_ERROR")) in
    let errorMessage := or_else (field "message" parsedResponse)
                          (Str (js "Failed to generate MCQs")) in
    let payload := object [("error", Some errorMessage);
                           ("error_code", Some errorCode)] in
    if is_str (Some errorCode) "INSUFFICIENT_CONTEXT"
    then Return (respond 400 payload)
    else Return (respond 500 payload)
  else
    match (if is_str st "OK" then field "mcqs" parsedResponse else None),
          parsedResponse with
    | Some (Arr mcqsArray), _ =>
        match mcqsArray with
        | [] =>
            Return (respond 400 (error_body
              (js "No MCQs were generated. The text may not contain enough information.")))
        | _ :: _ =>
            formattedMCQs ← flow_map (fun _ => format_item includeExplanations None)
                               0 mcqsArray;
            let sourceTokens :=
              tokens_estimate
                (match field "metadata" parsedResponse with
                 | Some Null | None => None
                 | Some m => field "source_tokens_estimate" m
                 end) sanitizedText in
            Return (success formattedMCQs sourceTokens rateLimit)
        end
    | _, Arr items =>
        formattedMCQs ← flow_map (fun i => format_item includeExplanations (Some i))
                           0 (JsNumber.slice_to numQuestions items);
        Return (success formattedMCQs (tokens_estimate None sanitizedText) rateLimit)
    | _, _ =>
        Throw (Error (js "Invalid response format: expected status OK with mcqs array or error object"))
    end.

(** What the handler has settled when it calls the model. *)
Record prepared := Prepared {
  rateLimit : RateLimit.RateLimitResult;
  sanitizedText : jsstring;
  numQuestions : JsNumber.number;
  includeExplanations : bool;
  modelConfig : ModelRouter.ModelConfig
}.

(** [body.num_questions || d] *)
Definition or_default (o : option JsNumber.number) (d : Z) : JsNumber.number :=
  match o with
  | Some n => JsNumber.or_else n (JsNumber.of_Z d)
  | None => JsNumber.of_Z d
  end.

Definition or_text (o : option jsstring) (d : jsstring) : jsstring :=
  match nonempty o with Some s => s | None => d end.

(** The handler up to the call of the model. *)
Definition prepare (e : environment) (t : tick) (req : request MCQRequest)
    : flow prepared :=
  let rateLimit :=
    RateLimit.getRateLimiter_check req t
      RateLimit.RATE_LIMIT_MAX_REQUESTS RateLimit.RATE_LIMIT_WINDOW_MS in
  if negb (RateLimit.allowed rateLimit) then Return (too_many rateLimit t)
  else if match content_length req with
          | Some n => (MAX_REQUEST_SIZE <? n)%Z
          | None => false
          end
  then Return (respond 413 (error_body (js "Request payload too large.")))
  else
    match payload req with
    | None => Return (respond 400 (error_body (js "Invalid JSON in request body.")))
    | Some body =>
        let numQuestions := or_default (num_questions body) 10 in
        let difficulty := or_text (difficulty body) (js "medium") in
        match validateInput (or_text (text body) []) numQuestions difficulty with
        | Some error => Return (respond 400 (error_body error))
        | None =>
            let sanitizedText := sanitizeText (or_text (text body) []) in
            let includeExplanations :=
              match include_explanations body with Some b => b | None => true end in
            let modelConfig :=
              ModelRouter.override (model body)
                (ModelRouter.getModel e ModelRouter.mcqs) in
            if negb (api_key e)
            then Return (respond 500
                   (error_body (js "Server configuration error: API key not found")))
            else Go (Prepared rateLimit sanitizedText numQuestions
                       includeExplanations modelConfig)
        end
    end.

(** The handler from the reply of the model on. *)
Definition finish (p : prepared) (llm : completion) : flow response :=
  parsed ← received llm;
  rethrow "Failed to parse MCQ response: "
    (parsedResponse ← json_parse parsed;
     interpret (includeExplanations p) (numQuestions p) (sanitizedText p)
       (rateLimit p) parsedResponse).

Definition POST (e : environment) (t : tick) (req : request MCQRequest)
    (llm : completion) : outcome :=
  let default := "Failed to generate MCQs. Please try again." in
  match prepare e t req with
  | Go p => Outcome (settle (development e) default (finish p llm))
              (Some (call_of (modelConfig p)))
  | Return r => Outcome r None
  | Throw err => Outcome (ErrorHandler.caught (development e) default err) None
  end.

End McqRoute.

(* ===================================================================== *)
(** ** [api/flashcards] *)
(* ===================================================================== *)

Module FlashcardsRoute.
Import Json.

Definition MAX_TEXT_LENGTH : nat := Z.to_nat 15000.

Record FlashcardRequest := Body {
  content : option jsstring;
  learning_level : option jsstring;
  model : option jsstring
}.

Definition getRateLimitKey {B} (req : request B) : jsstring :=
  js "flashcards:" ++ client_ip req.

Definition sanitizeText (text : jsstring) : jsstring :=
  Sanitize.sanitizeTextInput text (Some MAX_TEXT_LENGTH).

(** The en dash of the level names is U+2013. *)
Definition validLevels : list jsstring :=
  [js "Class 6" ++ [8211] ++ js "8";
   js "Class 9" ++ [8211] ++ js "10";
   js "Class 11" ++ [8211] ++ js "12 (Intermediate)";
   js "University Level";
   js "Professional / Advanced";
   js "Other"].

Definition validateInput (text level : jsstring) : option jsstring :=
  if (length (JsString.trim text) =? 0)%nat then
    Some (js "Content cannot be empty.")
  else
    let sanitized := sanitizeText text in
    if (length sanitized =? 0)%nat then
      Some (js "Content contains no valid text after sanitization.")
    else if (MAX_TEXT_LENGTH <? length sanitized)%nat then
      Some (js "Content exceeds maximum length of 15000 characters.")
    else if negb (existsb (JsString.eqb level) validLevels) then
      Some (js "Invalid learning level.")
    else None.

(** A card as the [map] callback builds it. *)
Record card := Card {
  card_id : value;
  card_type : value;
  front : jsstring;
  back : jsstring
}.

(** [String(card.k || "").trim()] *)
Definition coerce (v : jsval) : jsstring :=
  JsString.trim (to_String (or_else v (Str []))).

Definition to_card (index : nat) (item : value) : flow card :=
  id ← prop item "id";
  Go (Card (or_else id (Num (Z.of_nat index + 1)))
           (or_else (field "type" item) (Str (js "concept")))
           (coerce (field "front" item))
           (coerce (field "back" item))).


(** [card.front && card.back] *)
Definition kept (c : card) : bool :=
  negb (length (front c) =? 0)%nat && negb (length (back c) =? 0)%nat.

Definition card_json (c : card) : value :=
  object [("id", Some (card_id c)); ("type", Some (card_type c));
          ("front", Some (Str (front c))); ("back", Some (Str (back c)))].

(** [flashcards.filter(c => c.type === kind).length] *)
Definition count_type (kind : string) (cards : list card) : Z :=
  Z.of_nat (length (List.filter (fun c => is_str (Some (card_type c)) kind) cards)).

Definition interpret (learningLevel sanitizedContent : jsstring)
    (rateLimit : RateLimit.RateLimitResult) (parsedResponse : value)
    : flow response :=
  st ← prop parsedResponse "status";
  if is_str st "ERROR" then
    Return (respond 400
      (object [("error", Some (or_else (field "message" parsedResponse)
                                 (Str (js "Failed to generate flashcards"))));
               ("error_code", field "error_code" parsedResponse)]))
  else
    match (if is_str st "OK" then field "flashcards" parsedResponse else None) with
    | Some (Arr items) =>
        mapped ← flow_map to_card 0 items;
        let flashcards := List.filter kept mapped in
        match flashcards with
        | [] => Return (respond 400 (error_body (js "No valid flashcards were generated.")))
        | _ :: _ =>
            let sourceTokens :=
              tokens_estimate
                (match field "metadata" parsedResponse with
                 | Some Null | None => None
                 | Some m => field "tokens_estimate" m
                 end) sanitizedContent in
            Return (Response 200
              (object
                 [("status", Some (Str (js "OK")));
                  ("flashcards", Some (Arr (List.map card_json flashcards)));
                  ("metadata", Some (object
                     [("learning_level", Some (Str learningLevel));
                      ("total_cards", Some (Num (Z.of_nat (length flashcards))));
                      ("concept_cards", Some (Num (count_type "concept" flashcards)));
                      ("application_cards",
                         Some (Num (count_type "application" flashcards)));
                      ("trick_cards", Some (Num (count_type "trick" flashcards)));
                      ("tokens_estimate", Some sourceTokens)]))])
              (rate_headers rateLimit))
        end
    | _ => Throw (Error (js "Invalid response format"))
    end.

Record prepared := Prepared {
  rateLimit : RateLimit.RateLimitResult;
  sanitizedContent : jsstring;
  learningLevel : jsstring;
  modelConfig : ModelRouter.ModelConfig
}.

Definition prepare (e : environment) (t : tick) (req : request FlashcardRequest)
    (s : RateLimit.store) : flow prepared * RateLimit.store :=
  let '(rateLimit, s) := RateLimit.checkRateLimit (getRateLimitKey req) t s in
  (if negb (RateLimit.allowed rateLimit) then Return (too_many rateLimit t)
   else
     match payload req with
     | None => Return (respond 400 (error_body (js "Invalid JSON in request body.")))
     | Some body =>
         let content := McqRoute.or_text (content body) [] in
         let level := McqRoute.or_text (learning_level body) [] in
         match validateInput content level with
         | Some error => Return (respond 400 (error_body error))
         | None =>
             let sanitizedContent := sanitizeText content in
             let learningLevel :=
               Sanitize.sanitizeSingleLineInput level (Some 100%nat) in
             let modelConfig :=
               ModelRouter.override (model body)
                 (ModelRouter.getModel e ModelRouter.flashcards) in
             if negb (api_key e)
             then Return (respond 500
                    (error_body (js "Server configuration error: API key not found")))
             else Go (Prepared rateLimit sanitizedContent learningLevel modelConfig)
         end
     end, s).

Definition finish (p : prepared) (llm : completion) : flow response :=
  parsed ← received llm;
  rethrow "Failed to parse response: "
    (parsedResponse ← json_parse parsed;
     interpret (learningLevel p) (sanitizedContent p) (rateLimit p) parsedResponse).

Definition POST (e : environment) (t : tick) (req : request FlashcardRequest)
    (llm : completion) (s : RateLimit.store) : outcome * RateLimit.store :=
  let default := "Failed to generate flashcards. Please try again." in
  let '(m, s) := prepare e t req s in
  (match m with
   | Go p => Outcome (settle (development e) default (finish p llm))
               (Some (call_of (modelConfig p)))
   | Return r => Outcome r None
   | Throw err => Outcome (ErrorHandler.caught (development e) default err) None
   end, s).

End FlashcardsRoute.

(* ===================================================================== *)
(** ** [api/concept-booster] *)
(* ===================================================================== *)

Module ConceptBoosterRoute.
Import Json.

Definition MAX_TOPIC_LENGTH : nat := 500.
Definition MAX_REQUEST_SIZE : Z := 2000.

(** The fields of the body that decide the response; the step, the
    doubt, the answers and the history only shape the prompt. *)
Record ConceptBoosterRequest := Body {
  topic : option jsstring;
  learning_level : option jsstring;
  model : option jsstring
}.

Definition getRateLimitKey {B} (req : request B) : jsstring :=
  js "concept-booster:" ++ client_ip req.

Definition sanitizeText (text : jsstring) : jsstring :=
  Sanitize.sanitizeTextInput text (Some MAX_TOPIC_LENGTH).

Definition validLevels : list jsstring :=
  [js "Class 6" ++ [8211] ++ js "8";
   js "Class 9" ++ [8211] ++ js "10";
   js "Class 11" ++ [8211] ++ js "12 (FSc/Intermediate)";
   js "University Level";
   js "Beginner Adult";
   js "Advanced Learner";
   js "Other"].

Definition validateInput (topic learningLevel : jsstring) : option jsstring :=
  if (length (JsString.trim topic) =? 0)%nat then
    Some (js "Topic cannot be empty.")
  else
    let sanitized := sanitizeText topic in
    if (length sanitized =? 0)%nat then
      Some (js "Topic contains no valid content after sanitization.")
    else if (MAX_TOPIC_LENGTH <? length sanitized)%nat then
      Some (js "Topic exceeds maximum length of 500 characters.")
    else if negb (existsb (JsString.eqb learningLevel) validLevels) then
      Some (js "Invalid learning level.")
    else None.

Definition interpret (rateLimit : RateLimit.RateLimitResult)
    (parsedResponse : value) : flow response :=
  st ← prop parsedResponse "status";
  if is_str st "ERROR" then
    Return (respond 400
      (object [("error", Some (or_else (field "message" parsedResponse)
                                 (Str (js "Failed to generate content"))));
               ("error_code", field "error_code" parsedResponse)]))
  else if is_str st "OK" then
    Return (Response 200 parsedResponse (rate_headers rateLimit))
  else Throw (Error (js "Invalid response format")).

Record prepared := Prepared {
  rateLimit : RateLimit.RateLimitResult;
  modelConfig : ModelRouter.ModelConfig
}.

Definition prepare (e : environment) (t : tick)
    (req : request ConceptBoosterRequest) (s : RateLimit.store)
    : flow prepared * RateLimit.store :=
  let '(rateLimit, s) := RateLimit.checkRateLimit (getRateLimitKey req) t s in
  (if negb (RateLimit.allowed rateLimit) then Return (too_many rateLimit t)
   else if match content_length req with
           | Some n => (MAX_REQUEST_SIZE <? n)%Z
           | None => false
           end
   then Return (respond 413 (error_body (js "Request payload too large.")))
   else
     match payload req with
     | None => Return (respond 400 (error_body (js "Invalid JSON in request body.")))
     | Some body =>
         match validateInput (McqRoute.or_text (topic body) [])
                 (McqRoute.or_text (learning_level body) []) with
         | Some error => Return (respond 400 (error_body error))
         | None =>
             let modelConfig :=
               ModelRouter.override (model body)
                 (ModelRouter.getModel e ModelRouter.concept_booster) in
             if negb (api_key e)
             then Return (respond 500
                    (error_body (js "Server configuration error: API key not found")))
             else Go (Prepared rateLimit modelConfig)
         end
     end, s).

Definition finish (p : prepared) (llm : completion) : flow response :=
  parsed ← received llm;
  rethrow "Failed to parse response: "
    (parsedResponse ← json_parse parsed;
     interpret (rateLimit p) parsedResponse).

Definition POST (e : environment) (t : tick)
    (req : request ConceptBoosterRequest) (llm : completion)
    (s : RateLimit.store) : outcome * RateLimit.store :=
  let default := "Failed to process request. Please try again." in
  let '(m, s) := prepare e t req s in
  (match m with
   | Go p => Outcome (settle (development e) default (finish p llm))
               (Some (call_of (modelConfig p)))
   | Return r => Outcome r None
   | Throw err => Outcome (ErrorHandler.caught (development e) default err) None
   end, s).

End ConceptBoosterRoute.

(* ===================================================================== *)
(** ** [api/format] *)
(* ===================================================================== *)

Module FormatRoute.
Import Json.

Record FormatRequest := Body {
  text : option jsstring;
  model : option jsstring
}.

(** The handler up to the call of the model.  A body that is not JSON
    makes [req.json()] reject, which the [catch] block answers. *)
Definition prepare (e : environment) (req : request FormatRequest)
    : flow ModelRouter.ModelConfig :=
  if negb (api_key e)
  then Return (respond 500
         (error_body (js "Server configuration error: API key not found")))
  else
    match payload req with
    | None => Throw (Exn (js "SyntaxError") (js "Unexpected end of JSON input"))
    | Some body =>
        let rawText := match text body with Some s => s | None => [] end in
        let text :=
          JsString.trim
            (Sanitize.sanitizeTextInput rawText (Some (Z.to_nat 50000))) in
        match text with
        | [] => Return (respond 400
                  (error_body (js "Text is required. Please provide valid content.")))
        | _ :: _ =>
            Go (ModelRouter.override (model body)
                  (ModelRouter.getModel e ModelRouter.formatter))
        end
    end.

Definition unable : jsstring := js "Unable to format text.".

Definition finish (llm : completion) : flow response :=
  match llm with
  | Rejected err => Throw err
  | Content raw _ =>
      let formatted := match raw with Some s => s | None => unable end in
      if (length formatted =? 0)%nat || JsString.eqb formatted unable
      then Return (respond 500
             (error_body (js "No formatted content received from AI")))
      else Return (respond 200 (object [("formatted", Some (Str formatted))]))
  end.

Definition POST (e : environment) (req : request FormatRequest)
    (llm : completion) : outcome :=
  let default := "Failed to format text. Please try again." in
  match prepare e req with
  | Go c => Outcome (settle (development e) default (finish llm)) (Some (call_of c))
  | Return r => Outcome r None
  | Throw err => Outcome (ErrorHandler.caught (development e) default err) None
  end.

End FormatRoute.

(* ===================================================================== *)
(** ** The server: the four routes over the state that outlives a request *)
(* ===================================================================== *)

Module Server.

(** The module-level [rateLimitStore] of the flashcards route and that
    of the concept-booster route.  The mcq route keeps no limiter
    between requests and the format route has none. *)
Record state := State {
  flashcards_store : RateLimit.store;
  concept_store : RateLimit.store
}.

Inductive call : Type :=
| Format (req : request FormatRoute.FormatRequest)
| Mcq (req : request McqRoute.MCQRequest)
| Flashcards (req : request FlashcardsRoute.FlashcardRequest)
| ConceptBooster (req : request ConceptBoosterRoute.ConceptBoosterRequest).

Definition handle (e : environment) (t : tick) (c : call) (llm : completion)
    (st : state) : outcome * state :=
  match c with
  | Format req => (FormatRoute.POST e req llm, st)
  | Mcq req => (McqRoute.POST e t req llm, st)
  | Flashcards req =>
      let '(o, s) := FlashcardsRoute.POST e t req llm (flashcards_store st) in
      (o, State s (concept_store st))
  | ConceptBooster req =>
      let '(o, s) := ConceptBoosterRoute.POST e t req llm (concept_store st) in
      (o, State (flashcards_store st) s)
  end.

(** The key under which a call counts its client, if it counts at all. *)
Definition counter_key (c : call) : option jsstring :=
  match c with
  | Format _ => None
  | Mcq req => Some (RateLimit.memory_key req)
  | Flashcards req => Some (FlashcardsRoute.getRateLimitKey req)
  | ConceptBooster req => Some (ConceptBoosterRoute.getRateLimitKey req)
  end.

(** A sequence of requests, each with what it observes. *)
Fixpoint run (e : environment) (calls : list (tick * call * completion))
    (st : state) : list outcome * state :=
  match calls with
  | [] => ([], st)
  | (t, c, llm) :: calls' =>
      let '(o, st) := handle e t c llm st in
      let '(os, st) := run e calls' st in
      (o :: os, st)
  end.

(** The two stores. *)
Inductive limited := OnFlashcards | OnConceptBooster.

Definition store_of (ep : limited) (st : state) : RateLimit.store :=
  match ep with
  | OnFlashcards => flashcards_store st
  | OnConceptBooster => concept_store st
  end.

(** The call counts under key [k] in the store [ep]. *)
Definition hit (ep : limited) (k : jsstring) (c : call) : bool :=
  match ep, c with
  | OnFlashcards, Flashcards req =>
      bool_decide (FlashcardsRoute.getRateLimitKey req = k)
  | OnConceptBooster, ConceptBooster req =>
      bool_decide (ConceptBoosterRoute.getRateLimitKey req = k)
  | _, _ => false
  end.

Definition hits (ep : limited) (k : jsstring)
    (calls : list (tick * call * completion)) : nat :=
  length (List.filter (fun x => hit ep k (snd (fst x))) calls).

(** The response to the last of a sequence of requests. *)
Definition last_reply (e : environment) (calls : list (tick * call * completion))
    (st : state) : option response :=
  option_map reply (last (fst (run e calls st))).

(** A response carries the two rate-limit headers. *)
Definition has_rate_headers (r : response) : Prop :=
  exists remaining reset,
    headers r = [("X-RateLimit-Remaining", remaining); ("X-RateLimit-Reset", reset)].

End Server.

(* ===================================================================== *)
(** ** Sample inputs *)
(* ===================================================================== *)

Module Sample.
Import Json.
Local Open Scope Z_scope.

Definition env : environment :=
  Environment true false None None None None None.

Definition at_ (ms : Z) : tick := Tick ms false ms.

Definition sentence : jsstring :=
  js "Photosynthesis is the process by which plants convert light energy into chemical energy.".

Definition from_ip {B} (ip : string) (b : B) : request B :=
  Request (Some (js ip)) None None (Some b).

Definition flashcards_request (m : option jsstring)
    : request FlashcardsRoute.FlashcardRequest :=
  from_ip "203.0.113.7" (FlashcardsRoute.Body (Some sentence) (Some (js "Other")) m).

Definition mcq_request (m : option jsstring) : request McqRoute.MCQRequest :=
  from_ip "203.0.113.7"
    (McqRoute.Body (Some sentence) (Some (JsNumber.of_Z 5)) (Some (js "medium"))
       (Some true) None m).

Definition concept_request (m : option jsstring)
    : request ConceptBoosterRoute.ConceptBoosterRequest :=
  from_ip "203.0.113.7"
    (ConceptBoosterRoute.Body (Some (js "Photosynthesis")) (Some (js "Other")) m).

Definition format_request (m : option jsstring) : request FormatRoute.FormatRequest :=
  from_ip "203.0.113.7" (FormatRoute.Body (Some sentence) m).

(** A reply whose text parses to [v]. *)
Definition parses_to (v : value) : completion := Content (Some (js "{...}")) (inr v).

Definition error_reply (code : string) (msg : string) : value :=
  Obj [(js "status", Str (js "ERROR")); (js "error_code", Str (js code));
       (js "message", Str (js msg))].

Definition empty_state : Server.state := Server.State ∅ ∅.

(** A request to the flashcards route at the given time, with a reply
    that reports an error. *)
Definition flashcards_call (ms : Z) : tick * Server.call * completion :=
  (at_ ms, Server.Flashcards (flashcards_request None),
   parses_to (error_reply "INSUFFICIENT_CONTEXT" "not enough facts")).

(** A request to the format route, with a reply that is formatted text. *)
Definition format_call (ms : Z) : tick * Server.call * completion :=
  (at_ ms, Server.Format (format_request None),
   Content (Some (js "# Photosynthesis"))
     (inl (Exn (js "SyntaxError") (js "Unexpected token #")))).

(** Nine more requests to the flashcards route, a second apart. *)
Definition flashcards_burst : list (tick * Server.call * completion) :=
  List.map flashcards_call [2000; 3000; 4000; 5000; 6000; 7000; 8000; 9000; 10000].

(** Eleven requests to the format route within a second. *)
Definition format_burst : list (tick * Server.call * completion) :=
  List.map format_call
    [1000; 1001; 1002; 1003; 1004; 1005; 1006; 1007; 1008; 1009; 1010].

End Sample.

(** ** Shapes of responses and of blocks *)

(** A response is either not a 200 or carries the rate-limit headers. *)
Definition limited_ok (r : response) : Prop :=
  status r = 200%Z -> Server.has_rate_headers r.

Definition flow_ok (m : flow response) : Prop :=
  match m with
  | Go r | Return r => limited_ok r
  | Throw _ => True
  end.

(** The block does not [return]: it goes on or throws. *)
Definition no_return {A} (m : flow A) : Prop :=
  match m with
  | Return _ => False
  | _ => True
  end.

(* ===================================================================== *)
(** * The rest of the library *)
(* ===================================================================== *)

(** ** The sanitizer: what it lets through, and [isInputSafe] *)

Module Sanitized.
Import Regex.
Definition never (rs : ranges) (s : jsstring) : Prop :=
  Forall (fun c => in_ranges rs c = false) s.

Definition injection_units : ranges :=
  [(0, 8); (11, 12); (14, 31); (127, 127);
   (39, 39); (59, 59); (38, 38); (124, 124); (96, 96); (36, 36);
   (40, 40); (41, 41); (123, 123); (125, 125);
   (8203, 8205); (65279, 65279)].

Definition markup_units : ranges := [(60, 60); (62, 62); (34, 34)].
End Sanitized.

Module InputCheck.
Import Regex Sanitize.

(** The patterns of [isInputSafe], each with its [i] flag. *)
Definition dangerousPatterns : list (bool * regex) :=
  [(true, lit "<script");
   (true, lit "javascript:");
   (true, seqs [lit "on"; plus word; Star ws; chr "="]);
   (true, seqs [lit "eval"; Star ws; chr "("]);
   (true, keywords ["SELECT"; "INSERT"; "UPDATE"; "DELETE"; "DROP"; "CREATE";
                    "ALTER"; "EXEC"; "EXECUTE"]);
   (false, shell_meta);
   (false, lit "../");
   (false, Seq (lit "..") backslash)].

(** [isInputSafe] on a string (any other argument is unsafe). *)
Definition isInputSafe (input : jsstring) : bool :=
  negb (existsb (fun '(ci, r) => test ci r input) dangerousPatterns).

End InputCheck.

(* ===================================================================== *)
(** ** What the routes hand to [JSON.parse] *)
(* ===================================================================== *)

Module ReplyText.
Import Regex.

(** [s.replace(regex, rep)] without the [g] flag: the first match only. *)
Definition replace_first (ci : bool) (r : regex) (rep s : jsstring) : jsstring :=
  match find_from ci r None s with
  | None => s
  | Some (skipped, q) => skipped ++ rep ++ rest q
  end.

(** [s.match(regex)] without the [g] flag, as far as its element 0: the
    text of the first match. *)
Definition match_first (ci : bool) (r : regex) (s : jsstring) : option jsstring :=
  match find_from ci r None s with
  | None => None
  | Some (skipped, q) =>
      Some (take (length s - length skipped - length (rest q))
              (drop (length skipped) s))
  end.

(** Any unit at all, line terminators included. *)
Definition any : regex := Cls true [].

(** The opening fence with its language tag, the bare opening fence and
    the closing fence, each with the white space next to it. *)
Definition re_open_json : regex := seqs [Bol; lit "```json"; Star ws].
Definition re_open : regex := seqs [Bol; lit "```"; Star ws].
Definition re_close : regex := seqs [Star ws; lit "```"; Eol].

(** An opening brace, anything, a closing brace. *)
Definition re_object : regex := seqs [chr "{"; Star any; chr "}"].

(** What the mcq and flashcards routes hand to [JSON.parse]: the reply
    trimmed, and without its code fence when it starts with one. *)
Definition strip_fences (llmResponse : jsstring) : jsstring :=
  let cleanedResponse := JsString.trim llmResponse in
  if JsString.startsWith (js "```json") cleanedResponse then
    replace_first false re_close []
      (replace_first false re_open_json [] cleanedResponse)
  else if JsString.startsWith (js "```") cleanedResponse then
    replace_first false re_close []
      (replace_first false re_open [] cleanedResponse)
  else cleanedResponse.

(** What the concept-booster route hands to [JSON.parse]: the match of
    the brace pattern, or the reply trimmed when there is none. *)
Definition extract_object (llmResponse : jsstring) : jsstring :=
  match match_first false re_object llmResponse with
  | Some m => m
  | None => JsString.trim llmResponse
  end.

(** The unit before the position reached by passing [a] from a position
    that has [pv] before it. *)
Definition before (pv : option N) (a : jsstring) : option N :=
  match last a with
  | Some c => Some c
  | None => pv
  end.

End ReplyText.

(* ===================================================================== *)
(** ** Shapes of the responses of the routes *)
(* ===================================================================== *)

(** What holds of the response a block comes to, when it comes to one. *)
Definition flow_sat (P : response -> Prop) (m : flow response) : Prop :=
  match m with
  | Go r | Return r => P r
  | Throw _ => True
  end.

Module Replies.
Import Json.

(** An MCQ as the mcq route returns it: a question text, four option
    texts and one of the four letters. *)
Definition returned_ok (item : value) : bool :=
  match field "question" item, field "options" item, field "correct" item with
  | Some (Str _), Some (Arr [Str _; Str _; Str _; Str _]), Some (Str c) =>
      existsb (JsString.eqb c) McqRoute.answers
  | _, _, _ => false
  end.

(** The responses of the mcq route once the model has replied. *)
Definition mcq_reply (rl : RateLimit.RateLimitResult) (r : response) : Prop :=
  status r = 400%Z \/ status r = 500%Z
  \/ (status r = 200%Z /\ headers r = rate_headers rl
      /\ exists items, field "mcqs" (body r) = Some (Arr items)
                       /\ forallb returned_ok items = true).

(** The number under a name in the metadata of a body. *)
Definition metadata_count (k : string) (b : value) : option Z :=
  match chain (field "metadata" b) k with
  | Some (Num n) => Some n
  | _ => None
  end.

(** The responses of the flashcards route once the model has replied. *)
Definition flashcards_reply (r : response) : Prop :=
  status r = 400%Z
  \/ (status r = 200%Z
      /\ exists total concept application trick,
           metadata_count "total_cards" (body r) = Some total
           /\ metadata_count "concept_cards" (body r) = Some concept
           /\ metadata_count "application_cards" (body r) = Some application
           /\ metadata_count "trick_cards" (body r) = Some trick
           /\ (1 <= total /\ 0 <= concept /\ 0 <= application /\ 0 <= trick
               /\ concept + application + trick <= total)%Z).

End Replies.

Module ServerView.
Import Server.

(** The body of the request parsed as JSON. *)
Definition has_body (c : call) : bool :=
  match c with
  | Format req => bool_decide (is_Some (payload req))
  | Mcq req => bool_decide (is_Some (payload req))
  | Flashcards req => bool_decide (is_Some (payload req))
  | ConceptBooster req => bool_decide (is_Some (payload req))
  end.

(** The message each route gives [toSafeError] as its default. *)
Definition failure_text (c : call) : string :=
  match c with
  | Format _ => "Failed to format text. Please try again."
  | Mcq _ => "Failed to generate MCQs. Please try again."
  | Flashcards _ => "Failed to generate flashcards. Please try again."
  | ConceptBooster _ => "Failed to process request. Please try again."
  end.

End ServerView.

Module Tasks.
Import Server ModelRouter.

(** The task each route asks the router for. *)
Definition task_of (c : call) : TaskType :=
  match c with
  | Format _ => formatter
  | Mcq _ => mcqs
  | Flashcards _ => flashcards
  | ConceptBooster _ => concept_booster
  end.

(** [getAllModelConfigs]: the configuration of every task, under its
    name, in the order of the object literal. *)
Definition getAllModelConfigs (e : environment) : list (jsstring * ModelConfig) :=
  List.map (fun t => (task_name t, getModel e t))
    [formatter; flashcards; mcqs; concept_booster].

End Tasks.

(* ===================================================================== *)
(** ** A limiter that serves several clients *)
(* ===================================================================== *)

Module Limiter.
Import RateLimit.
Open Scope Z_scope.

(** One limiter serving the checks of several clients in turn: each
    call names the key of its client. *)
Fixpoint serve (L w : Z) (calls : list (jsstring * tick)) (s : store)
    : list (jsstring * RateLimitResult) * store :=
  match calls with
  | [] => ([], s)
  | (k, t) :: calls' =>
      let '(r, s) := check_key k t L w s in
      let '(rs, s) := serve L w calls' s in
      ((k, r) :: rs, s)
  end.

(** What concerns one client in a list of calls or of answers. *)
Definition of_client {A} (k : jsstring) (l : list (jsstring * A)) : list A :=
  List.map snd (List.filter (fun x => bool_decide (fst x = k)) l).

(** Every count in the store is at least 1 and at most the limit. *)
Definition bounded (L : Z) (s : store) : Prop :=
  map_Forall (fun _ e => 1 <= count e <= L) s.

(** No window in the store ends later than one window length after
    the time [T]. *)
Definition within_window (T : Z) (s : store) : Prop :=
  map_Forall (fun _ e => resetTime e <= T + RATE_LIMIT_WINDOW_MS) s.

End Limiter.

(* ===================================================================== *)
(** ** The error responses of [errorHandler] *)
(* ===================================================================== *)

Module ErrorResponse.
Import Json ErrorHandler.

(** What [Response.json] throws instead of building a response: a
    [RangeError] for a status outside 200..599, a [TypeError] for a status
    that allows no body. *)
Inductive refusal : Type :=
| RangeError_status (st : Z)
| TypeError_null_body (st : Z).

(** The null body statuses of the Fetch standard. *)
Definition null_body_status (st : Z) : bool :=
  existsb (Z.eqb st) [101; 103; 204; 205; 304]%Z.

(** [Response.json(data, { status })] on data that serialises: the status
    is converted to an [unsigned short], checked against the range and,
    the body not being null, against the null body statuses. *)
Definition Response_json (data : value) (status : JsNumber.number)
    : refusal + response :=
  let st := JsNumber.to_uint16 status in
  if ((st <? 200) || (599 <? st))%Z then inl (RangeError_status st)
  else if null_body_status st then inl (TypeError_null_body st)
  else inr (respond st data).

(** [createErrorResponse(error, defaultMessage, statusCode)]: the
    response, or what is thrown in its place, and what it hands to
    [console.error] before; an argument that is left out takes its
    default. *)
Definition createErrorResponse (dev : bool) (error : option exn)
    (stack : option jsstring) (defaultMessage : option jsstring)
    (statusCode : option JsNumber.number) : (refusal + response) * list value :=
  let defaultMessage :=
    match defaultMessage with
    | Some m => m
    | None => js "Something went wrong. Please try again."
    end in
  let statusCode :=
    match statusCode with Some n => n | None => JsNumber.of_Z 500 end in
  let safeError := toSafeError dev error defaultMessage in
  (Response_json
     (object [("error", Some (Str (message safeError)));
              ("code", Some (Str (code safeError)))])
     statusCode,
   [logError dev error stack [(js "operation", Str (js "createErrorResponse"))]]).

(** [withErrorHandler(handler, options)] applied to arguments on which
    the handler either resolves to a response or throws a value (an
    [Error] with its stack, or something else); [name] is
    [handler.name].  What [createErrorResponse] throws nothing catches:
    the wrapper rejects with it. *)
Definition withErrorHandler (dev : bool) (route : option jsstring) (name : jsstring)
    (defaultMessage : option jsstring) (defaultStatusCode : option JsNumber.number)
    (outcome : option exn * option jsstring + response)
    : (refusal + response) * list value :=
  match outcome with
  | inr r => (inr r, [])
  | inl (error, stack) =>
      let context :=
        match route with
        | Some r => [(js "route", Str r); (js "operation", Str name)]
        | None => [(js "operation", Str name)]
        end in
      let '(r, logs) :=
        createErrorResponse dev error stack defaultMessage defaultStatusCode in
      (r, logError dev error stack context :: logs)
  end.

(** [isValidErrorResponse]: an object with a string under [error]. *)
Definition isValidErrorResponse (response : jsval) : bool :=
  match response with
  | Some (Obj fields) =>
      match lookup_field (js "error") fields with
      | Some (Str _) => true
      | _ => false
      end
  | _ => false
  end.

(** The names the declared type of the context of [logError] allows. *)
Definition context_names : list jsstring :=
  [js "route"; js "operation"; js "userId"; js "requestId"].

(** A context within its declared type: strings under those names. *)
Definition typed_context (context : list (jsstring * value)) : Prop :=
  Forall (fun kv => In (fst kv) context_names /\ exists s, snd kv = Str s) context.

(** Properties the replacer of [logError] leaves alone: strings under
    names that are not sensitive. *)
Definition plain (fields : list (jsstring * value)) : Prop :=
  Forall (fun kv => sensitive (fst kv) = false /\ exists s, snd kv = Str s) fields.

End ErrorResponse.

(* ===================================================================== *)
(** ** The client-side cache *)
(* ===================================================================== *)

Module Cache.

Definition CACHE_PREFIX : jsstring := js "brainbolt_cache_".

(** [localStorage]: strings under strings. *)
Abbreviation storage := (gmap jsstring jsstring).

(** [Object.keys(localStorage)]: every key once. *)
Definition keys (ls : storage) : list jsstring := List.map fst (map_to_list ls).

(** One round of the loop over the keys:
    [if (key.startsWith(prefix)) { localStorage.removeItem(key); cleared++; }] *)
Definition clear_step (prefix : jsstring) (acc : Z * storage) (key : jsstring)
    : Z * storage :=
  if JsString.startsWith prefix key
  then (fst acc + 1, delete key (snd acc))%Z
  else acc.

(** [clearAllCaches]: the number cleared and the storage left. *)
Definition clearAllCaches (ls : storage) : Z * storage :=
  fold_left (clear_step CACHE_PREFIX) (keys ls) (0%Z, ls).

(** [clearToolCache(toolType)] *)
Definition clearToolCache (toolType : jsstring) (ls : storage) : Z * storage :=
  fold_left (clear_step (CACHE_PREFIX ++ toolType ++ js "_")) (keys ls) (0%Z, ls).

End Cache.

(* ===================================================================== *)
(** ** The manager of the calls of the client *)
(* ===================================================================== *)

Module ApiManager.

(** The [APICallManager] as far as its requests go.  An
    [AbortController] is known by the number of controllers made before
    it; [aborted] holds those whose [abort] has been called. *)
Record manager := Manager {
  activeRequests : gmap jsstring nat;
  aborted : gset nat;
  made : nat
}.

(** [makeRequest] up to its [await]: the previous request under the
    name is cancelled if that is asked for and there is one, and a new
    controller takes the name. *)
Definition makeRequest_start (requestId : jsstring) (cancelPrevious : bool)
    (m : manager) : nat * manager :=
  let m :=
    match activeRequests m !! requestId with
    | Some previous =>
        if cancelPrevious
        then Manager (delete requestId (activeRequests m)) ({[previous]} ∪ aborted m)
               (made m)
        else m
    | None => m
    end in
  let controller := made m in
  (controller,
   Manager (<[requestId := controller]> (activeRequests m)) (aborted m) (S (made m))).

(** [makeRequest] from its [await] on: whatever the request comes to,
    the name is deleted; an [AbortError] is replaced by a new error.
    What is thrown is an [Error] or some other value. *)
Definition makeRequest_end {T} (requestId : jsstring) (outcome : option exn + T)
    (m : manager) : (option exn + T) * manager :=
  (match outcome with
   | inl (Some e) =>
       if JsString.eqb (exn_name e) (js "AbortError")
       then inl (Some (Error (js "Request cancelled")))
       else outcome
   | _ => outcome
   end,
   Manager (delete requestId (activeRequests m)) (aborted m) (made m)).

Definition cancelRequest (requestId : jsstring) (m : manager) : bool * manager :=
  match activeRequests m !! requestId with
  | Some controller =>
      (true,
       Manager (delete requestId (activeRequests m)) ({[controller]} ∪ aborted m)
         (made m))
  | None => (false, m)
  end.

Definition isRequestActive (requestId : jsstring) (m : manager) : bool :=
  bool_decide (is_Some (activeRequests m !! requestId)).

Definition getActiveRequestCount (m : manager) : nat := size (activeRequests m).

(** The numbers in use are those of controllers that have been made. *)
Definition well_numbered (m : manager) : Prop :=
  (forall c, c ∈ aborted m -> (c < made m)%nat)
  /\ (forall k c, activeRequests m !! k = Some c -> (c < made m)%nat).

End ApiManager.

(* ===================================================================== *)
(** ** More sample inputs *)
(* ===================================================================== *)

Module Cases.
Import Json.

(** A reply of the model with one well-formed MCQ. *)
Definition mcq_reply : value :=
  Obj [(js "status", Str (js "OK"));
       (js "mcqs",
        Arr [Obj [(js "id", Num 1);
                  (js "question", Str (js "What do plants convert?"));
                  (js "options", Arr [Str (js "light"); Str (js "water");
                                      Str (js "soil"); Str (js "air")]);
                  (js "correct", Str (js "a"))]])].

(** A reply of the model with two flashcards. *)
Definition flashcards_reply : value :=
  Obj [(js "status", Str (js "OK"));
       (js "flashcards",
        Arr [Obj [(js "type", Str (js "concept"));
                  (js "front", Str (js "Q1")); (js "back", Str (js "A1"))];
             Obj [(js "type", Str (js "definition"));
                  (js "front", Str (js "Q2")); (js "back", Str (js "A2"))]])].

(** A request to the mcq route for two and a half questions. *)
Definition fractional_request : request McqRoute.MCQRequest :=
  Sample.from_ip "203.0.113.7"
    (McqRoute.Body (Some Sample.sentence) (Some (JsNumber.Finite 2.5))
       (Some (js "medium")) (Some true) None None).

(** A key of the flashcards route and a store in which it has used up
    its ten requests. *)
Definition client : jsstring := js "flashcards:203.0.113.7".
Definition spent : RateLimit.store := {[ client := RateLimit.Entry 10 61000 ]}.

(** Checks of two clients in turn, a second apart. *)
Definition two_clients : list (jsstring * tick) :=
  [(client, Sample.at_ 1000); (js "flashcards:198.51.100.2", Sample.at_ 2000);
   (client, Sample.at_ 3000)].

End Cases.

(* ===================================================================== *)
(** * Properties *)
(* ===================================================================== *)

(** ** Strings *)

Module JsStringFacts.
Import JsString.

Lemma eqb_eq a b : eqb a b = true <-> a = b.
Proof. unfold eqb. apply bool_decide_eq_true. Qed.

Lemma eqb_neq a b : eqb a b = false <-> a <> b.
Proof. unfold eqb. apply bool_decide_eq_false. Qed.

Lemma eqb_refl a : eqb a a = true.
Proof. by apply eqb_eq. Qed.

End JsStringFacts.

(** ** The matcher *)

Module RegexFacts.
Import Regex.

Lemma star_loop_ext body fuel :
  (forall p k1 k2, agree_below p k1 k2 -> body p k1 = body p k2) ->
  forall p k1 k2, agree_below p k1 k2 ->
    star_loop body fuel p k1 = star_loop body fuel p k2.
Proof.
  intros Hbody. induction fuel as [|f IH]; intros p k1 k2 Hk; cbn [star_loop].
  - apply Hk. lia.
  - rewrite (Hk p) by lia.
    rewrite (Hbody p _ (fun p' =>
               if (length (rest p') <? length (rest p))%nat
               then star_loop body f p' k2 else None)); [done|].
    intros p' Hp'. destruct (length (rest p') <? length (rest p))%nat; [|done].
    apply IH. intros p'' Hp''. apply Hk. lia.
Qed.

Lemma rmatch_ext ci r : forall p k1 k2,
  agree_below p k1 k2 -> rmatch ci r p k1 = rmatch ci r p k2.
Proof.
  induction r as [|neg rs|a IHa b IHb|a IHa b IHb|a IHa| |a IHa| |];
    intros p k1 k2 Hk; cbn [rmatch].
  - apply Hk. lia.
  - destruct (rest p) as [|c s'] eqn:E; [done|].
    destruct (cls_match ci neg rs c); [|done]. apply Hk. rewrite E. cbn. lia.
  - apply IHa. intros p' Hp'. apply IHb. intros p'' Hp''. apply Hk. lia.
  - rewrite (IHa p k1 k2 Hk), (IHb p k1 k2 Hk). done.
  - by apply star_loop_ext.
  - rewrite (Hk p) by lia. done.
  - rewrite (Hk p) by lia. done.
  - rewrite (Hk p) by lia. done.
  - rewrite (Hk p) by lia. done.
Qed.

(** Past the length of what is left, more fuel changes nothing: the
    iteration stops because a round makes no progress, never because the
    fuel is used up. *)
Lemma star_loop_fuel ci a : forall f1 f2 p k,
  (length (rest p) < f1)%nat -> (length (rest p) < f2)%nat ->
  star_loop (rmatch ci a) f1 p k = star_loop (rmatch ci a) f2 p k.
Proof.
  induction f1 as [|f1 IH]; intros f2 p k H1 H2; [lia|].
  destruct f2 as [|f2]; [lia|]. cbn [star_loop].
  rewrite (rmatch_ext ci a p _ (fun p' =>
             if (length (rest p') <? length (rest p))%nat
             then star_loop (rmatch ci a) f2 p' k else None)); [done|].
  intros p' Hp'. destruct (length (rest p') <? length (rest p))%nat eqn:E; [|done].
  apply Nat.ltb_lt in E. apply IH; lia.
Qed.

(** A match ends no earlier than it starts. *)
Lemma rmatch_forward ci r : forall p k q,
  rmatch ci r p k = Some q ->
  exists p', (length (rest p') <= length (rest p))%nat /\ k p' = Some q.
Proof.
  induction r as [|neg rs|a IHa b IHb|a IHa b IHb|a IHa| |a IHa| |];
    intros p k q H; cbn [rmatch] in H.
  - exists p. split; [lia|done].
  - destruct (rest p) as [|c s'] eqn:E; [done|].
    destruct (cls_match ci neg rs c); [|done].
    eexists. split; [|exact H]. rewrite ?E. cbn. lia.
  - apply IHa in H as (p1 & Hp1 & H). apply IHb in H as (p2 & Hp2 & H).
    exists p2. split; [lia|done].
  - destruct (rmatch ci a p k) as [q'|] eqn:E.
    + injection H as <-. by apply IHa.
    + by apply IHb.
  - set (fuel := S (length (rest p))) in H. clearbody fuel. revert p H.
    induction fuel as [|f IHf]; intros p H; cbn [star_loop] in H.
    { exists p. split; [lia|done]. }
    destruct (rmatch ci a p _) as [q'|] eqn:E.
    + injection H as <-. apply IHa in E as (p1 & Hp1 & E).
      destruct (length (rest p1) <? length (rest p))%nat; [|done].
      apply IHf in E as (p2 & Hp2 & E). exists p2. split; [lia|done].
    + exists p. split; [lia|done].
  - destruct (xorb _ _); [|done]. exists p. split; [lia|done].
  - destruct (rmatch ci a p Some); [done|]. exists p. split; [lia|done].
  - destruct (prev p); [done|]. exists p. split; [lia|done].
  - destruct (rest p) eqn:E; [|done]. exists p. split; [rewrite E; cbn; lia|done].
Qed.

(** What a search skips and what it leaves after the match are within
    the subject. *)
Lemma find_from_within ci r : forall s pv skipped q,
  find_from ci r pv s = Some (skipped, q) ->
  (length skipped + length (rest q) <= length s)%nat.
Proof.
  induction s as [|c s IH]; intros pv skipped q H; cbn [find_from] in H.
  - destruct (rmatch ci r (Pos pv []) Some) as [q'|] eqn:E; [|done].
    injection H as <- <-. apply rmatch_forward in E as (p' & Hp' & E).
    injection E as <-. cbn in *. lia.
  - destruct (rmatch ci r (Pos pv (c :: s)) Some) as [q'|] eqn:E.
    + injection H as <- <-. apply rmatch_forward in E as (p' & Hp' & E).
      injection E as <-. cbn in *. lia.
    + destruct (find_from ci r (Some c) s) as [[sk q']|] eqn:F; [|done].
      injection H as <- <-. apply IH in F. cbn. lia.
Qed.

(** The replacement loop is never cut short by its fuel. *)
Lemma replace_loop_fuel ci r rep : forall f1 f2 pv s,
  (length s < f1)%nat -> (length s < f2)%nat ->
  replace_loop ci r rep f1 pv s = replace_loop ci r rep f2 pv s.
Proof.
  induction f1 as [|f1 IH]; intros f2 pv s H1 H2; [lia|].
  destruct f2 as [|f2]; [lia|]. cbn [replace_loop].
  destruct (find_from ci r pv s) as [[skipped q]|] eqn:F; [|done].
  apply find_from_within in F. cbn zeta.
  set (from := drop (length skipped) s).
  assert (Hfrom : length from = (length s - length skipped)%nat)
    by (subst from; apply length_drop).
  destruct (take (length from - length (rest q)) from) as [|m ms] eqn:Em.
  - destruct (rest q) as [|c s'] eqn:Eq; [done|].
    do 3 f_equal. apply IH; cbn in F; lia.
  - assert (Hlen : (length (rest q) < length from)%nat).
    { apply (f_equal length) in Em. rewrite length_take in Em. cbn in Em. lia. }
    do 2 f_equal. apply IH; lia.
Qed.

End RegexFacts.

(** ** The sanitizer *)

Module SanitizeFacts.
Import Regex Sanitize.

Lemma replace_with_no_match ci r rep s :
  test ci r s = false -> replace_with ci r rep s = s.
Proof.
  unfold test, replace_with. cbn [replace_loop].
  destruct (find_from ci r None s); [discriminate | reflexivity].
Qed.

Lemma replace_no_match ci r rep s :
  test ci r s = false -> replace ci r rep s = s.
Proof. apply replace_with_no_match. Qed.

Lemma block_all_no_match pats marker s :
  forallb (absent s) pats = true -> block_all pats marker s = s.
Proof.
  unfold block_all. induction pats as [|[ci r] pats IH];
    cbn [fold_left forallb absent]; [reflexivity|].
  intros [Hr Hp]%andb_prop. apply negb_true_iff in Hr.
  rewrite (replace_no_match _ _ _ _ Hr). by apply IH.
Qed.

Lemma entities_no_match s :
  forallb (absent s) (List.map (fun '(r, _) => (false, r)) entities) = true ->
  fold_left (fun acc '(r, e) => replace false r e acc) entities s = s.
Proof.
  generalize entities. intros l.
  induction l as [|[r e] l IH]; cbn [fold_left forallb absent List.map];
    [reflexivity|].
  intros [Hr Hp]%andb_prop. apply negb_true_iff in Hr.
  rewrite (replace_no_match _ _ _ _ Hr). by apply IH.
Qed.

Lemma clean_patterns o s :
  clean o s = true -> forallb (absent s) (patterns o) = true.
Proof.
  unfold clean. by intros [[H _]%andb_prop _]%andb_prop.
Qed.

Ltac use_absent :=
  repeat match goal with
    | H : negb (test ?ci ?r ?s) = true |- _ =>
        apply negb_true_iff in H;
        first [ rewrite (replace_no_match ci r _ s H)
              | rewrite (replace_with_no_match ci r _ s H) ];
        clear H
    | H : forallb (absent ?s) sqlPatterns = true |- _ =>
        rewrite (block_all_no_match _ _ _ H); clear H
    | H : forallb (absent ?s) commandPatterns = true |- _ =>
        rewrite (block_all_no_match _ _ _ H); clear H
    | H : forallb (absent ?s) jsPatterns = true |- _ =>
        rewrite (block_all_no_match _ _ _ H); clear H
    | H : forallb (absent ?s) (List.map _ entities) = true |- _ =>
        rewrite (entities_no_match _ H); clear H
    | H : _ && _ = true |- _ => apply andb_prop in H as [? ?]
    end.

(** Text on which no pattern of the pipeline occurs, trimmed and within
    the cap, comes out as it went in. *)
Lemma sanitizeInput_settled o s :
  forallb (absent s) (patterns o) = true ->
  JsString.trim s = s ->
  match maxLength o with Some (S n) => (length s <= S n)%nat | _ => True end ->
  sanitizeInput s o = s.
Proof.
  intros Hp Ht Hl. destruct o as [html cap nl]. cbn [maxLength] in Hl.
  unfold patterns in Hp. cbn [allowHtml removeNewlines] in Hp.
  rewrite !forallb_app in Hp.
  repeat (let H := fresh "Hp" in apply andb_prop in Hp as [H Hp]).
  unfold sanitizeInput. cbn [allowHtml removeNewlines maxLength].
  destruct html, nl; cbn [forallb absent app] in *; use_absent.
  all: rewrite Ht.
  all: destruct cap as [[|n]|]; try reflexivity.
  all: destruct (S n <? length s)%nat eqn:E; [apply Nat.ltb_lt in E; lia | reflexivity].
Qed.

Lemma sanitizeInput_clean o s : clean o s = true -> sanitizeInput s o = s.
Proof.
  intros Hc. pose proof (clean_patterns _ _ Hc) as Hp.
  unfold clean in Hc. apply andb_prop in Hc as [[_ Ht]%andb_prop Hl].
  apply JsStringFacts.eqb_eq in Ht. apply sanitizeInput_settled; [done|done|].
  destruct (maxLength o) as [[|n]|]; [done| |done]. by apply Nat.leb_le in Hl.
Qed.

(** The last step: what has been trimmed is cut to the cap. *)
Lemma sanitizeInput_cut s o :
  exists x,
    sanitizeInput s o
    = match maxLength o with
      | Some (S n) =>
          if (S n <? length x)%nat then JsString.substring0 (S n) x else x
      | _ => x
      end.
Proof. unfold sanitizeInput. eexists. reflexivity. Qed.

Lemma sanitizeInput_fits s o :
  match maxLength o with
  | Some (S n) => (length (sanitizeInput s o) <= S n)%nat
  | _ => True
  end.
Proof.
  destruct (sanitizeInput_cut s o) as [x ->].
  destruct (maxLength o) as [[|n]|]; [exact I| |exact I].
  destruct (S n <? length x)%nat eqn:E.
  - unfold JsString.substring0. rewrite length_take. lia.
  - apply Nat.ltb_ge in E. lia.
Qed.

Lemma sanitizeInput_twice_on_bracket :
  let o := Options false None false in
  sanitizeInput (js "[") o = js "[BLOCKED]" /\
  sanitizeInput (sanitizeInput (js "[") o) o = js "[BLOCKED]BLOCKED[BLOCKED]".
Proof. vm_compute. split; reflexivity. Qed.

End SanitizeFacts.

(** ** The rate limiters *)

Module RateLimitFacts.
Import RateLimit.
Open Scope Z_scope.

Lemma cleanup_lookup now s k : cleanup now s !! k = live now s k.
Proof.
  unfold cleanup, live. destruct (s !! k) as [e|] eqn:E.
  - destruct (resetTime e <? now) eqn:Hx.
    + apply Z.ltb_lt in Hx. apply map_lookup_filter_None. right.
      intros e' He'. cbn. rewrite E in He'. injection He' as <-. tauto.
    + apply Z.ltb_ge in Hx. apply map_lookup_filter_Some. split; [done|].
      cbn. lia.
  - apply map_lookup_filter_None. by left.
Qed.

Lemma live_swept now s k (b : bool) :
  live now (if b then cleanup now s else s) k = live now s k.
Proof.
  destruct b; [|done]. unfold live at 1. rewrite cleanup_lookup.
  unfold live. destruct (s !! k) as [e|]; [|done].
  destruct (resetTime e <? now) eqn:Hx; [done|]. by rewrite Hx.
Qed.

(** The two limiters decide alike: reading the entry before or after
    the sweep makes no difference. *)
Lemma checkRateLimit_check_key k t s :
  checkRateLimit k t s
  = check_key k t RATE_LIMIT_MAX_REQUESTS RATE_LIMIT_WINDOW_MS s.
Proof.
  unfold checkRateLimit, check_key. destruct (sweep t); [|done].
  rewrite cleanup_lookup. unfold live.
  destruct (s !! k) as [e|]; [|done].
  destruct (resetTime e <? now t) eqn:Hx; [|done].
  unfold decide_entry. by rewrite Hx.
Qed.

Lemma check_key_result k t L w s :
  fst (check_key k t L w s) = fst (verdict (live (now t) s k) (now t) L w).
Proof.
  unfold check_key. set (s' := if sweep t then _ else s).
  assert (Hl : live (now t) s' k = live (now t) s k) by apply live_swept.
  rewrite <- Hl. unfold live, decide_entry, verdict.
  destruct (s' !! k) as [e|]; [|done].
  destruct (resetTime e <? now t); [done|].
  by destruct (L <=? count e).
Qed.

Lemma check_key_stored k t L w s :
  snd (check_key k t L w s) !! k
  = Some (snd (verdict (live (now t) s k) (now t) L w)).
Proof.
  unfold check_key. set (s' := if sweep t then _ else s).
  assert (Hl : live (now t) s' k = live (now t) s k) by apply live_swept.
  rewrite <- Hl. unfold live, decide_entry, verdict.
  destruct (s' !! k) as [e|] eqn:E; cbn [snd].
  - destruct (resetTime e <? now t) eqn:Hx; cbn [snd].
    + by rewrite lookup_insert_eq.
    + destruct (L <=? count e); cbn [snd]; [done|].
      rewrite lookup_alter_eq, E. done.
  - by rewrite lookup_insert_eq.
Qed.

(** A check leaves the open windows of the other keys as they are. *)
Lemma check_key_other k k' t L w s e :
  k <> k' -> s !! k' = Some e -> resetTime e >= now t ->
  snd (check_key k t L w s) !! k' = Some e.
Proof.
  intros Hk He Hr. unfold check_key. set (s' := if sweep t then _ else s).
  assert (He' : s' !! k' = Some e).
  { subst s'. destruct (sweep t); [|done]. rewrite cleanup_lookup.
    unfold live. rewrite He.
    destruct (resetTime e <? now t) eqn:Hx; [apply Z.ltb_lt in Hx; lia | done]. }
  unfold decide_entry. destruct (s' !! k) as [e0|].
  - destruct (resetTime e0 <? now t); cbn [snd].
    + by rewrite lookup_insert_ne.
    + destruct (L <=? count e0); cbn [snd]; [done|].
      by rewrite lookup_alter_ne.
  - cbn [snd]. by rewrite lookup_insert_ne.
Qed.

Lemma checks_in_window k L w ts : forall s c reset,
  s !! k = Some (Entry c reset) ->
  Forall (fun t => now t <= reset) ts ->
  fst (checks k L w ts s) = answers L reset c (length ts)
  /\ exists c', snd (checks k L w ts s) !! k = Some (Entry c' reset).
Proof.
  induction ts as [|t ts IH]; intros s c reset Hs Hts; cbn [checks answers length].
  - split; [done|]. by exists c.
  - apply Forall_cons in Hts as [Ht Hts].
    pose proof (check_key_result k t L w s) as Hr.
    pose proof (check_key_stored k t L w s) as Hst.
    assert (Hl : live (now t) s k = Some (Entry c reset)).
    { unfold live. rewrite Hs. cbn.
      destruct (reset <? now t) eqn:Hx; [apply Z.ltb_lt in Hx; lia | done]. }
    rewrite Hl in Hr, Hst. cbn [verdict count resetTime] in Hr, Hst.
    destruct (check_key k t L w s) as [r s1]. cbn [fst snd] in Hr, Hst.
    assert (Hs1 : s1 !! k = Some (Entry (if L <=? c then c else c + 1) reset)).
    { rewrite Hst. by destruct (L <=? c). }
    destruct (IH s1 _ _ Hs1 Hts) as [IH1 IH2].
    destruct (checks k L w ts s1) as [rs s2]. cbn [fst snd] in *.
    split; [|done]. rewrite Hr, IH1. by destruct (L <=? c).
Qed.

Lemma answers_lookup L reset : forall n c i,
  (i < n)%nat -> 1 <= c ->
  answers L reset c n !! i
  = Some (if c + Z.of_nat i <? L
          then Result true (L - (c + Z.of_nat i + 1)) reset
          else Result false 0 reset).
Proof.
  induction n as [|n IH]; intros c i Hi Hc; [lia|].
  cbn [answers]. destruct i as [|i].
  - cbn. rewrite Z.add_0_r.
    destruct (L <=? c) eqn:E1, (c <? L) eqn:E2; try done; lia.
  - cbn [lookup list_lookup]. rewrite IH by (try lia; destruct (L <=? c); lia).
    destruct (L <=? c) eqn:E1.
    + apply Z.leb_le in E1.
      destruct (c + Z.of_nat i <? L) eqn:E2; [apply Z.ltb_lt in E2; lia|].
      destruct (c + Z.of_nat (S i) <? L) eqn:E3; [apply Z.ltb_lt in E3; lia|done].
    + replace (c + 1 + Z.of_nat i) with (c + Z.of_nat (S i)) by lia. done.
Qed.

End RateLimitFacts.

(** ** The routes *)

Module RouteFacts.
Import Json RateLimit.

Lemma caught_status dev msg e : status (ErrorHandler.caught dev msg e) = 500%Z.
Proof. reflexivity. Qed.

Lemma respond_ok n b : n <> 200%Z -> limited_ok (respond n b).
Proof. intros Hn Hs. cbn in Hs. congruence. Qed.

Lemma with_headers_ok n b rl : limited_ok (Response n b (rate_headers rl)).
Proof. intros _. unfold Server.has_rate_headers, rate_headers. cbn. eauto. Qed.

Lemma settle_ok dev msg m : flow_ok m -> limited_ok (settle dev msg m).
Proof.
  destruct m as [r|r|e]; cbn; try done.
Qed.

Lemma rethrow_ok prefix (m : flow response) : flow_ok m -> flow_ok (rethrow prefix m).
Proof. by destruct m. Qed.

Lemma bind_ok {A} (m : flow A) (k : A -> flow response) :
  no_return m -> (forall a, flow_ok (k a)) -> flow_ok (m ≫= k).
Proof. destruct m; cbn; naive_solver. Qed.

Lemma bind_no_return {A B} (m : flow A) (k : A -> flow B) :
  no_return m -> (forall a, no_return (k a)) -> no_return (m ≫= k).
Proof. destruct m; cbn; naive_solver. Qed.

Lemma flow_map_no_return {A B} (f : nat -> A -> flow B) l : forall i,
  (forall i x, no_return (f i x)) -> no_return (flow_map f i l).
Proof.
  induction l as [|x l IH]; intros i Hf; cbn [flow_map]; [done|].
  apply bind_no_return; [apply Hf|]. intros y.
  apply bind_no_return; [by apply IH|]. done.
Qed.

Lemma prop_no_return v k : no_return (prop v k).
Proof. by destruct v. Qed.

Lemma format_item_no_return incl index item :
  no_return (McqRoute.format_item incl index item).
Proof.
  unfold McqRoute.format_item, throw_if.
  apply bind_no_return; [apply prop_no_return|]. intros q.
  case_match; [done|].
  apply bind_no_return; [by repeat case_match|]. intros options.
  apply bind_no_return; [by repeat case_match|]. intros correct.
  apply bind_no_return; [by repeat case_match|]. done.
Qed.

Lemma to_card_no_return i item : no_return (FlashcardsRoute.to_card i item).
Proof.
  unfold FlashcardsRoute.to_card.
  apply bind_no_return; [apply prop_no_return|]. done.
Qed.

Ltac leaf :=
  first [ exact I
        | apply with_headers_ok
        | apply respond_ok; discriminate
        | apply bind_ok;
          [ apply flow_map_no_return; intros;
            first [ apply format_item_no_return | apply to_card_no_return ]
          | intros; apply with_headers_ok ] ].

Lemma mcq_interpret_ok incl n txt rl v :
  flow_ok (McqRoute.interpret incl n txt rl v).
Proof.
  unfold McqRoute.interpret, McqRoute.success.
  apply bind_ok; [apply prop_no_return|]. intros st.
  repeat (case_match; cbn [flow_ok]; try leaf).
Qed.

Lemma flashcards_interpret_ok lvl txt rl v :
  flow_ok (FlashcardsRoute.interpret lvl txt rl v).
Proof.
  unfold FlashcardsRoute.interpret.
  apply bind_ok; [apply prop_no_return|]. intros st.
  repeat first
    [ leaf
    | apply bind_ok;
      [ apply flow_map_no_return; intros; apply to_card_no_return | intros mapped ]
    | case_match ].
Qed.

Lemma concept_interpret_ok rl v :
  flow_ok (ConceptBoosterRoute.interpret rl v).
Proof.
  unfold ConceptBoosterRoute.interpret.
  apply bind_ok; [apply prop_no_return|]. intros st.
  repeat (case_match; cbn [flow_ok]; try leaf).
Qed.

Lemma finish_shape (interpret : value -> flow response) prefix llm :
  (forall v, flow_ok (interpret v)) ->
  flow_ok (parsed ← received llm;
           rethrow prefix (parsedResponse ← json_parse parsed; interpret parsedResponse)).
Proof.
  intros H. destruct llm as [e|raw p]; cbn; [done|].
  destruct (nonempty raw); cbn; [|done].
  destruct p as [e|v]; cbn; [done|]. apply rethrow_ok, H.
Qed.

End RouteFacts.

(** ** The handlers *)

Module HandlerFacts.
Import Json RateLimit RouteFacts.

Lemma mcq_POST_ok e t req llm : limited_ok (reply (McqRoute.POST e t req llm)).
Proof.
  unfold McqRoute.POST. destruct (McqRoute.prepare e t req) as [p|r|err] eqn:E;
    cbn [reply].
  - apply settle_ok, finish_shape. intros v. apply mcq_interpret_ok.
  - unfold McqRoute.prepare in E.
    repeat (case_match; try discriminate); injection E as <-;
      apply respond_ok; discriminate.
  - intros Hs. cbn in Hs. discriminate.
Qed.

(** The limiter the mcq route asks for is new for each request, so it
    finds no entry and allows the request. *)
Lemma getRateLimiter_check_allows {B} (req : request B) t L w :
  getRateLimiter_check req t L w = Result true (L - 1) (now t + w).
Proof.
  unfold getRateLimiter_check, check.
  rewrite RateLimitFacts.check_key_result. unfold live.
  by rewrite lookup_empty.
Qed.

Lemma flashcards_prepare_ok e t req s :
  snd (FlashcardsRoute.prepare e t req s)
  = snd (checkRateLimit (FlashcardsRoute.getRateLimitKey req) t s)
  /\ match fst (FlashcardsRoute.prepare e t req s) with
     | Go p => FlashcardsRoute.rateLimit p
               = fst (checkRateLimit (FlashcardsRoute.getRateLimitKey req) t s)
     | Return r =>
         status r <> 200%Z /\
         (allowed (fst (checkRateLimit (FlashcardsRoute.getRateLimitKey req) t s)) = false ->
          status r = 429%Z)
     | Throw _ => False
     end.
Proof.
  unfold FlashcardsRoute.prepare.
  destruct (checkRateLimit _ t s) as [rl s']. cbn [fst snd]. split; [done|].
  destruct (allowed rl); cbn [negb].
  - repeat case_match; simplify_eq/=; try done; split; (discriminate || done).
  - cbn. split; [discriminate | done].
Qed.

Lemma concept_prepare_ok e t req s :
  snd (ConceptBoosterRoute.prepare e t req s)
  = snd (checkRateLimit (ConceptBoosterRoute.getRateLimitKey req) t s)
  /\ match fst (ConceptBoosterRoute.prepare e t req s) with
     | Go p => ConceptBoosterRoute.rateLimit p
               = fst (checkRateLimit (ConceptBoosterRoute.getRateLimitKey req) t s)
     | Return r =>
         status r <> 200%Z /\
         (allowed (fst (checkRateLimit (ConceptBoosterRoute.getRateLimitKey req) t s)) = false ->
          status r = 429%Z)
     | Throw _ => False
     end.
Proof.
  unfold ConceptBoosterRoute.prepare.
  destruct (checkRateLimit _ t s) as [rl s']. cbn [fst snd]. split; [done|].
  destruct (allowed rl); cbn [negb].
  - repeat case_match; simplify_eq/=; try done; split; (discriminate || done).
  - cbn. split; [discriminate | done].
Qed.

Lemma flashcards_POST_store e t req llm s :
  snd (FlashcardsRoute.POST e t req llm s)
  = snd (checkRateLimit (FlashcardsRoute.getRateLimitKey req) t s).
Proof.
  unfold FlashcardsRoute.POST.
  pose proof (flashcards_prepare_ok e t req s) as [H _].
  by destruct (FlashcardsRoute.prepare e t req s).
Qed.

Lemma concept_POST_store e t req llm s :
  snd (ConceptBoosterRoute.POST e t req llm s)
  = snd (checkRateLimit (ConceptBoosterRoute.getRateLimitKey req) t s).
Proof.
  unfold ConceptBoosterRoute.POST.
  pose proof (concept_prepare_ok e t req s) as [H _].
  by destruct (ConceptBoosterRoute.prepare e t req s).
Qed.

Lemma flashcards_POST_denied e t req llm s :
  allowed (fst (checkRateLimit (FlashcardsRoute.getRateLimitKey req) t s)) = false ->
  status (reply (fst (FlashcardsRoute.POST e t req llm s))) = 429%Z.
Proof.
  intros Hd. unfold FlashcardsRoute.POST, FlashcardsRoute.prepare.
  destruct (checkRateLimit _ t s) as [rl s']. cbn [fst] in Hd. by rewrite Hd.
Qed.

Lemma concept_POST_denied e t req llm s :
  allowed (fst (checkRateLimit (ConceptBoosterRoute.getRateLimitKey req) t s)) = false ->
  status (reply (fst (ConceptBoosterRoute.POST e t req llm s))) = 429%Z.
Proof.
  intros Hd. unfold ConceptBoosterRoute.POST, ConceptBoosterRoute.prepare.
  destruct (checkRateLimit _ t s) as [rl s']. cbn [fst] in Hd. by rewrite Hd.
Qed.

Lemma flashcards_POST_ok e t req llm s :
  limited_ok (reply (fst (FlashcardsRoute.POST e t req llm s))).
Proof.
  unfold FlashcardsRoute.POST.
  pose proof (flashcards_prepare_ok e t req s) as [_ H].
  destruct (FlashcardsRoute.prepare e t req s) as [[p|r|err] s']; cbn [fst snd reply] in *.
  - apply settle_ok, finish_shape. intros v. apply flashcards_interpret_ok.
  - intros Hs. by destruct H.
  - done.
Qed.

Lemma concept_POST_ok e t req llm s :
  limited_ok (reply (fst (ConceptBoosterRoute.POST e t req llm s))).
Proof.
  unfold ConceptBoosterRoute.POST.
  pose proof (concept_prepare_ok e t req s) as [_ H].
  destruct (ConceptBoosterRoute.prepare e t req s) as [[p|r|err] s']; cbn [fst snd reply] in *.
  - apply settle_ok, finish_shape. intros v. apply concept_interpret_ok.
  - intros Hs. by destruct H.
  - done.
Qed.

End HandlerFacts.

(** ** The server *)

Module ServerFacts.
Import RateLimit RateLimitFacts HandlerFacts Server.
Open Scope Z_scope.

Lemma run_app e l1 l2 st :
  run e (l1 ++ l2) st
  = (fst (run e l1 st) ++ fst (run e l2 (snd (run e l1 st))),
     snd (run e l2 (snd (run e l1 st)))).
Proof.
  revert st. induction l1 as [|[[t c] llm] l1 IH]; intros st; cbn [run app fst snd].
  - by destruct (run e l2 st).
  - destruct (handle e t c llm st) as [o st1]. rewrite IH.
    destruct (run e l1 st1) as [os st2]. cbn [fst snd].
    by destruct (run e l2 st2).
Qed.

(** The store [ep] after a call: the check of the key when the call
    counts there, untouched otherwise. *)
Lemma handle_store e t c llm st ep :
  store_of ep (snd (handle e t c llm st))
  = match ep, c with
    | OnFlashcards, Flashcards req =>
        snd (checkRateLimit (FlashcardsRoute.getRateLimitKey req) t (store_of ep st))
    | OnConceptBooster, ConceptBooster req =>
        snd (checkRateLimit (ConceptBoosterRoute.getRateLimitKey req) t (store_of ep st))
    | _, _ => store_of ep st
    end.
Proof.
  destruct c as [req|req|req|req]; cbn [handle].
  - by destruct ep.
  - by destruct ep.
  - pose proof (flashcards_POST_store e t req llm (flashcards_store st)) as H.
    destruct (FlashcardsRoute.POST e t req llm (flashcards_store st)) as [o s].
    destruct ep; cbn [snd store_of flashcards_store concept_store] in *; done.
  - pose proof (concept_POST_store e t req llm (concept_store st)) as H.
    destruct (ConceptBoosterRoute.POST e t req llm (concept_store st)) as [o s].
    destruct ep; cbn [snd store_of flashcards_store concept_store] in *; done.
Qed.

(** A call that counts under a key whose check denies is answered 429. *)
Lemma handle_denied e t c llm st ep k :
  hit ep k c = true ->
  allowed (fst (checkRateLimit k t (store_of ep st))) = false ->
  status (reply (fst (handle e t c llm st))) = 429.
Proof.
  intros Hh Hd. destruct ep, c as [req|req|req|req]; cbn [hit] in Hh; try discriminate;
    apply bool_decide_eq_true in Hh; subst k; cbn [handle store_of] in *.
  - pose proof (flashcards_POST_denied e t req llm _ Hd) as H.
    by destruct (FlashcardsRoute.POST e t req llm (flashcards_store st)).
  - pose proof (concept_POST_denied e t req llm _ Hd) as H.
    by destruct (ConceptBoosterRoute.POST e t req llm (concept_store st)).
Qed.

Lemma checkRateLimit_open k t s c reset :
  s !! k = Some (Entry c reset) -> now t <= reset ->
  fst (checkRateLimit k t s)
  = (if 10 <=? c then Result false 0 reset else Result true (10 - (c + 1)) reset)
  /\ snd (checkRateLimit k t s) !! k
     = Some (Entry (if 10 <=? c then c else c + 1) reset).
Proof.
  intros Hs Ht. rewrite checkRateLimit_check_key.
  rewrite check_key_result, check_key_stored.
  unfold live. rewrite Hs. cbn [resetTime].
  destruct (reset <? now t) eqn:Hx; [apply Z.ltb_lt in Hx; lia|].
  unfold verdict, RATE_LIMIT_MAX_REQUESTS. cbn [count resetTime].
  by destruct (10 <=? c).
Qed.

Lemma checkRateLimit_fresh k t s :
  live (now t) s k = None ->
  fst (checkRateLimit k t s) = Result true 9 (now t + 60000)
  /\ snd (checkRateLimit k t s) !! k = Some (Entry 1 (now t + 60000)).
Proof.
  intros Hl. rewrite checkRateLimit_check_key.
  rewrite check_key_result, check_key_stored, Hl. done.
Qed.

(** While its window is open the count of a key only grows, by one for
    each call that counts, up to the ceiling. *)
Lemma handle_counts e t c llm st ep k cnt reset :
  store_of ep st !! k = Some (Entry cnt reset) -> now t <= reset ->
  exists cnt',
    store_of ep (snd (handle e t c llm st)) !! k = Some (Entry cnt' reset)
    /\ Z.min (cnt + (if hit ep k c then 1 else 0)) 10 <= cnt'.
Proof.
  intros Hs Ht. rewrite handle_store.
  assert (Hcheck : forall k',
    exists cnt', snd (checkRateLimit k' t (store_of ep st)) !! k = Some (Entry cnt' reset)
      /\ Z.min (cnt + (if bool_decide (k' = k) then 1 else 0)) 10 <= cnt').
  { intros k'. case_bool_decide as Hk.
    - subst k'. destruct (checkRateLimit_open k t _ _ _ Hs Ht) as [_ H].
      eexists. split; [exact H|]. destruct (10 <=? cnt) eqn:E; lia.
    - exists cnt. split; [|lia]. rewrite checkRateLimit_check_key.
      apply check_key_other; [done|done|cbn; lia]. }
  destruct ep, c as [req|req|req|req]; cbn [hit]; try apply Hcheck;
    exists cnt; (split; [done|lia]).
Qed.

Lemma run_counts e ep k reset calls : forall st cnt,
  store_of ep st !! k = Some (Entry cnt reset) ->
  Forall (fun x => now (fst (fst x)) <= reset) calls ->
  exists cnt',
    store_of ep (snd (run e calls st)) !! k = Some (Entry cnt' reset)
    /\ Z.min (cnt + Z.of_nat (hits ep k calls)) 10 <= cnt'.
Proof.
  induction calls as [|[[t c] llm] calls IH]; intros st cnt Hs Hts.
  - exists cnt. split; [done|]. cbn. lia.
  - apply Forall_cons in Hts as [Ht Hts]. cbn [fst] in Ht.
    destruct (handle_counts e t c llm st ep k cnt reset Hs Ht) as (c1 & Hs1 & Hc1).
    cbn [run]. destruct (handle e t c llm st) as [o st1]. cbn [snd] in Hs1.
    destruct (IH st1 c1 Hs1 Hts) as (c2 & Hs2 & Hc2).
    destruct (run e calls st1) as [os st2]. cbn [snd] in *.
    exists c2. split; [done|].
    unfold hits in *. cbn [List.filter fst snd].
    destruct (hit ep k c); cbn [length]; lia.
Qed.

End ServerFacts.

(** ** The parsers of the mcq and flashcards routes *)

Module ParserFacts.
Import Json RouteFacts.

Lemma violation_throws incl index item :
  McqRoute.meets_invariants item = false ->
  exists err, McqRoute.format_item incl index item = Throw err.
Proof.
  unfold McqRoute.meets_invariants, McqRoute.format_item, throw_if.
  destruct item as [|b|n|s|l|fields]; cbn [prop field mbind flow_mbind flow_bind];
    try (intros _; eexists; reflexivity).
  set (q := lookup_field (js "question") fields).
  set (o := lookup_field (js "options") fields).
  set (c := lookup_field (js "correct") fields).
  intros H.
  destruct (truthy q) eqn:Hq; cbn [andb negb] in H.
  - assert (Hq' : truthy (Some (or_else q (Str []))) = true).
    { destruct q as [v|]; [|done]. unfold or_else. by rewrite Hq. }
    rewrite Hq'. cbn [negb].
    destruct o as [[| | | |l|]|]; try (eexists; reflexivity).
    destruct (length l =? 4)%nat; [|eexists; reflexivity].
    cbn [andb mbind flow_mbind flow_bind] in *.
    destruct c as [[|b|n|s|l'|f]|]; cbn [or_else truthy];
      try (eexists; reflexivity).
    + destruct b; eexists; reflexivity.
    + destruct (negb (n =? 0)%Z); eexists; reflexivity.
    + destruct s as [|u s]; [eexists; reflexivity|]. rewrite H.
      eexists; reflexivity.
  - assert (Hq' : truthy (Some (or_else q (Str []))) = false).
    { destruct q as [v|]; [|done]. unfold or_else. by rewrite Hq. }
    rewrite Hq'. eexists; reflexivity.
Qed.

(** One throwing item makes the whole [map] throw. *)
Lemma flow_map_throws {A B} (f : nat -> A -> flow B) l : forall i,
  (forall i x, no_return (f i x)) ->
  Exists (fun x => forall i, exists err, f i x = Throw err) l ->
  exists err, flow_map f i l = Throw err.
Proof.
  induction l as [|x l IH]; intros i Hf Hex; [by apply Exists_nil in Hex|].
  cbn [flow_map]. apply Exists_cons in Hex as [Hx|Hl].
  - destruct (Hx i) as [err ->]. by exists err.
  - pose proof (Hf i x) as Hn. destruct (f i x) as [y|r|err]; [|done|by exists err].
    cbn [mbind flow_mbind flow_bind].
    destruct (IH (S i) Hf Hl) as [err ->]. by exists err.
Qed.


End ParserFacts.

(** ** The replacer of [logError] *)

Module LogFacts.
Import Json ErrorHandler.

Lemma stringify_obj key fields :
  stringify_with key (Obj fields)
  = Obj (List.map (fun kv => (fst kv, stringify_with (fst kv) (snd kv))) fields).
Proof.
  cbn [stringify_with]. f_equal.
  induction fields as [|[k x] fields IH]; [done|]. cbn [List.map fst snd].
  by rewrite <- IH.
Qed.

Lemma stringify_arr key items :
  stringify_with key (Arr items)
  = Arr (imap (fun i x => stringify_with (JsString.of_N (N.of_nat i)) x) items).
Proof.
  cbn [stringify_with]. f_equal.
  change 0%N with (N.of_nat 0).
  change (imap (fun i x => stringify_with (JsString.of_N (N.of_nat i)) x) items)
    with (imap (fun i x => stringify_with (JsString.of_N (N.of_nat (0 + i))) x) items).
  generalize 0%nat. induction items as [|x items IH]; intros n; [done|].
  cbn [imap]. rewrite Nat.add_0_r. f_equal.
  replace (N.of_nat n + 1)%N with (N.of_nat (S n)) by lia.
  rewrite IH. apply imap_ext. intros i y _. cbn [compose].
  by replace (S n + i)%nat with (n + S i)%nat by lia.
Qed.

Lemma lookup_field_stringify k fields :
  lookup_field k (List.map (fun kv => (fst kv, stringify_with (fst kv) (snd kv))) fields)
  = option_map (stringify_with k) (lookup_field k fields).
Proof.
  unfold lookup_field.
  induction fields as [|[k' x] fields IH]; [done|]. cbn [List.map List.find fst snd].
  destruct (JsString.eqb k' k) eqn:E; [|exact IH].
  apply JsStringFacts.eqb_eq in E. by subst k'.
Qed.

Lemma final_key_cons key s p : final_key key (s :: p) = final_key (step_name s) p.
Proof.
  unfold final_key. destruct p as [|s' p]; [done|]. cbn [last].
  assert (H : forall (q : list step) a, last (a :: q) <> None).
  { induction q as [|b q IH]; intros a; [done|]. apply IH. }
  specialize (H p s'). by destruct (last (s' :: p)).
Qed.

(** What the serialiser emits at a path is the value there, passed
    through the replacer under its own name. *)
Lemma at_path_stringify p : forall key v x,
  at_path v p = Some x ->
  at_path (stringify_with key v) p = Some (stringify_with (final_key key p) x).
Proof.
  induction p as [|s p IH]; intros key v x Hx.
  - cbn in Hx. injection Hx as ->. done.
  - rewrite final_key_cons. destruct s as [k|i]; cbn [at_path] in Hx.
    + destruct v as [| | | | |fields]; try discriminate.
      rewrite stringify_obj. cbn [at_path]. rewrite lookup_field_stringify.
      destruct (lookup_field k fields) as [y|]; [|discriminate].
      cbn [option_map]. by apply IH.
    + destruct v as [| | | |items|]; try discriminate.
      rewrite stringify_arr. cbn [at_path]. rewrite list_lookup_imap.
      destruct (items !! i) as [y|]; [|discriminate].
      cbn [fmap option_fmap option_map]. by apply IH.
Qed.

End LogFacts.

(** Defaulting a missing error code does not make it the code tested for. *)
Lemma error_code_test (ec : Json.jsval) :
  Json.is_str (Some (Json.or_else ec (Json.Str (js "UNKNOWN_ERROR"))))
    "INSUFFICIENT_CONTEXT"
  = Json.is_str ec "INSUFFICIENT_CONTEXT".
Proof.
  destruct ec as [[|b|n|c|l|f]|]; try reflexivity.
  - by destruct b.
  - unfold Json.or_else, Json.truthy. by destruct (negb (n =? 0)%Z).
  - by destruct c.
Qed.

(* ===================================================================== *)
(** * The claims *)
(* ===================================================================== *)

Import RateLimit.
Open Scope Z_scope.

(** C1 (as amended).  When the reply of the model parses to an object
    whose [status] is ["ERROR"]: the mcq route answers 400 if the
    [error_code] is ["INSUFFICIENT_CONTEXT"] and 500 for any other
    [error_code], with the [error_code] (["UNKNOWN_ERROR"] when it is
    missing or falsy) and the [message] of the reply (a default text when
    it is missing or empty); the flashcards and concept-booster routes
    answer 400 whatever the [error_code], with the [error_code] and the
    [message] of the reply (or their default text). *)
Theorem llm_error_reply_status (e : environment) (t : tick)
    (raw : jsstring) (fields : list (jsstring * Json.value)) :
  raw <> [] ->
  Json.lookup_field (js "status") fields = Some (Json.Str (js "ERROR")) ->
  let llm := Content (Some raw) (inr (Json.Obj fields)) in
  let error_code := Json.lookup_field (js "error_code") fields in
  let message default :=
    Json.or_else (Json.lookup_field (js "message") fields) (Json.Str (js default)) in
  (forall req p, McqRoute.prepare e t req = Go p ->
     reply (McqRoute.POST e t req llm)
     = respond (if Json.is_str error_code "INSUFFICIENT_CONTEXT" then 400 else 500)
         (Json.object
            [("error", Some (message "Failed to generate MCQs"));
             ("error_code",
              Some (Json.or_else error_code (Json.Str (js "UNKNOWN_ERROR"))))]))
  /\ (forall req s p, fst (FlashcardsRoute.prepare e t req s) = Go p ->
        reply (fst (FlashcardsRoute.POST e t req llm s))
        = respond 400
            (Json.object
               [("error", Some (message "Failed to generate flashcards"));
                ("error_code", error_code)]))
  /\ (forall req s p, fst (ConceptBoosterRoute.prepare e t req s) = Go p ->
        reply (fst (ConceptBoosterRoute.POST e t req llm s))
        = respond 400
            (Json.object
               [("error", Some (message "Failed to generate content"));
                ("error_code", error_code)])).
Proof.
  intros Hraw Hst. cbn zeta.
  assert (Hne : nonempty (Some raw) = Some raw) by (by destruct raw).
  split; [|split].
  - intros req p Hp. unfold McqRoute.POST. rewrite Hp. cbn [reply].
    unfold McqRoute.finish, received. rewrite Hne.
    cbn [mbind flow_mbind flow_bind json_parse rethrow].
    unfold McqRoute.interpret.
    cbn [prop mbind flow_mbind flow_bind Json.field]. rewrite Hst.
    change (Json.is_str (Some (Json.Str (js "ERROR"))) "ERROR") with true.
    cbv iota. rewrite error_code_test.
    by destruct (Json.is_str (Json.lookup_field (js "error_code") fields) _).
  - intros req s p Hp. unfold FlashcardsRoute.POST.
    destruct (FlashcardsRoute.prepare e t req s) as [m s']. cbn [fst] in Hp. subst m.
    cbn [fst reply]. unfold FlashcardsRoute.finish, received. rewrite Hne.
    cbn [mbind flow_mbind flow_bind json_parse rethrow].
    unfold FlashcardsRoute.interpret.
    cbn [prop mbind flow_mbind flow_bind Json.field]. rewrite Hst.
    change (Json.is_str (Some (Json.Str (js "ERROR"))) "ERROR") with true.
    reflexivity.
  - intros req s p Hp. unfold ConceptBoosterRoute.POST.
    destruct (ConceptBoosterRoute.prepare e t req s) as [m s']. cbn [fst] in Hp. subst m.
    cbn [fst reply]. unfold ConceptBoosterRoute.finish, received. rewrite Hne.
    cbn [mbind flow_mbind flow_bind json_parse rethrow].
    unfold ConceptBoosterRoute.interpret.
    cbn [prop mbind flow_mbind flow_bind Json.field]. rewrite Hst.
    change (Json.is_str (Some (Json.Str (js "ERROR"))) "ERROR") with true.
    reflexivity.
Qed.

Lemma llm_error_reply_status_witness :
  let reply_text := js "{...}" in
  let fields :=
    [(js "status", Json.Str (js "ERROR"));
     (js "error_code", Json.Str (js "INSUFFICIENT_CONTEXT"));
     (js "message", Json.Str (js "text does not contain factual statements"))] in
  let t := Sample.at_ 1000 in
  let req := Sample.mcq_request None in
  reply_text <> []
  /\ Json.lookup_field (js "status") fields = Some (Json.Str (js "ERROR"))
  /\ (exists p, McqRoute.prepare Sample.env t req = Go p)
  /\ reply (McqRoute.POST Sample.env t req
              (Content (Some reply_text) (inr (Json.Obj fields))))
     = respond 400
         (Json.Obj
            [(js "error", Json.Str (js "text does not contain factual statements"));
             (js "error_code", Json.Str (js "INSUFFICIENT_CONTEXT"))]).
Proof.
  cbn zeta.
  assert (H1 : js "{...}" <> []) by discriminate.
  assert (H2 : Json.lookup_field (js "status")
                 [(js "status", Json.Str (js "ERROR"));
                  (js "error_code", Json.Str (js "INSUFFICIENT_CONTEXT"));
                  (js "message", Json.Str (js "text does not contain factual statements"))]
               = Some (Json.Str (js "ERROR"))) by reflexivity.
  destruct (McqRoute.prepare Sample.env (Sample.at_ 1000) (Sample.mcq_request None))
    as [p| |] eqn:Hp; try (vm_compute in Hp; discriminate).
  split; [exact H1|]. split; [exact H2|]. split; [by exists p|].
  exact (proj1 (llm_error_reply_status Sample.env (Sample.at_ 1000) _ _ H1 H2)
           (Sample.mcq_request None) p Hp).
Defined.

(** C1: the flashcards route answers a reply with status ["ERROR"] and an
    [error_code] other than ["INSUFFICIENT_CONTEXT"] with 400, not with a
    status of the 500 class. *)
Lemma flashcards_error_reply_is_400 :
  fst (FlashcardsRoute.POST Sample.env (Sample.at_ 1000)
         (Sample.flashcards_request None)
         (Sample.parses_to (Sample.error_reply "MODEL_OVERLOADED" "try later")) ∅)
  = Outcome
      (respond 400
         (Json.Obj [(js "error", Json.Str (js "try later"));
                    (js "error_code", Json.Str (js "MODEL_OVERLOADED"))]))
      (Some (Upstream (js "x-ai/grok-4.1-fast") (2 # 10))).
Proof. vm_compute. reflexivity. Qed.

(** C2 (as amended).  For a limit [L >= 1]: when the first of a run of
    checks of one key opens a window (the key has no live entry) and the
    later checks come before the window is over, check number [i]
    (counting from 0) is allowed exactly when [i < L], the allowed checks
    report [L - 1 - i] remaining, down to 0, the denied ones report 0, and
    all report the one [resetAt]; a check that comes after [resetAt] is
    allowed again and stores a fresh entry with count 1. *)
Theorem rate_limiter_window (k : jsstring) (L w : Z) (s : store) (t1 : tick)
    (ts : list tick) :
  1 <= L ->
  live (now t1) s k = None ->
  Forall (fun t => now t <= now t1 + w) ts ->
  (forall i, (i < S (length ts))%nat ->
     fst (checks k L w (t1 :: ts) s) !! i
     = Some (if Z.of_nat i <? L
             then Result true (L - 1 - Z.of_nat i) (now t1 + w)
             else Result false 0 (now t1 + w)))
  /\ (forall t', now t1 + w < now t' ->
        let after := snd (checks k L w (t1 :: ts) s) in
        fst (check_key k t' L w after) = Result true (L - 1) (now t' + w)
        /\ snd (check_key k t' L w after) !! k = Some (Entry 1 (now t' + w))).
Proof.
  intros HL Hfresh Hts. cbn [checks].
  pose proof (RateLimitFacts.check_key_result k t1 L w s) as Hr.
  pose proof (RateLimitFacts.check_key_stored k t1 L w s) as Hst.
  rewrite Hfresh in Hr, Hst. cbn [verdict fst snd] in Hr, Hst.
  destruct (check_key k t1 L w s) as [r s1]. cbn [fst snd] in Hr, Hst. subst r.
  destruct (RateLimitFacts.checks_in_window k L w ts s1 1 (now t1 + w) Hst Hts)
    as [Hrs [c' Hc']].
  destruct (checks k L w ts s1) as [rs s2]. cbn [fst snd] in *. split.
  - intros [|i] Hi.
    + cbn [lookup list_lookup]. change (Z.of_nat 0) with 0. rewrite Z.sub_0_r.
      destruct (0 <? L) eqn:E; [done | apply Z.ltb_ge in E; lia].
    + cbn [lookup list_lookup]. rewrite Hrs.
      rewrite RateLimitFacts.answers_lookup by lia.
      replace (1 + Z.of_nat i) with (Z.of_nat (S i)) by lia.
      destruct (Z.of_nat (S i) <? L); [|reflexivity].
      by replace (L - (Z.of_nat (S i) + 1)) with (L - 1 - Z.of_nat (S i)) by lia.
  - intros t' Ht'.
    assert (Hl : live (now t') s2 k = None).
    { unfold live. rewrite Hc'. cbn [resetTime].
      destruct (now t1 + w <? now t') eqn:E; [done | apply Z.ltb_ge in E; lia]. }
    cbn zeta. rewrite RateLimitFacts.check_key_result, RateLimitFacts.check_key_stored, Hl.
    done.
Qed.

Lemma rate_limiter_window_witness :
  let k := memory_key (Sample.mcq_request None) in
  let ts := [Sample.at_ 2000; Sample.at_ 3000; Sample.at_ 61000] in
  1 <= 2
  /\ live 1000 ∅ k = None
  /\ Forall (fun t => now t <= 1000 + 60000) ts
  /\ fst (checks k 2 60000 (Sample.at_ 1000 :: ts) ∅)
     = [Result true 1 61000; Result true 0 61000;
        Result false 0 61000; Result false 0 61000].
Proof.
  cbn zeta.
  pose proof (rate_limiter_window (memory_key (Sample.mcq_request None)) 2 60000 ∅
                (Sample.at_ 1000)
                [Sample.at_ 2000; Sample.at_ 3000; Sample.at_ 61000]) as H.
  assert (H1 : 1 <= 2) by lia.
  assert (H2 : live (now (Sample.at_ 1000)) ∅ (memory_key (Sample.mcq_request None)) = None)
    by reflexivity.
  assert (H3 : Forall (fun t => now t <= now (Sample.at_ 1000) + 60000)
                 [Sample.at_ 2000; Sample.at_ 3000; Sample.at_ 61000]).
  { repeat constructor; cbn; lia. }
  specialize (H H1 H2 H3). destruct H as [H _].
  split; [exact H1|]. split; [exact H2|]. split; [exact H3|].
  pose proof (H 0%nat ltac:(cbn; lia)) as A0.
  pose proof (H 1%nat ltac:(cbn; lia)) as A1.
  pose proof (H 2%nat ltac:(cbn; lia)) as A2.
  pose proof (H 3%nat ltac:(cbn; lia)) as A3.
  destruct (fst (checks _ 2 60000 _ ∅)) as [|r0 [|r1 [|r2 [|r3 [|r4 l]]]]] eqn:E;
    try discriminate.
  vm_compute in A0, A1, A2, A3. congruence.
Defined.

(** C2: with limit 0 the first check of a window is still allowed (and
    reports -1 remaining), so it is not the first [L] checks that pass. *)
Lemma limit_zero_first_call_allowed :
  fst (check (Sample.mcq_request None) (Sample.at_ 1000) 0 60000 ∅)
  = Result true (-1) 61000.
Proof. vm_compute. reflexivity. Qed.

(** C3 (as amended).  Whenever the first pass leaves a result in which
    none of the patterns of the pipeline is found and which has no white
    space at either end (it has none unless the length cap has cut the
    text there), a second pass returns that result as it is: applying
    [sanitizeInput] twice gives what applying it once gives. *)
Theorem sanitizeInput_idempotent_on_clean_output (o : Sanitize.options) (s : jsstring) :
  let once := Sanitize.sanitizeInput s o in
  forallb (Sanitize.absent once) (Sanitize.patterns o) = true ->
  JsString.trim once = once ->
  Sanitize.sanitizeInput once o = once.
Proof.
  cbn zeta. intros Hp Ht.
  apply SanitizeFacts.sanitizeInput_settled; [exact Hp|exact Ht|].
  apply SanitizeFacts.sanitizeInput_fits.
Qed.

Lemma sanitizeInput_idempotent_on_clean_output_witness :
  let o := Sanitize.Options false (Some McqRoute.MAX_TEXT_LENGTH) false in
  (Sanitize.sanitizeInput (js "<b>bold</b> text") o = js "bold text"
   /\ Sanitize.sanitizeInput (Sanitize.sanitizeInput (js "<b>bold</b> text") o) o
      = Sanitize.sanitizeInput (js "<b>bold</b> text") o)
  /\ (Sanitize.sanitizeInput (js "  hello  ") o = js "hello"
      /\ Sanitize.sanitizeInput (Sanitize.sanitizeInput (js "  hello  ") o) o
         = Sanitize.sanitizeInput (js "  hello  ") o).
Proof.
  cbn zeta. split; (split; [vm_compute; reflexivity|]).
  - apply (sanitizeInput_idempotent_on_clean_output
             (Sanitize.Options false (Some McqRoute.MAX_TEXT_LENGTH) false)
             (js "<b>bold</b> text")); vm_compute; reflexivity.
  - apply (sanitizeInput_idempotent_on_clean_output
             (Sanitize.Options false (Some McqRoute.MAX_TEXT_LENGTH) false)
             (js "  hello  ")); vm_compute; reflexivity.
Defined.

(** C3: a bracket comes out as the marker [[BLOCKED]], whose own brackets
    the second pass blocks again. *)
Lemma sanitizeInput_not_idempotent :
  let o := Sanitize.Options false None false in
  Sanitize.sanitizeInput (js "[") o = js "[BLOCKED]"
  /\ Sanitize.sanitizeInput (Sanitize.sanitizeInput (js "[") o) o
     = js "[BLOCKED]BLOCKED[BLOCKED]"
  /\ Sanitize.sanitizeInput (Sanitize.sanitizeInput (js "[") o) o
     <> Sanitize.sanitizeInput (js "[") o.
Proof. cbn zeta. vm_compute. repeat split; congruence. Qed.

(** Two more ways in which a first result still holds something for a
    second pass.  The zero-width characters are removed after the
    blocking steps, so a word they split is whole in the result, which
    [isInputSafe] refuses and a second pass blocks. *)
Lemma zero_width_joins_blocked_word :
  let o := Sanitize.Options false None false in
  let once := Sanitize.sanitizeInput (js "javas" ++ [8203%N] ++ js "cript:alert") o in
  once = js "javascript:alert"
  /\ InputCheck.isInputSafe once = false
  /\ Sanitize.sanitizeInput once o = js "[BLOCKED]alert".
Proof. cbn zeta. vm_compute. repeat split. Qed.

(** And the cap cuts after the trimming, so the cut can end on a space. *)
Lemma cut_ends_on_white_space :
  let o := Sanitize.Options false (Some 3%nat) false in
  let once := Sanitize.sanitizeInput (js "ab  cd") o in
  once = js "ab " /\ Sanitize.sanitizeInput once o = js "ab".
Proof. cbn zeta. vm_compute. repeat split. Qed.

(** C4 (as amended).  The flashcards and the concept-booster route each
    hold their clients to 10 requests per 60-second window: when a
    request of a client opens a window in the store of the route, and the
    requests that follow (to any route, from any client) come before the
    window is over, then once at least 9 more requests of that client to
    that route have followed the opening one, a further request of that
    client to that route is answered with status 429.  And every response
    with status 200 of the mcq, flashcards and concept-booster routes carries the
    [X-RateLimit-Remaining] and [X-RateLimit-Reset] headers. *)
Theorem limited_routes_ceiling (e : environment) (st : Server.state)
    (ep : Server.limited) (k : jsstring)
    (t1 : tick) (c1 : Server.call) (llm1 : completion)
    (mid : list (tick * Server.call * completion))
    (t : tick) (c : Server.call) (llm : completion) :
  Server.hit ep k c1 = true ->
  Server.hit ep k c = true ->
  live (now t1) (Server.store_of ep st) k = None ->
  Forall (fun x => now (fst (fst x)) <= now t1 + 60000) (mid ++ [(t, c, llm)]) ->
  (9 <= Server.hits ep k mid)%nat ->
  (exists r,
      Server.last_reply e ((t1, c1, llm1) :: mid ++ [(t, c, llm)]) st = Some r
      /\ status r = 429)
  /\ (forall t' c' llm' st',
        Server.counter_key c' <> None ->
        status (reply (fst (Server.handle e t' c' llm' st'))) = 200 ->
        Server.has_rate_headers (reply (fst (Server.handle e t' c' llm' st')))).
Proof.
  intros Hc1 Hc Hfresh Hts Hn. split.
  - apply Forall_app in Hts as [Hmid Hlast]. apply Forall_cons in Hlast as [Hlast _].
    cbn [fst] in Hlast.
    unfold Server.last_reply.
    change ((t1, c1, llm1) :: mid ++ [(t, c, llm)])
      with ([(t1, c1, llm1)] ++ (mid ++ [(t, c, llm)])).
    rewrite !ServerFacts.run_app. cbn [fst snd].
    set (st1 := snd (Server.run e [(t1, c1, llm1)] st)).
    set (st2 := snd (Server.run e mid st1)).
    assert (Hst1 : Server.store_of ep st1 !! k = Some (Entry 1 (now t1 + 60000))).
    { subst st1. cbn [Server.run].
      pose proof (ServerFacts.handle_store e t1 c1 llm1 st ep) as Hs.
      destruct (Server.handle e t1 c1 llm1 st) as [o1 s1]. cbn [snd] in *.
      rewrite Hs. clear Hs.
      destruct ep, c1 as [req|req|req|req]; cbn [Server.hit] in Hc1; try discriminate;
        apply bool_decide_eq_true in Hc1; subst k;
        by apply ServerFacts.checkRateLimit_fresh. }
    destruct (ServerFacts.run_counts e ep k (now t1 + 60000) mid st1 1 Hst1 Hmid)
      as (cnt & Hst2 & Hcnt).
    fold st2 in Hst2.
    assert (Hden : allowed (fst (checkRateLimit k t (Server.store_of ep st2))) = false).
    { destruct (ServerFacts.checkRateLimit_open k t _ _ _ Hst2 Hlast) as [-> _].
      destruct (10 <=? cnt) eqn:E; [done | apply Z.leb_gt in E; lia]. }
    pose proof (ServerFacts.handle_denied e t c llm st2 ep k Hc Hden) as H429.
    cbn [Server.run]. destruct (Server.handle e t c llm st2) as [o s3].
    cbn [fst snd reply] in *.
    exists (reply o). split; [|done].
    rewrite !app_assoc. by rewrite last_snoc.
  - intros t' c' llm' st' Hk.
    destruct c' as [req|req|req|req]; cbn [Server.handle Server.counter_key] in *.
    + done.
    + cbn [fst]. apply HandlerFacts.mcq_POST_ok.
    + pose proof (HandlerFacts.flashcards_POST_ok e t' req llm' (Server.flashcards_store st')) as H.
      by destruct (FlashcardsRoute.POST e t' req llm' (Server.flashcards_store st')).
    + pose proof (HandlerFacts.concept_POST_ok e t' req llm' (Server.concept_store st')) as H.
      by destruct (ConceptBoosterRoute.POST e t' req llm' (Server.concept_store st')).
Qed.

Lemma limited_routes_ceiling_witness :
  let k := FlashcardsRoute.getRateLimitKey (Sample.flashcards_request None) in
  let mid := Sample.flashcards_burst in
  Server.hit Server.OnFlashcards k (snd (fst (Sample.flashcards_call 1000))) = true
  /\ live 1000 (Server.store_of Server.OnFlashcards Sample.empty_state) k = None
  /\ Forall (fun x => now (fst (fst x)) <= 1000 + 60000)
       (mid ++ [Sample.flashcards_call 11000])
  /\ (9 <= Server.hits Server.OnFlashcards k mid)%nat
  /\ exists r,
       Server.last_reply Sample.env
         (Sample.flashcards_call 1000 :: mid ++ [Sample.flashcards_call 11000])
         Sample.empty_state = Some r
       /\ status r = 429.
Proof.
  cbn zeta.
  assert (H1 : Server.hit Server.OnFlashcards
                 (FlashcardsRoute.getRateLimitKey (Sample.flashcards_request None))
                 (snd (fst (Sample.flashcards_call 1000))) = true)
    by (vm_compute; reflexivity).
  assert (H2 : live 1000 (Server.store_of Server.OnFlashcards Sample.empty_state)
                 (FlashcardsRoute.getRateLimitKey (Sample.flashcards_request None)) = None)
    by reflexivity.
  assert (H3 : Forall (fun x => now (fst (fst x)) <= 1000 + 60000)
                 (Sample.flashcards_burst ++ [Sample.flashcards_call 11000]))
    by (repeat constructor; cbn; lia).
  assert (H4 : (9 <= Server.hits Server.OnFlashcards
                      (FlashcardsRoute.getRateLimitKey (Sample.flashcards_request None))
                      Sample.flashcards_burst)%nat)
    by (vm_compute; lia).
  repeat (split; [assumption|]).
  exact (proj1 (limited_routes_ceiling Sample.env Sample.empty_state Server.OnFlashcards
                  (FlashcardsRoute.getRateLimitKey (Sample.flashcards_request None))
                  (Sample.at_ 1000) _ _ _ (Sample.at_ 11000) _ _ H1 H1 H2 H3 H4)).
Defined.

(** C4: the format route has no limiter; the eleventh of eleven requests
    sent within a second is answered 200, and without rate-limit headers. *)
Lemma format_route_has_no_ceiling :
  Server.last_reply Sample.env Sample.format_burst Sample.empty_state
  = Some (Response 200
            (Json.Obj [(js "formatted", Json.Str (js "# Photosynthesis"))]) []).
Proof. vm_compute. reflexivity. Qed.

(** C5.  In the mcq route, when the reply of the model parses to an object
    with status ["OK"] and an array [mcqs] one item of which breaks an
    invariant (no question text, options that are not an array of exactly
    four, or a correct answer that is not A, B, C or D once upper-cased),
    the request fails: the response is a 500 with an error message and the
    code ["INTERNAL_ERROR"], and it has no [mcqs] property, so none of the
    valid items is returned. *)
Theorem mcq_batch_all_or_nothing (e : environment) (t : tick)
    (req : request McqRoute.MCQRequest) (p : McqRoute.prepared)
    (raw : jsstring) (fields : list (jsstring * Json.value))
    (items : list Json.value) :
  McqRoute.prepare e t req = Go p ->
  raw <> [] ->
  Json.lookup_field (js "status") fields = Some (Json.Str (js "OK")) ->
  Json.lookup_field (js "mcqs") fields = Some (Json.Arr items) ->
  Exists (fun item => McqRoute.meets_invariants item = false) items ->
  let r := reply (McqRoute.POST e t req (Content (Some raw) (inr (Json.Obj fields)))) in
  (exists msg,
      r = respond 500
            (Json.Obj [(js "error", Json.Str msg);
                       (js "code", Json.Str (js "INTERNAL_ERROR"))]))
  /\ Json.field "mcqs" (body r) = None.
Proof.
  intros Hp Hraw Hst Hm Hex. cbn zeta.
  assert (Hne : nonempty (Some raw) = Some raw) by (by destruct raw).
  assert (Hthrow : exists err,
    McqRoute.finish p (Content (Some raw) (inr (Json.Obj fields))) = Throw err).
  { unfold McqRoute.finish, received. rewrite Hne.
    cbn [mbind flow_mbind flow_bind json_parse].
    unfold McqRoute.interpret.
    cbn [prop mbind flow_mbind flow_bind Json.field]. rewrite Hst, Hm.
    change (Json.is_str (Some (Json.Str (js "OK"))) "ERROR") with false.
    change (Json.is_str (Some (Json.Str (js "OK"))) "OK") with true.
    cbv iota.
    destruct items as [|item items]; [by apply Exists_nil in Hex|].
    destruct (ParserFacts.flow_map_throws
                (fun _ => McqRoute.format_item (McqRoute.includeExplanations p) None)
                (item :: items) 0) as [err Herr].
    - intros i x. apply RouteFacts.format_item_no_return.
    - eapply Exists_impl; [exact Hex|]. intros x Hx i.
      by apply ParserFacts.violation_throws.
    - rewrite Herr. cbn. eauto. }
  destruct Hthrow as [err Herr].
  unfold McqRoute.POST. rewrite Hp, Herr. cbn [reply settle].
  split; [|reflexivity].
  eexists. reflexivity.
Qed.

Lemma mcq_batch_all_or_nothing_witness :
  let item (n : Z) (options : list string) :=
    Json.Obj [(js "id", Json.Num n); (js "question", Json.Str (js "What do plants convert?"));
              (js "options", Json.Arr (List.map (fun o => Json.Str (js o)) options));
              (js "correct", Json.Str (js "A"))] in
  let four := ["light"; "water"; "soil"; "air"]%list in
  let items := [item 1 four; item 2 four; item 3 ["light"; "water"; "soil"]%list;
                item 4 four; item 5 four] in
  let fields := [(js "status", Json.Str (js "OK")); (js "mcqs", Json.Arr items)] in
  Exists (fun item => McqRoute.meets_invariants item = false) items
  /\ reply (McqRoute.POST Sample.env (Sample.at_ 1000) (Sample.mcq_request None)
              (Content (Some (js "{...}")) (inr (Json.Obj fields))))
     = respond 500
         (Json.Obj [(js "error", Json.Str (js "Failed to generate MCQs. Please try again."));
                    (js "code", Json.Str (js "INTERNAL_ERROR"))]).
Proof.
  cbn zeta.
  match goal with |- Exists _ ?l /\ _ => set (items := l) end.
  assert (Hex : Exists (fun item => McqRoute.meets_invariants item = false) items).
  { subst items. do 2 apply Exists_cons_tl. apply Exists_cons_hd. reflexivity. }
  split; [exact Hex|].
  destruct (McqRoute.prepare Sample.env (Sample.at_ 1000) (Sample.mcq_request None))
    as [p| |] eqn:Hp; try (vm_compute in Hp; discriminate).
  destruct (mcq_batch_all_or_nothing Sample.env (Sample.at_ 1000)
              (Sample.mcq_request None) p (js "{...}")
              [(js "status", Json.Str (js "OK")); (js "mcqs", Json.Arr items)] items
              Hp ltac:(discriminate) eq_refl eq_refl Hex) as [[msg Hmsg] _].
  rewrite Hmsg. vm_compute in Hmsg. injection Hmsg as <-. reflexivity.
Defined.




(** C7.  The flashcards route passes on whatever truthy [type] an item
    carries: a card of type ["definition"] is returned in a 200 response
    whose three per-type counts are all 0 while [total_cards] is 1. *)
Lemma flashcard_type_not_validated :
  let item := Json.Obj [(js "id", Json.Num 1); (js "type", Json.Str (js "definition"));
                        (js "front", Json.Str (js "Q")); (js "back", Json.Str (js "A"))] in
  let fields := [(js "status", Json.Str (js "OK")); (js "flashcards", Json.Arr [item])] in
  let r := reply (fst (FlashcardsRoute.POST Sample.env (Sample.at_ 1000)
                         (Sample.flashcards_request None)
                         (Content (Some (js "{...}")) (inr (Json.Obj fields))) ∅)) in
  let metadata := Json.field "metadata" (body r) in
  status r = 200
  /\ Json.field "flashcards" (body r) = Some (Json.Arr [item])
  /\ chain metadata "total_cards" = Some (Json.Num 1)
  /\ chain metadata "concept_cards" = Some (Json.Num 0)
  /\ chain metadata "application_cards" = Some (Json.Num 0)
  /\ chain metadata "trick_cards" = Some (Json.Num 0).
Proof. cbn zeta. vm_compute. repeat split; reflexivity. Qed.

(** C8 (as amended).  No route checks the requested model against a list:
    whenever a route calls the model, the identifier it sends is the
    [model] field of the body as it stands if that field is present, not
    empty and not ["auto"], and is the identifier of the route's task
    configuration otherwise. *)
Theorem model_override_unchecked (e : environment) (t : tick)
    (llm : completion) (u : upstream) :
  let chosen (requested : option jsstring) (task : ModelRouter.TaskType) : Prop :=
    (forall m, requested = Some m -> m <> [] -> m <> js "auto" -> sent_model u = m)
    /\ (requested = None \/ requested = Some [] \/ requested = Some (js "auto") ->
        sent_model u = ModelRouter.model (ModelRouter.getModel e task)) in
  (forall req, sent (FormatRoute.POST e req llm) = Some u ->
     exists b, payload req = Some b
               /\ chosen (FormatRoute.model b) ModelRouter.formatter)
  /\ (forall req, sent (McqRoute.POST e t req llm) = Some u ->
        exists b, payload req = Some b
                  /\ chosen (McqRoute.model b) ModelRouter.mcqs)
  /\ (forall req s, sent (fst (FlashcardsRoute.POST e t req llm s)) = Some u ->
        exists b, payload req = Some b
                  /\ chosen (FlashcardsRoute.model b) ModelRouter.flashcards)
  /\ (forall req s, sent (fst (ConceptBoosterRoute.POST e t req llm s)) = Some u ->
        exists b, payload req = Some b
                  /\ chosen (ConceptBoosterRoute.model b) ModelRouter.concept_booster).
Proof.
  cbn zeta.
  assert (Hov : forall requested c,
    (forall m, requested = Some m -> m <> [] -> m <> js "auto" ->
       ModelRouter.model (ModelRouter.override requested c) = m)
    /\ (requested = None \/ requested = Some [] \/ requested = Some (js "auto") ->
        ModelRouter.model (ModelRouter.override requested c) = ModelRouter.model c)).
  { intros requested c. unfold ModelRouter.override. split.
    - intros m -> Hm Ha. destruct m as [|x m]; [done|]. cbn [nonempty].
      destruct (JsString.eqb (x :: m) (js "auto")) eqn:E; [|done].
      by apply JsStringFacts.eqb_eq in E.
    - intros [->|[->| ->]]; done. }
  split; [|split; [|split]].
  - intros req H. unfold FormatRoute.POST in H.
    destruct (FormatRoute.prepare e req) as [c| |] eqn:Hp; try discriminate H.
    injection H as <-. unfold FormatRoute.prepare in Hp.
    repeat case_match; try discriminate Hp; injection Hp as Hq; subst c;
      eexists; (split; [done|]); apply Hov.
  - intros req H. unfold McqRoute.POST in H.
    destruct (McqRoute.prepare e t req) as [p| |] eqn:Hp; try discriminate H.
    injection H as <-. unfold McqRoute.prepare in Hp.
    repeat case_match; try discriminate Hp; injection Hp as Hq; subst p;
      eexists; (split; [done|]); apply Hov.
  - intros req s H. unfold FlashcardsRoute.POST in H.
    destruct (FlashcardsRoute.prepare e t req s) as [[p| |] s'] eqn:Hp;
      try discriminate H.
    injection H as <-. unfold FlashcardsRoute.prepare in Hp.
    repeat case_match; try discriminate Hp; injection Hp as Hq _; subst p;
      eexists; (split; [done|]); apply Hov.
  - intros req s H. unfold ConceptBoosterRoute.POST in H.
    destruct (ConceptBoosterRoute.prepare e t req s) as [[p| |] s'] eqn:Hp;
      try discriminate H.
    injection H as <-. unfold ConceptBoosterRoute.prepare in Hp.
    repeat case_match; try discriminate Hp; injection Hp as Hq _; subst p;
      eexists; (split; [done|]); apply Hov.
Qed.

Lemma model_override_unchecked_witness :
  let req := Sample.mcq_request (Some (js "x")) in
  let llm := Sample.parses_to (Sample.error_reply "INSUFFICIENT_CONTEXT" "no facts") in
  let u := Upstream (js "x") (2 # 10) in
  sent (McqRoute.POST Sample.env (Sample.at_ 1000) req llm) = Some u
  /\ exists b, payload req = Some b
       /\ (forall m, McqRoute.model b = Some m -> m <> [] -> m <> js "auto" ->
             sent_model u = m)
       /\ (McqRoute.model b = None \/ McqRoute.model b = Some []
           \/ McqRoute.model b = Some (js "auto") ->
           sent_model u
           = ModelRouter.model (ModelRouter.getModel Sample.env ModelRouter.mcqs)).
Proof.
  cbn zeta. split; [vm_compute; reflexivity|].
  apply (proj1 (proj2 (model_override_unchecked Sample.env (Sample.at_ 1000)
                         (Sample.parses_to
                            (Sample.error_reply "INSUFFICIENT_CONTEXT" "no facts"))
                         (Upstream (js "x") (2 # 10))))
           (Sample.mcq_request (Some (js "x")))).
  vm_compute. reflexivity.
Defined.

(** C8: a requested model that is on no list, and that even the format
    check [isValidModel] of the model router turns down, is what the mcq
    route sends upstream. *)
Lemma unlisted_model_is_sent :
  ModelRouter.isValidModel (Some (js "x")) = false
  /\ sent (McqRoute.POST Sample.env (Sample.at_ 1000)
             (Sample.mcq_request (Some (js "x")))
             (Sample.parses_to (Sample.error_reply "INSUFFICIENT_CONTEXT" "no facts")))
     = Some (Upstream (js "x") (2 # 10)).
Proof. split; vm_compute; reflexivity. Qed.

(** C9 (as amended).  In the payload that [logError] emits, every string
    value whose property name contains "password", "secret", "key",
    "token" or "auth" (in any letter case) is replaced with
    ["[REDACTED]"], at any depth of nesting in objects; a value that is
    not a string (null, a boolean, a number) is emitted as it is,
    whatever its name. *)
Theorem log_redacts_sensitive_strings (dev : bool) (error : option exn)
    (stack : option jsstring) (context : list (jsstring * Json.value)) :
  let payload := ErrorHandler.logData dev error stack context in
  let emitted := ErrorHandler.logError dev error stack context in
  (forall p k s,
      ErrorHandler.at_path payload (p ++ [ErrorHandler.Key k]) = Some (Json.Str s) ->
      ErrorHandler.sensitive k = true ->
      ErrorHandler.at_path emitted (p ++ [ErrorHandler.Key k])
      = Some (Json.Str ErrorHandler.REDACTED))
  /\ (forall p x,
        ErrorHandler.at_path payload p = Some x ->
        Json.is_scalar x = true ->
        ErrorHandler.at_path emitted p = Some x).
Proof.
  cbn zeta. unfold ErrorHandler.logError. split.
  - intros p k s Hp Hk.
    rewrite (LogFacts.at_path_stringify _ [] _ _ Hp).
    unfold ErrorHandler.final_key. rewrite last_snoc.
    cbn [ErrorHandler.step_name ErrorHandler.stringify_with ErrorHandler.replacer].
    by rewrite Hk.
  - intros p x Hp Hx. rewrite (LogFacts.at_path_stringify _ [] _ _ Hp).
    by destruct x.
Qed.

Lemma log_redacts_sensitive_strings_witness :
  let context :=
    [(js "route", Json.Str (js "/api/mcq"));
     (js "upstream", Json.Obj [(js "apiKey", Json.Str (js "sk-live-123"))])] in
  let p := [ErrorHandler.Key (js "upstream")] in
  let k := js "apiKey" in
  ErrorHandler.at_path (ErrorHandler.logData false None None context)
    (p ++ [ErrorHandler.Key k]) = Some (Json.Str (js "sk-live-123"))
  /\ ErrorHandler.sensitive k = true
  /\ ErrorHandler.at_path (ErrorHandler.logError false None None context)
       (p ++ [ErrorHandler.Key k]) = Some (Json.Str ErrorHandler.REDACTED).
Proof.
  cbn zeta.
  assert (H1 : ErrorHandler.at_path
                 (ErrorHandler.logData false None None
                    [(js "route", Json.Str (js "/api/mcq"));
                     (js "upstream", Json.Obj [(js "apiKey", Json.Str (js "sk-live-123"))])])
                 ([ErrorHandler.Key (js "upstream")] ++ [ErrorHandler.Key (js "apiKey")])
               = Some (Json.Str (js "sk-live-123"))) by (vm_compute; reflexivity).
  assert (H2 : ErrorHandler.sensitive (js "apiKey") = true) by (vm_compute; reflexivity).
  split; [exact H1|]. split; [exact H2|].
  exact (proj1 (log_redacts_sensitive_strings false None None _) _ _ _ H1 H2).
Defined.

(** C9: a number under a sensitive name is emitted as it is. *)
Lemma sensitive_number_not_redacted :
  ErrorHandler.sensitive (js "apiKey") = true
  /\ ErrorHandler.logError false (Some (Error (js "boom"))) None
       [(js "route", Json.Str (js "/api/mcq")); (js "apiKey", Json.Num 12345)]
     = Json.Obj [(js "error", Json.Str (js "boom")); (js "name", Json.Str (js "Error"));
                 (js "route", Json.Str (js "/api/mcq")); (js "apiKey", Json.Num 12345)].
Proof. split; vm_compute; reflexivity. Qed.

(** C10.  The routes keep their counters apart.  A request to the
    flashcards route leaves the store of the concept-booster route as it
    was and is answered the same whatever that store holds, and the other
    way round; requests to the mcq and format routes change neither store
    and are answered the same whatever the stores hold (the mcq route
    checks a limiter of its own).  The keys of the three limiters for one
    client differ in their prefix. *)
Theorem endpoint_counters_disjoint (e : environment) (t : tick) (llm : completion)
    (fs fs' cs cs' : store)
    (freq : request FlashcardsRoute.FlashcardRequest)
    (creq : request ConceptBoosterRoute.ConceptBoosterRequest)
    (mreq : request McqRoute.MCQRequest)
    (oreq : request FormatRoute.FormatRequest) :
  let st := Server.State fs cs in
  (Server.concept_store (snd (Server.handle e t (Server.Flashcards freq) llm st)) = cs
   /\ fst (Server.handle e t (Server.Flashcards freq) llm (Server.State fs cs'))
      = fst (Server.handle e t (Server.Flashcards freq) llm st))
  /\ (Server.flashcards_store
        (snd (Server.handle e t (Server.ConceptBooster creq) llm st)) = fs
      /\ fst (Server.handle e t (Server.ConceptBooster creq) llm (Server.State fs' cs))
         = fst (Server.handle e t (Server.ConceptBooster creq) llm st))
  /\ (snd (Server.handle e t (Server.Mcq mreq) llm st) = st
      /\ fst (Server.handle e t (Server.Mcq mreq) llm (Server.State fs' cs'))
         = fst (Server.handle e t (Server.Mcq mreq) llm st))
  /\ (snd (Server.handle e t (Server.Format oreq) llm st) = st
      /\ fst (Server.handle e t (Server.Format oreq) llm (Server.State fs' cs'))
         = fst (Server.handle e t (Server.Format oreq) llm st))
  /\ (FlashcardsRoute.getRateLimitKey freq <> ConceptBoosterRoute.getRateLimitKey creq
      /\ FlashcardsRoute.getRateLimitKey freq <> memory_key mreq
      /\ ConceptBoosterRoute.getRateLimitKey creq <> memory_key mreq).
Proof.
  cbn zeta. cbn [Server.handle Server.flashcards_store Server.concept_store].
  repeat split.
  - by destruct (FlashcardsRoute.POST e t freq llm fs).
  - by destruct (FlashcardsRoute.POST e t freq llm fs).
  - by destruct (ConceptBoosterRoute.POST e t creq llm cs).
  - by destruct (ConceptBoosterRoute.POST e t creq llm cs).
  - unfold FlashcardsRoute.getRateLimitKey, ConceptBoosterRoute.getRateLimitKey.
    intros H. vm_compute in H. discriminate.
  - unfold FlashcardsRoute.getRateLimitKey, memory_key.
    intros H. vm_compute in H. discriminate.
  - unfold ConceptBoosterRoute.getRateLimitKey, memory_key.
    intros H. vm_compute in H. discriminate.
Qed.

(* ===================================================================== *)
(** * Further properties *)
(* ===================================================================== *)

Close Scope Z_scope.

(** ** The matcher: what a replacement is made of *)

Module RegexMore.
Import Regex RegexFacts.

(** A match ends within what was left where it started. *)
Lemma rmatch_suffix ci r : forall p k q,
  rmatch ci r p k = Some q ->
  exists p', rest p' `suffix_of` rest p /\ k p' = Some q.
Proof.
  induction r as [|neg rs|a IHa b IHb|a IHa b IHb|a IHa| |a IHa| |];
    intros p k q H; cbn [rmatch] in H.
  - exists p. split; [done|done].
  - destruct (rest p) as [|c s'] eqn:E; [done|].
    destruct (cls_match ci neg rs c); [|done].
    eexists. split; [|exact H]. cbn. by apply suffix_cons_r.
  - apply IHa in H as (p1 & Hp1 & H). apply IHb in H as (p2 & Hp2 & H).
    exists p2. split; [by etrans|done].
  - destruct (rmatch ci a p k) as [q'|] eqn:E.
    + injection H as <-. by apply IHa.
    + by apply IHb.
  - set (fuel := S (length (rest p))) in H. clearbody fuel. revert p H.
    induction fuel as [|f IHf]; intros p H; cbn [star_loop] in H.
    { exists p. split; [done|done]. }
    destruct (rmatch ci a p _) as [q'|] eqn:E.
    + injection H as <-. apply IHa in E as (p1 & Hp1 & E).
      destruct (length (rest p1) <? length (rest p))%nat; [|done].
      apply IHf in E as (p2 & Hp2 & E). exists p2. split; [by etrans|done].
    + exists p. split; [done|done].
  - destruct (xorb _ _); [|done]. exists p. split; [done|done].
  - destruct (rmatch ci a p Some); [done|]. exists p. split; [done|done].
  - destruct (prev p); [done|]. exists p. split; [done|done].
  - destruct (rest p) eqn:E; [|done]. exists p. split; [by rewrite E|done].
Qed.

(** A successful search: the subject is what was skipped, then the
    match, then what is left; the match is the one the matcher finds
    where the skipping stopped, and it finds none at a skipped unit. *)
Lemma find_from_Some ci r : forall s pv skipped q,
  find_from ci r pv s = Some (skipped, q) ->
  exists pv' matched,
    s = skipped ++ matched ++ rest q
    /\ rmatch ci r (Pos pv' (matched ++ rest q)) Some = Some q
    /\ Forall (fun c => exists pv'' s', rmatch ci r (Pos pv'' (c :: s')) Some = None)
         skipped.
Proof.
  induction s as [|c s IH]; intros pv skipped q H; cbn [find_from] in H.
  - destruct (rmatch ci r (Pos pv []) Some) as [q'|] eqn:E; [|done].
    injection H as <- <-. pose proof E as E'.
    apply rmatch_suffix in E' as (p' & [m Hp'] & E'). injection E' as <-.
    cbn in Hp'. exists pv, m. rewrite <- Hp'. by repeat split.
  - destruct (rmatch ci r (Pos pv (c :: s)) Some) as [q'|] eqn:E.
    + injection H as <- <-. pose proof E as E'.
      apply rmatch_suffix in E' as (p' & [m Hp'] & E'). injection E' as <-.
      cbn in Hp'. exists pv, m. rewrite <- Hp'. by repeat split.
    + destruct (find_from ci r (Some c) s) as [[sk q']|] eqn:F; [|done].
      injection H as <- <-. apply IH in F as (pv' & m & Hs & Hm & Hsk).
      exists pv', m. split; [by rewrite Hs at 1|]. split; [done|].
      constructor; [|done]. by exists pv, s.
Qed.

Lemma find_from_None ci r : forall s pv,
  find_from ci r pv s = None ->
  Forall (fun c => exists pv'' s', rmatch ci r (Pos pv'' (c :: s')) Some = None) s.
Proof.
  induction s as [|c s IH]; intros pv H; cbn [find_from] in H; [constructor|].
  destruct (rmatch ci r (Pos pv (c :: s)) Some) as [q'|] eqn:E; [done|].
  destruct (find_from ci r (Some c) s) as [[sk q']|] eqn:F; [done|].
  constructor; [by exists pv, s | by eapply IH].
Qed.

(** The pieces a replacement is put together from. *)
Lemma replace_loop_Forall (Q : N -> Prop) ci r rep :
  (forall m, Forall Q m -> Forall Q (rep m)) ->
  forall fuel pv s, Forall Q s -> Forall Q (replace_loop ci r rep fuel pv s).
Proof.
  intros Hrep. induction fuel as [|f IH]; intros pv s Hs; cbn [replace_loop]; [done|].
  destruct (find_from ci r pv s) as [[skipped q]|] eqn:F; [|done].
  apply find_from_Some in F as (pv' & matched & Hsplit & _ & _). cbn zeta.
  assert (Hd : drop (length skipped) s = matched ++ rest q).
  { rewrite Hsplit at 1. by rewrite drop_app_length. }
  rewrite Hd, length_app, Nat.add_sub, take_app_length.
  rewrite Hsplit in Hs. apply Forall_app in Hs as [Hsk Hs].
  apply Forall_app in Hs as [Hm Hq].
  destruct matched as [|m ms].
  - destruct (rest q) as [|c s'] eqn:Eq.
    + apply Forall_app. split; [done|]. by apply Hrep.
    + apply Forall_app. split; [done|]. apply Forall_app. split; [by apply Hrep|].
      apply Forall_cons in Hq as [Hc Hq]. constructor; [done|]. by apply IH.
  - apply Forall_app. split; [done|]. apply Forall_app. split; [by apply Hrep|].
    by apply IH.
Qed.

Lemma replace_with_Forall (Q : N -> Prop) ci r rep s :
  (forall m, Forall Q m -> Forall Q (rep m)) ->
  Forall Q s -> Forall Q (replace_with ci r rep s).
Proof. intros. by apply replace_loop_Forall. Qed.

Lemma replace_Forall (Q : N -> Prop) ci r rep s :
  Forall Q rep -> Forall Q s -> Forall Q (replace ci r rep s).
Proof. intros. by apply replace_with_Forall. Qed.

(** A pattern that matches, and not emptily, wherever a unit of a kind
    stands: the replacement leaves no unit of the kind. *)
Lemma replace_loop_removes (P : N -> bool) ci r rep :
  (forall pv c s, P c = true ->
     exists q, rmatch ci r (Pos pv (c :: s)) Some = Some q
               /\ (length (rest q) <= length s)%nat) ->
  (forall m, Forall (fun c => P c = false) (rep m)) ->
  forall fuel pv s, (length s < fuel)%nat ->
    Forall (fun c => P c = false) (replace_loop ci r rep fuel pv s).
Proof.
  intros Hmatch Hrep.
  assert (Hno : forall l,
    Forall (fun c => exists pv'' s', rmatch ci r (Pos pv'' (c :: s')) Some = None) l ->
    Forall (fun c => P c = false) l).
  { intros l Hl. eapply Forall_impl; [exact Hl|]. intros c (pv'' & s' & Hn).
    destruct (P c) eqn:Hc; [|done].
    destruct (Hmatch pv'' c s' Hc) as (q & Hq & _). congruence. }
  induction fuel as [|f IH]; intros pv s Hlen; [lia|]. cbn [replace_loop].
  destruct (find_from ci r pv s) as [[skipped q]|] eqn:F.
  2:{ apply Hno. by eapply find_from_None. }
  apply find_from_Some in F as (pv' & matched & Hsplit & Hm & Hsk). cbn zeta.
  assert (Hd : drop (length skipped) s = matched ++ rest q).
  { rewrite Hsplit at 1. by rewrite drop_app_length. }
  rewrite Hd, length_app, Nat.add_sub, take_app_length.
  apply (f_equal length) in Hsplit. rewrite !length_app in Hsplit.
  destruct matched as [|m ms].
  - destruct (rest q) as [|c s'] eqn:Eq.
    + apply Forall_app. split; [by apply Hno|]. apply Hrep.
    + apply Forall_app. split; [by apply Hno|]. apply Forall_app. split; [apply Hrep|].
      cbn in Hm, Hsplit. constructor.
      * destruct (P c) eqn:Hc; [|done].
        destruct (Hmatch pv' c s' Hc) as (q' & Hq' & Hl).
        rewrite Hm in Hq'. injection Hq' as <-. rewrite Eq in Hl. cbn in Hl. lia.
      * apply IH. lia.
  - apply Forall_app. split; [by apply Hno|]. apply Forall_app. split; [apply Hrep|].
    apply IH. cbn in Hsplit. lia.
Qed.

Lemma replace_removes (P : N -> bool) ci r rep s :
  (forall pv c s, P c = true ->
     exists q, rmatch ci r (Pos pv (c :: s)) Some = Some q
               /\ (length (rest q) <= length s)%nat) ->
  Forall (fun c => P c = false) rep ->
  Forall (fun c => P c = false) (replace ci r rep s).
Proof. intros. apply replace_loop_removes; [done|done|lia]. Qed.

End RegexMore.

(* ===================================================================== *)
(** ** The sanitizer *)
(* ===================================================================== *)

Module SanitizedFacts.
Import Regex RegexFacts RegexMore Sanitize Sanitized.

Lemma never_cons r rs s : never [r] s -> never rs s -> never (r :: rs) s.
Proof.
  unfold never. rewrite !Forall_forall. intros H1 H2 c Hc.
  specialize (H1 c Hc). specialize (H2 c Hc).
  unfold in_ranges in *. cbn [existsb] in *.
  rewrite orb_false_r in H1. by rewrite H1, H2.
Qed.

Lemma never_nil s : never [] s.
Proof. unfold never. apply Forall_forall. done. Qed.

Lemma trimStart_Forall (Q : N -> Prop) s : Forall Q s -> Forall Q (JsString.trimStart s).
Proof.
  induction 1 as [|c s Hc Hs IH]; cbn; [constructor|].
  destruct (JsString.is_space c); [done | by constructor].
Qed.

Lemma trim_Forall (Q : N -> Prop) s : Forall Q s -> Forall Q (JsString.trim s).
Proof.
  intros H. unfold JsString.trim.
  apply Forall_rev, trimStart_Forall, Forall_rev, trimStart_Forall, H.
Qed.

Lemma cap_Forall (Q : N -> Prop) cap s :
  Forall Q s ->
  Forall Q match cap with
           | Some (S n) =>
               if (S n <? length s)%nat then JsString.substring0 (S n) s else s
           | _ => s
           end.
Proof.
  intros H. destruct cap as [[|n]|]; try done.
  destruct (S n <? length s)%nat; [|done]. by apply Forall_take.
Qed.

Lemma in_ranges_subseteq (P rs : ranges) c :
  P ⊆ rs -> in_ranges P c = true -> in_ranges rs c = true.
Proof.
  unfold in_ranges. rewrite !existsb_exists. intros H (x & Hx & Hc).
  exists x. split; [|done]. apply list_elem_of_In, H, list_elem_of_In, Hx.
Qed.

Lemma cls_removes (P : ranges) rs :
  P ⊆ rs ->
  forall pv c s, in_ranges P c = true ->
    exists q, rmatch false (Cls false rs) (Pos pv (c :: s)) Some = Some q
              /\ (length (rest q) <= length s)%nat.
Proof.
  intros H pv c s Hc. cbn [rmatch rest]. unfold cls_match. cbn [xorb].
  rewrite (in_ranges_subseteq P rs c H Hc).
  eexists. split; [done|]. cbn. lia.
Qed.

Lemma single_unit (a c : N) : in_ranges [(a, a)] c = true -> c = a.
Proof.
  unfold in_ranges. cbn. rewrite orb_false_r. intros [H1 H2]%andb_prop.
  apply N.leb_le in H1, H2. lia.
Qed.

Lemma never_forallb (P : ranges) m :
  forallb (fun c => negb (in_ranges P c)) m = true ->
  Forall (fun c => in_ranges P c = false) m.
Proof.
  rewrite forallb_forall, Forall_forall. intros H c Hc.
  apply negb_true_iff, H, list_elem_of_In, Hc.
Qed.

Ltac marker_free := apply never_forallb; vm_compute; reflexivity.

Ltac removal :=
  first
    [ apply cls_removes; apply (bool_decide_unpack _); vm_compute; exact I
    | let pv := fresh "pv" in let c := fresh "c" in
      let s := fresh "s" in let H := fresh "H" in
      intros pv c s H; apply single_unit in H; subst c;
      eexists; split; [vm_compute; reflexivity | cbn; lia] ].

(** Through the pipeline from its end back to the replacement of [r],
    which removes the units; the replacements after it add none. *)
Ltac walk r :=
  apply cap_Forall; apply trim_Forall;
  repeat
    lazymatch goal with
    | |- Forall _ (replace _ r _ _) =>
        apply replace_removes; [removal | marker_free]
    | |- Forall _ (replace _ _ _ _) =>
        apply replace_Forall; [marker_free | ]
    | |- Forall _ (replace_with _ _ _ _) =>
        apply replace_with_Forall;
        [ let m := fresh "m" in let H := fresh "H" in
          intros m H; destruct (test false re_key_only m); [marker_free | exact H] | ]
    end.

Ltac pipeline r :=
  unfold never, sanitizeTextInput, sanitizeSingleLineInput, sanitizeInput, block_all,
    sqlPatterns, commandPatterns, jsPatterns, entities;
  cbn [allowHtml removeNewlines maxLength fold_left];
  walk r.

Lemma never_control input o :
  never [(0, 8); (11, 12); (14, 31); (127, 127)] (sanitizeInput input o).
Proof. destruct o as [[] cap []]; pipeline re_control. Qed.

Lemma never_quote input o : never [(39, 39)] (sanitizeInput input o).
Proof.
  destruct o as [[] cap []];
    pipeline (alts [chr "'"; Seq backslash (chr "'");
                 chr ";"; Seq backslash (chr ";");
                 lit "--"; Seq backslash (lit "--");
                 lit "/*"; Seq backslash (lit "/*");
                 lit "*/"; Seq backslash (lit "*/")]).
Qed.

Lemma never_shell input o :
  never [(59, 59); (38, 38); (124, 124); (96, 96); (36, 36);
         (40, 40); (41, 41); (123, 123); (125, 125)] (sanitizeInput input o).
Proof. destruct o as [[] cap []]; pipeline shell_meta. Qed.

Lemma never_invisible input o :
  never [(8203, 8205); (65279, 65279)] (sanitizeInput input o).
Proof. destruct o as [[] cap []]; pipeline re_invisible. Qed.

Lemma never_app r1 r2 s : never r1 s -> never r2 s -> never (r1 ++ r2) s.
Proof.
  unfold never. rewrite !Forall_forall. intros H1 H2 c Hc.
  unfold in_ranges. rewrite existsb_app.
  specialize (H1 c Hc). specialize (H2 c Hc). unfold in_ranges in *.
  by rewrite H1, H2.
Qed.

(** X1.  Whatever the input and the options, what [sanitizeInput] returns
    holds none of these units: a control character other than tab, line
    feed and carriage return, a single quote, a semicolon, an ampersand, a
    bar, a back quote, a dollar sign, a parenthesis, a curly brace, a
    zero-width character or a byte order mark. *)
Theorem sanitizeInput_drops_injection_units input o :
  never injection_units (sanitizeInput input o).
Proof.
  apply (never_app [_; _; _; _]); [apply never_control|].
  apply (never_app [_]); [apply never_quote|].
  apply (never_app [_; _; _; _; _; _; _; _; _]); [apply never_shell|].
  apply never_invisible.
Qed.

(** X2.  What [sanitizeTextInput] and [sanitizeSingleLineInput] return
    holds no [<], no [>] and no double quote. *)
Theorem wrappers_drop_markup input cap :
  never markup_units (sanitizeTextInput input cap)
  /\ never markup_units (sanitizeSingleLineInput input cap).
Proof.
  split.
  - apply (never_app [_]); [pipeline (chr "<")|].
    apply (never_app [_]); [pipeline (chr ">")|]. pipeline (Cls false [(34, 34)]).
  - apply (never_app [_]); [pipeline (chr "<")|].
    apply (never_app [_]); [pipeline (chr ">")|]. pipeline (Cls false [(34, 34)]).
Qed.

(** X3.  What [sanitizeTextInput] returns holds no carriage return, and
    what [sanitizeSingleLineInput] returns holds no line feed. *)
Theorem wrappers_settle_line_endings input cap :
  never [(13, 13)] (sanitizeTextInput input cap)
  /\ never [(10, 10)] (sanitizeSingleLineInput input cap).
Proof. split; [pipeline CR | pipeline (Seq (opt CR) LF)]. Qed.

End SanitizedFacts.

Module TrimFacts.
Import JsString.

Lemma trimStart_idem s : trimStart (trimStart s) = trimStart s.
Proof.
  induction s as [|c s IH]; [done|]. cbn. destruct (is_space c) eqn:E; [done|].
  cbn. by rewrite E.
Qed.

Lemma trimStart_suffix s : exists w, s = w ++ trimStart s /\ Forall (fun c => is_space c = true) w.
Proof.
  induction s as [|c s (w & Hw & Hs)]; [by exists []|]. cbn.
  destruct (is_space c) eqn:E.
  - exists (c :: w). split; [by rewrite Hw at 1|by constructor].
  - by exists [].
Qed.

Lemma trimStart_fixed s :
  trimStart s = s <-> match s with c :: _ => is_space c = false | [] => True end.
Proof.
  destruct s as [|c s]; [done|]. cbn. destruct (is_space c) eqn:E; [|done].
  split; [|done]. intros H. destruct (trimStart_suffix s) as (w & Hw & _).
  apply (f_equal length) in H. apply (f_equal length) in Hw.
  rewrite length_app in Hw. cbn in H. lia.
Qed.

(** What [trim] returns has no white space at either end. *)
Lemma trim_start s : trimStart (trim s) = trim s.
Proof.
  unfold trim. set (t := trimStart s).
  assert (Ht : trimStart t = t) by apply trimStart_idem.
  destruct (trimStart_suffix (rev t)) as (w & Hw & _).
  set (u := trimStart (rev t)) in *.
  apply (f_equal (@rev N)) in Hw. rewrite rev_involutive, rev_app_distr in Hw.
  apply trimStart_fixed. apply trimStart_fixed in Ht.
  destruct (rev u) as [|c x]; [done|]. rewrite Hw in Ht. exact Ht.
Qed.

Lemma trim_idem s : trim (trim s) = trim s.
Proof.
  unfold trim at 1. rewrite trim_start. unfold trim.
  by rewrite rev_involutive, trimStart_idem.
Qed.

Lemma trimStart_take n s : trimStart s = s -> trimStart (take n s) = take n s.
Proof.
  rewrite !trimStart_fixed. destruct s as [|c s], n as [|n]; done.
Qed.

End TrimFacts.

Module SanitizeShape.
Import Regex Sanitize.

Lemma sanitizeInput_end input o :
  exists x,
    sanitizeInput input o
    = match maxLength o with
      | Some (S n) =>
          if (S n <? length (JsString.trim x))%nat
          then JsString.substring0 (S n) (JsString.trim x) else JsString.trim x
      | _ => JsString.trim x
      end.
Proof. unfold sanitizeInput. eexists. reflexivity. Qed.

Lemma length_capped input html nl (m : nat) :
  (0 < m)%nat -> (length (sanitizeInput input (Options html (Some m) nl)) <= m)%nat.
Proof.
  intros Hm. destruct m as [|n]; [lia|].
  destruct (sanitizeInput_end input (Options html (Some (S n)) nl)) as [x ->].
  cbn [maxLength]. destruct (S n <? length (JsString.trim x))%nat eqn:E.
  - unfold JsString.substring0. rewrite length_take. lia.
  - apply Nat.ltb_ge in E. lia.
Qed.

(** X4.  With a positive [maxLength] the result of [sanitizeInput] has
    at most that many units; a [maxLength] of 0 caps nothing, as if none
    had been given. *)
Theorem sanitizeInput_length_cap input html nl (n : nat) :
  (length (sanitizeInput input (Options html (Some (S n)) nl)) <= S n)%nat
  /\ sanitizeInput input (Options html (Some O) nl)
     = sanitizeInput input (Options html None nl).
Proof.
  split; [apply length_capped; lia|].
  unfold sanitizeInput. cbn [allowHtml removeNewlines maxLength]. reflexivity.
Qed.

(** X5.  What [sanitizeInput] returns never begins with white space,
    and when no cap is set it does not end with white space either:
    trimming it again changes nothing. *)
Theorem sanitizeInput_trimmed input o :
  JsString.trimStart (sanitizeInput input o) = sanitizeInput input o
  /\ JsString.trim (sanitizeInput input (Options (allowHtml o) None (removeNewlines o)))
     = sanitizeInput input (Options (allowHtml o) None (removeNewlines o)).
Proof.
  split.
  - destruct (sanitizeInput_end input o) as [x ->].
    destruct (maxLength o) as [[|n]|]; try apply TrimFacts.trim_start.
    destruct (S n <? _)%nat; [|apply TrimFacts.trim_start].
    apply TrimFacts.trimStart_take, TrimFacts.trim_start.
  - destruct (sanitizeInput_end input (Options (allowHtml o) None (removeNewlines o)))
      as [x ->].
    apply TrimFacts.trim_idem.
Qed.

End SanitizeShape.

Module InputCheckFacts.
Import Regex RegexFacts RegexMore Sanitize Sanitized InputCheck.

(** A pattern that matches wherever another does is found in every
    subject the other is found in. *)
Lemma find_from_mono ci1 r1 ci2 r2 :
  (forall p, rmatch ci1 r1 p Some <> None -> rmatch ci2 r2 p Some <> None) ->
  forall s pv, find_from ci1 r1 pv s <> None -> find_from ci2 r2 pv s <> None.
Proof.
  intros H. induction s as [|c s IH]; intros pv; cbn [find_from].
  - specialize (H (Pos pv [])).
    destruct (rmatch ci1 r1 (Pos pv []) Some); [|done].
    destruct (rmatch ci2 r2 (Pos pv []) Some); [done|]. intros _. exfalso. by apply H.
  - specialize (H (Pos pv (c :: s))). specialize (IH (Some c)).
    destruct (rmatch ci2 r2 (Pos pv (c :: s)) Some); [done|].
    destruct (rmatch ci1 r1 (Pos pv (c :: s)) Some); [intros _; exfalso; by apply H|].
    destruct (find_from ci1 r1 (Some c) s) as [[? ?]|]; [|done].
    destruct (find_from ci2 r2 (Some c) s) as [[? ?]|]; [done|].
    intros _. by apply IH.
Qed.

Lemma test_mono ci1 r1 ci2 r2 s :
  (forall p, rmatch ci1 r1 p Some <> None -> rmatch ci2 r2 p Some <> None) ->
  test ci2 r2 s = false -> test ci1 r1 s = false.
Proof.
  intros H. unfold test. pose proof (find_from_mono _ _ _ _ H s None) as Hm.
  destruct (find_from ci2 r2 None s); [done|].
  destruct (find_from ci1 r1 None s); [|done]. intros _. by destruct Hm.
Qed.

(** A unit at which the pattern matches whatever follows is found. *)
Lemma find_from_unit ci r c :
  (forall pv s', rmatch ci r (Pos pv (c :: s')) Some <> None) ->
  forall s pv, In c s -> find_from ci r pv s <> None.
Proof.
  intros H. induction s as [|x s IH]; intros pv Hin; [done|]. cbn [find_from].
  destruct (rmatch ci r (Pos pv (x :: s)) Some) eqn:E; [done|].
  destruct Hin as [->|Hin]; [by destruct (H pv s)|].
  specialize (IH (Some x) Hin).
  by destruct (find_from ci r (Some x) s) as [[? ?]|].
Qed.

Lemma alt_left ci a b p k : rmatch ci a p k <> None -> rmatch ci (Alt a b) p k <> None.
Proof. cbn [rmatch]. by destruct (rmatch ci a p k). Qed.

Lemma alt_right ci a b p k : rmatch ci b p k <> None -> rmatch ci (Alt a b) p k <> None.
Proof. cbn [rmatch]. by destruct (rmatch ci a p k). Qed.

Lemma keywords_more ci a u v p :
  rmatch ci (seqs [WordB; a; WordB]) p Some <> None ->
  rmatch ci (seqs [WordB; Alt (Alt a u) v; WordB]) p Some <> None.
Proof.
  cbn [seqs fold_right]. cbn [rmatch]. destruct (xorb _ _); [|done].
  intros H. by destruct (rmatch ci a p _).
Qed.

Lemma less_than_only c : cls_match true false [(60, 60)] c = true -> c = 60.
Proof.
  unfold cls_match, in_ranges, JsString.upper_unit, JsString.lower_unit. cbn.
  destruct ((97 <=? c) && (c <=? 122)) eqn:E1, ((65 <=? c) && (c <=? 90)) eqn:E2;
    rewrite ?orb_false_r, ?orb_true_iff, ?andb_true_iff, ?N.leb_le in *; lia.
Qed.

Lemma script_is_markup p :
  rmatch true (lit "<script") p Some <> None -> rmatch false (chr "<") p Some <> None.
Proof.
  change (lit "<script") with (Seq (Cls false [(60, 60)]) (lit "script")).
  change (chr "<") with (Cls false [(60, 60)]).
  cbn [rmatch]. destruct (rest p) as [|c s']; [done|].
  destruct (cls_match true false [(60, 60)] c) eqn:E; [|done].
  apply less_than_only in E as ->. done.
Qed.

Lemma seq_eps ci a p :
  rmatch ci a p Some <> None -> rmatch ci (Seq a Eps) p Some <> None.
Proof. done. Qed.

Ltac listed :=
  unfold patterns, sqlPatterns, commandPatterns, jsPatterns, entities;
  cbn [In app List.map allowHtml removeNewlines];
  repeat lazymatch goal with
         | |- ?x = ?x \/ _ => left; reflexivity
         | |- ?x = ?x => reflexivity
         | |- _ \/ _ => right
         end.

(** X6.  Text in which the sanitizer, with HTML not allowed, finds none of
    its patterns passes [isInputSafe]: each pattern of the check is
    covered by a pattern of the sanitizer. *)
Theorem clean_text_is_input_safe o s :
  allowHtml o = false ->
  forallb (absent s) (patterns o) = true -> isInputSafe s = true.
Proof.
  intros Hh H. rewrite forallb_forall in H.
  assert (Hno : forall ci r, In (ci, r) (patterns o) -> test ci r s = false).
  { intros ci r Hin. apply H in Hin. by apply negb_true_iff in Hin. }
  clear H. destruct o as [html cap nl]. cbn in Hh. subst html.
  unfold isInputSafe, dangerousPatterns. cbn [existsb].
  rewrite (test_mono true (lit "<script") false (chr "<") s script_is_markup)
    by (apply Hno; destruct nl; listed).
  rewrite (Hno true (lit "javascript:")) by (destruct nl; listed).
  rewrite (Hno true (seqs [lit "on"; plus word; Star ws; chr "="]))
    by (destruct nl; listed).
  rewrite (Hno true (seqs [lit "eval"; Star ws; chr "("])) by (destruct nl; listed).
  assert (Hk : test true
                 (keywords ["SELECT"; "INSERT"; "UPDATE"; "DELETE"; "DROP"; "CREATE";
                            "ALTER"; "EXEC"; "EXECUTE"]) s = false).
  { apply (test_mono true _ true
             (keywords ["SELECT"; "INSERT"; "UPDATE"; "DELETE"; "DROP"; "CREATE";
                        "ALTER"; "EXEC"; "EXECUTE"; "UNION"; "SCRIPT"]));
      [|apply Hno; destruct nl; listed].
    intros p.
    exact (keywords_more true
             (alts (List.map lit ["SELECT"; "INSERT"; "UPDATE"; "DELETE"; "DROP";
                                  "CREATE"; "ALTER"; "EXEC"; "EXECUTE"]))
             (lit "UNION") (lit "SCRIPT") p). }
  rewrite Hk.
  rewrite (Hno false shell_meta) by (destruct nl; listed).
  rewrite (test_mono false (lit "../") false re_path s).
  2:{ intros p Hp. unfold re_path. cbn [alts fold_left].
      by apply alt_left, alt_left, alt_left. }
  2:{ apply Hno; destruct nl; listed. }
  rewrite (test_mono false (Seq (lit "..") backslash) false re_path s).
  2:{ intros p Hp. unfold re_path. cbn [alts fold_left].
      by apply alt_left, alt_left, alt_right. }
  2:{ apply Hno; destruct nl; listed. }
  reflexivity.
Qed.

(** X7.  Text that passes [isInputSafe] holds no shell metacharacter:
    no semicolon, ampersand, bar, back quote, dollar sign, parenthesis,
    curly brace or square bracket (so none of the markers the sanitizer
    puts in either). *)
Theorem input_safe_text_has_no_shell_unit s :
  isInputSafe s = true ->
  never [(59, 59); (38, 38); (124, 124); (96, 96); (36, 36); (40, 40);
         (41, 41); (123, 123); (125, 125); (91, 91); (93, 93)] s.
Proof.
  unfold isInputSafe, dangerousPatterns. cbn [existsb].
  rewrite negb_true_iff, !orb_false_iff. intros (_ & _ & _ & _ & _ & H & _).
  unfold never. apply Forall_forall. intros c Hc%list_elem_of_In.
  destruct (in_ranges _ c) eqn:E; [|done]. exfalso.
  unfold test in H.
  pose proof (find_from_unit false shell_meta c) as Hf.
  destruct (find_from false shell_meta None s) eqn:F; [done|].
  eapply Hf; [|exact Hc|exact F].
  intros pv s'. cbn [rmatch shell_meta rest]. unfold cls_match. cbn [xorb].
  rewrite E. done.
Qed.

End InputCheckFacts.

(* ===================================================================== *)
(** ** The routes *)
(* ===================================================================== *)

Module ValidationFacts.
Import Sanitize.

(** X8.  [validateInput] of the mcq, flashcards and concept-booster
    routes answers with no error or with one of the other messages, never
    with the one for a text that is too long: what it measures has been
    cut to the maximum by the sanitizer. *)
Theorem validateInput_never_reports_length text n difficulty level :
  In (McqRoute.validateInput text n difficulty)
     [None;
      Some (js "Input text cannot be empty.");
      Some (js "Input text contains no valid content after sanitization.");
      Some (js "Number of questions must be between 1 and 50.");
      Some (js "Difficulty must be one of: easy, medium, hard.")]
  /\ In (FlashcardsRoute.validateInput text level)
       [None;
        Some (js "Content cannot be empty.");
        Some (js "Content contains no valid text after sanitization.");
        Some (js "Invalid learning level.")]
  /\ In (ConceptBoosterRoute.validateInput text level)
       [None;
        Some (js "Topic cannot be empty.");
        Some (js "Topic contains no valid content after sanitization.");
        Some (js "Invalid learning level.")].
Proof.
  split; [|split].
  - unfold McqRoute.validateInput.
    destruct (length (JsString.trim text) =? 0)%nat; [cbn [In]; tauto|].
    cbn zeta. destruct (length (McqRoute.sanitizeText text) =? 0)%nat; [cbn [In]; tauto|].
    assert (Hc : (McqRoute.MAX_TEXT_LENGTH <? length (McqRoute.sanitizeText text))%nat
                 = false).
    { apply Nat.ltb_ge. apply SanitizeShape.length_capped. unfold McqRoute.MAX_TEXT_LENGTH. lia. }
    rewrite Hc. destruct (_ || _)%bool; [cbn [In]; tauto|].
    destruct (negb _); cbn [In]; tauto.
  - unfold FlashcardsRoute.validateInput.
    destruct (length (JsString.trim text) =? 0)%nat; [cbn [In]; tauto|].
    cbn zeta.
    destruct (length (FlashcardsRoute.sanitizeText text) =? 0)%nat; [cbn [In]; tauto|].
    assert (Hc : (FlashcardsRoute.MAX_TEXT_LENGTH
                  <? length (FlashcardsRoute.sanitizeText text))%nat = false).
    { apply Nat.ltb_ge. apply SanitizeShape.length_capped. unfold FlashcardsRoute.MAX_TEXT_LENGTH. lia. }
    rewrite Hc. destruct (negb _); cbn [In]; tauto.
  - unfold ConceptBoosterRoute.validateInput.
    destruct (length (JsString.trim text) =? 0)%nat; [cbn [In]; tauto|].
    cbn zeta.
    destruct (length (ConceptBoosterRoute.sanitizeText text) =? 0)%nat;
      [cbn [In]; tauto|].
    assert (Hc : (ConceptBoosterRoute.MAX_TOPIC_LENGTH
                  <? length (ConceptBoosterRoute.sanitizeText text))%nat = false).
    { apply Nat.ltb_ge. apply SanitizeShape.length_capped. unfold ConceptBoosterRoute.MAX_TOPIC_LENGTH. lia. }
    rewrite Hc. destruct (negb _); cbn [In]; tauto.
Qed.

End ValidationFacts.

Module ShapeFacts.
Import Json RateLimit Replies.

Lemma settle_sat P dev msg m :
  flow_sat P m -> (forall e, P (ErrorHandler.caught dev msg e)) -> P (settle dev msg m).
Proof. destruct m; cbn; auto. Qed.

Lemma rethrow_sat P prefix (m : flow response) :
  flow_sat P m -> flow_sat P (rethrow prefix m).
Proof. by destruct m. Qed.

Lemma bind_sat {A} P (m : flow A) (k : A -> flow response) :
  no_return m -> (forall a, flow_sat P (k a)) -> flow_sat P (m ≫= k).
Proof. destruct m; cbn; naive_solver. Qed.

Lemma finish_sat P (interpret : value -> flow response) prefix llm :
  (forall v, flow_sat P (interpret v)) ->
  flow_sat P (parsed ← received llm;
              rethrow prefix (parsedResponse ← json_parse parsed; interpret parsedResponse)).
Proof.
  intros H. destruct llm as [e|raw p]; cbn; [done|].
  destruct (nonempty raw); cbn; [|done].
  destruct p as [e|v]; cbn; [done|]. apply rethrow_sat, H.
Qed.

(** What the [map] callback of the mcq route returns is well formed. *)
Lemma format_item_Go incl index item v :
  McqRoute.format_item incl index item = Go v -> returned_ok v = true.
Proof.
  unfold McqRoute.format_item, throw_if.
  destruct (prop item "question") as [q| |]; cbn [mbind flow_mbind flow_bind];
    [|intros H; discriminate H..].
  destruct (negb (truthy (Some (or_else q (Str []))))); [intros H; discriminate H|].
  destruct (field "options" item) as [[| | | |l|]|];
    try (intros H; discriminate H).
  destruct (length l =? 4)%nat eqn:El; cbn [mbind flow_mbind flow_bind];
    [|intros H; discriminate H].
  destruct l as [|o1 [|o2 [|o3 [|o4 [|]]]]]; try discriminate El. clear El.
  destruct (or_else (field "correct" item) (Str [])) as [| | |c| |];
    try (intros H; discriminate H).
  destruct c as [|c0 c]; [intros H; discriminate H|].
  destruct (existsb _ McqRoute.answers) eqn:Ea; cbn [mbind flow_mbind flow_bind];
    [|intros H; discriminate H].
  destruct (or_else q (Str [])) as [| | |s| |];
    cbn [mbind flow_mbind flow_bind]; try (intros H; discriminate H).
  intros H. injection H as <-.
  unfold returned_ok, object, field. cbn [omap List.map].
  unfold lookup_field. cbn [find fst snd].
  change (JsString.eqb (js "id") (js "question")) with false.
  change (JsString.eqb (js "question") (js "question")) with true.
  change (JsString.eqb (js "id") (js "options")) with false.
  change (JsString.eqb (js "question") (js "options")) with false.
  change (JsString.eqb (js "options") (js "options")) with true.
  change (JsString.eqb (js "id") (js "correct")) with false.
  change (JsString.eqb (js "question") (js "correct")) with false.
  change (JsString.eqb (js "options") (js "correct")) with false.
  change (JsString.eqb (js "correct") (js "correct")) with true.
  cbv iota. cbn [snd]. exact Ea.
Qed.

Lemma flow_map_Go {A B} (f : nat -> A -> flow B) (Q : B -> bool) l : forall i ys,
  (forall i x y, f i x = Go y -> Q y = true) ->
  flow_map f i l = Go ys -> forallb Q ys = true.
Proof.
  induction l as [|x l IH]; intros i ys Hf; cbn [flow_map].
  - intros H. injection H as <-. done.
  - destruct (f i x) as [y| |] eqn:E; cbn [mbind flow_mbind flow_bind];
      [|intros H; discriminate H..].
    destruct (flow_map f (S i) l) as [ys'| |] eqn:E'; cbn [mbind flow_mbind flow_bind];
      [|intros H; discriminate H..].
    intros H. injection H as <-. cbn [forallb].
    rewrite (Hf _ _ _ E), (IH _ _ Hf E'). done.
Qed.

Lemma mcq_success_reply mcqs tokens rl :
  forallb returned_ok mcqs = true -> mcq_reply rl (McqRoute.success mcqs tokens rl).
Proof.
  intros H. right. right. repeat split. exists mcqs. split; [|done].
  reflexivity.
Qed.

Lemma mcq_batch_shape incl (g : nat -> option nat) items tokens rl :
  flow_sat (mcq_reply rl)
    (formatted ← flow_map (fun i => McqRoute.format_item incl (g i)) 0 items;
     Return (McqRoute.success formatted tokens rl)).
Proof.
  pose proof (RouteFacts.flow_map_no_return
                (fun i => McqRoute.format_item incl (g i)) items 0
                (fun i x => RouteFacts.format_item_no_return incl (g i) x)) as Hn.
  destruct (flow_map _ 0 items) as [ys| |] eqn:E;
    cbn [mbind flow_mbind flow_bind flow_sat]; try done.
  apply mcq_success_reply. eapply flow_map_Go; [|exact E].
  intros i x y. apply format_item_Go.
Qed.

Lemma mcq_interpret_shape incl n txt rl v :
  flow_sat (mcq_reply rl) (McqRoute.interpret incl n txt rl v).
Proof.
  unfold McqRoute.interpret.
  apply bind_sat; [apply RouteFacts.prop_no_return|]. intros st.
  destruct (is_str st "ERROR").
  { destruct (is_str _ "INSUFFICIENT_CONTEXT"); cbn; [by left | by right; left]. }
  destruct (if is_str st "OK" then field "mcqs" v else None) as [[| | | |items|]|].
  5:{ destruct items as [|item items]; [cbn; by left|].
      apply (mcq_batch_shape incl (fun _ => None)). }
  all: destruct v as [| | | |items|]; cbn [flow_sat]; try done.
  all: apply (mcq_batch_shape incl Some).
Qed.

Lemma mcq_prepare_shape e t req :
  match McqRoute.prepare e t req with
  | Go p =>
      McqRoute.rateLimit p
      = Result true 9 (now t + 60000)
      /\ api_key e = true
      /\ exists body, payload req = Some body
  | Return r => status r = 413%Z \/ status r = 400%Z \/ status r = 500%Z
  | Throw _ => False
  end.
Proof.
  unfold McqRoute.prepare. rewrite HandlerFacts.getRateLimiter_check_allows.
  cbn [allowed negb].
  destruct (match content_length req with Some _ => _ | None => _ end); [cbn; by left|].
  destruct (payload req) as [b|]; [|cbn; by right; left].
  destruct (McqRoute.validateInput _ _ _); [cbn; by right; left|].
  destruct (api_key e); cbn [negb]; [|cbn; by right; right].
  repeat split. by exists b.
Qed.

(** X9.  The mcq route asks for a new limiter with every request: its
    status is 200, 400, 413 or 500, never 429, and the headers of a
    success always show nine requests left in a window that ends a minute
    after the request. *)
Theorem mcq_route_never_limits e t req llm :
  let r := reply (McqRoute.POST e t req llm) in
  In (status r) [200; 400; 413; 500]%Z
  /\ (status r = 200%Z ->
      headers r = [("X-RateLimit-Remaining", js "9");
                   ("X-RateLimit-Reset", JsString.of_Z (now t + 60000))]).
Proof.
  cbn zeta. unfold McqRoute.POST.
  pose proof (mcq_prepare_shape e t req) as Hp.
  destruct (McqRoute.prepare e t req) as [p|r|err]; cbn [reply].
  - destruct Hp as (Hrl & _ & _).
    assert (H : mcq_reply (McqRoute.rateLimit p)
                  (settle (development e) "Failed to generate MCQs. Please try again."
                     (McqRoute.finish p llm))).
    { apply settle_sat; [|intros err; by right; left].
      apply finish_sat. intros v. apply mcq_interpret_shape. }
    destruct H as [H|[H|(H & Hh & _)]]; rewrite H.
    + split; [cbn; tauto | intros Hx; discriminate Hx].
    + split; [cbn; tauto | intros Hx; discriminate Hx].
    + split; [cbn; tauto|]. intros _. rewrite Hh, Hrl. reflexivity.
  - destruct Hp as [H|[H|H]]; rewrite H;
      (split; [cbn; tauto | intros Hx; discriminate Hx]).
  - done.
Qed.

(** X10.  Every MCQ in a success of the mcq route has a question text,
    four option texts and a correct answer that is one of the letters A,
    B, C and D in upper case. *)
Theorem mcq_success_items_well_formed e t req llm :
  let r := reply (McqRoute.POST e t req llm) in
  status r = 200%Z ->
  exists items, field "mcqs" (body r) = Some (Arr items)
                /\ forallb returned_ok items = true.
Proof.
  cbn zeta. unfold McqRoute.POST.
  pose proof (mcq_prepare_shape e t req) as Hp.
  destruct (McqRoute.prepare e t req) as [p|r|err]; cbn [reply].
  - assert (H : mcq_reply (McqRoute.rateLimit p)
                  (settle (development e) "Failed to generate MCQs. Please try again."
                     (McqRoute.finish p llm))).
    { apply settle_sat; [|intros err; by right; left].
      apply finish_sat. intros v. apply mcq_interpret_shape. }
    destruct H as [H|[H|(H & _ & Hi)]]; rewrite H; try (intros Hx; discriminate Hx).
    intros _. exact Hi.
  - destruct Hp as [H|[H|H]]; rewrite H; intros Hx; discriminate Hx.
  - done.
Qed.

Lemma count_types_le cards :
  (FlashcardsRoute.count_type "concept" cards
   + FlashcardsRoute.count_type "application" cards
   + FlashcardsRoute.count_type "trick" cards <= Z.of_nat (length cards))%Z.
Proof.
  unfold FlashcardsRoute.count_type.
  induction cards as [|c cards IH]; cbn [List.filter length]; [lia|].
  assert (Hx : forall s,
    (Z.of_nat (Nat.b2n (JsString.eqb s (js "concept")))
     + Z.of_nat (Nat.b2n (JsString.eqb s (js "application")))
     + Z.of_nat (Nat.b2n (JsString.eqb s (js "trick"))) <= 1)%Z).
  { intros s.
    destruct (JsString.eqb s (js "concept")) eqn:E1;
      [apply JsStringFacts.eqb_eq in E1; subst s; vm_compute; discriminate|].
    destruct (JsString.eqb s (js "application")) eqn:E2;
      [apply JsStringFacts.eqb_eq in E2; subst s; vm_compute; discriminate|].
    destruct (JsString.eqb s (js "trick")); cbn; lia. }
  unfold is_str in *. destruct (FlashcardsRoute.card_type c) as [| | |s| |];
    cbn [length]; try lia.
  specialize (Hx s).
  destruct (JsString.eqb s (js "concept")), (JsString.eqb s (js "application")),
    (JsString.eqb s (js "trick")); cbn [length Nat.b2n] in *; lia.
Qed.

Lemma flashcards_interpret_shape lvl txt rl v :
  flow_sat flashcards_reply (FlashcardsRoute.interpret lvl txt rl v).
Proof.
  unfold FlashcardsRoute.interpret.
  apply bind_sat; [apply RouteFacts.prop_no_return|]. intros st.
  destruct (is_str st "ERROR"); [cbn; by left|].
  destruct (if is_str st "OK" then field "flashcards" v else None) as [[| | | |items|]|];
    try done.
  apply bind_sat.
  { apply RouteFacts.flow_map_no_return. intros. apply RouteFacts.to_card_no_return. }
  intros mapped. destruct (List.filter FlashcardsRoute.kept mapped) as [|c0 cs] eqn:E;
    [cbn; by left|].
  cbn [flow_sat]. right. split; [reflexivity|].
  pose proof (count_types_le (c0 :: cs)) as Hc.
  exists (Z.of_nat (length (c0 :: cs))),
    (FlashcardsRoute.count_type "concept" (c0 :: cs)),
    (FlashcardsRoute.count_type "application" (c0 :: cs)),
    (FlashcardsRoute.count_type "trick" (c0 :: cs)).
  repeat split; try reflexivity; try exact Hc;
    unfold FlashcardsRoute.count_type; cbn [length]; lia.
Qed.

(** X11.  A success of the flashcards route reports at least one card,
    and its three per-type counts are not negative and add up to no more
    than the total. *)
Theorem flashcards_counts_within_total e t req llm s :
  let r := reply (fst (FlashcardsRoute.POST e t req llm s)) in
  status r = 200%Z ->
  exists total concept application trick,
    metadata_count "total_cards" (body r) = Some total
    /\ metadata_count "concept_cards" (body r) = Some concept
    /\ metadata_count "application_cards" (body r) = Some application
    /\ metadata_count "trick_cards" (body r) = Some trick
    /\ (1 <= total /\ 0 <= concept /\ 0 <= application /\ 0 <= trick
        /\ concept + application + trick <= total)%Z.
Proof.
  cbn zeta. unfold FlashcardsRoute.POST.
  pose proof (HandlerFacts.flashcards_prepare_ok e t req s) as [_ H].
  destruct (FlashcardsRoute.prepare e t req s) as [[p|r|err] s'];
    cbn [fst snd reply] in *.
  - assert (Hs : flashcards_reply
                   (settle (development e)
                      "Failed to generate flashcards. Please try again."
                      (FlashcardsRoute.finish p llm)) \/
                 status (settle (development e)
                      "Failed to generate flashcards. Please try again."
                      (FlashcardsRoute.finish p llm)) = 500%Z).
    { apply (settle_sat (fun r => flashcards_reply r \/ status r = 500%Z));
        [|intros; by right].
      apply (finish_sat (fun r => flashcards_reply r \/ status r = 500%Z)).
      intros v. pose proof (flashcards_interpret_shape
                              (FlashcardsRoute.learningLevel p)
                              (FlashcardsRoute.sanitizedContent p)
                              (FlashcardsRoute.rateLimit p) v) as Hv.
      destruct (FlashcardsRoute.interpret _ _ _ v); cbn in *; auto. }
    destruct Hs as [[Hs|(_ & Hs)]|Hs]; try (rewrite Hs; intros Hx; discriminate Hx).
    intros _. exact Hs.
  - intros Hs. by destruct H.
  - done.
Qed.

End ShapeFacts.

Module SizeFacts.
Import Json.

Lemma flow_map_length {A B} (f : nat -> A -> flow B) l : forall i ys,
  flow_map f i l = Go ys -> length ys = length l.
Proof.
  induction l as [|x l IH]; intros i ys; cbn [flow_map].
  - intros H. by injection H as <-.
  - destruct (f i x) as [y| |]; cbn [mbind flow_mbind flow_bind];
      [|intros H; discriminate H..].
    destruct (flow_map f (S i) l) as [ys'| |] eqn:E; cbn [mbind flow_mbind flow_bind];
      [|intros H; discriminate H..].
    intros H. injection H as <-. cbn [length]. f_equal. by eapply IH.
Qed.

(** Towards zero is downwards for what is not negative. *)
Lemma truncate_floor q : (0 <= q)%Q -> JsNumber.truncate q = Qfloor q.
Proof.
  destruct q as [n d]. unfold Qle, JsNumber.truncate, Qfloor. cbn [Qnum Qden].
  intros H. apply Z.quot_div_nonneg; lia.
Qed.

Lemma floor_nonneg q : (0 <= q)%Q -> (0 <= Qfloor q)%Z.
Proof. intros H. apply (Qfloor_resp_le 0 q) in H. exact H. Qed.

Lemma slice_to_length {A} q (items : list A) :
  (0 <= q)%Q ->
  length (JsNumber.slice_to (JsNumber.Finite q) items)
  = Nat.min (Z.to_nat (Qfloor q)) (length items).
Proof.
  intros H. unfold JsNumber.slice_to. rewrite (truncate_floor q H).
  pose proof (floor_nonneg q H) as Hf.
  destruct (Z.ltb_spec (Qfloor q) 0) as [Hn|_]; [lia|]. apply length_take.
Qed.

(** [body.num_questions || 10] is never [NaN]. *)
Lemma or_default_number o d : McqRoute.or_default o d <> JsNumber.NaN.
Proof.
  destruct o as [[q| |neg]|]; unfold McqRoute.or_default, JsNumber.or_else;
    cbn [JsNumber.truthy]; [destruct (negb _)|..]; discriminate.
Qed.

(** What the range check of [validateInput] lets through. *)
Lemma in_range n :
  n <> JsNumber.NaN ->
  JsNumber.ltb n (JsNumber.of_Z 1) || JsNumber.ltb (JsNumber.of_Z 50) n = false ->
  exists q, n = JsNumber.Finite q /\ (1 <= q <= 50)%Q.
Proof.
  intros Hn [H1 H2]%orb_false_iff. destruct n as [q| |neg]; [|done|].
  - exists q. split; [reflexivity|].
    unfold JsNumber.ltb, JsNumber.of_Z in H1, H2.
    apply negb_false_iff, Qle_bool_iff in H1, H2. done.
  - destruct neg; [discriminate H1|discriminate H2].
Qed.

Lemma mcq_prepare_count e t req p :
  McqRoute.prepare e t req = Go p ->
  exists q, McqRoute.numQuestions p = JsNumber.Finite q /\ (1 <= q <= 50)%Q.
Proof.
  unfold McqRoute.prepare.
  destruct (negb (RateLimit.allowed _)); [intros H; discriminate H|].
  destruct (match content_length req with Some _ => _ | None => _ end);
    [intros H; discriminate H|].
  destruct (payload req) as [b|]; [|intros H; discriminate H].
  destruct (McqRoute.validateInput _ _ _) eqn:Ev; [intros H; discriminate H|].
  destruct (negb (api_key e)); [intros H; discriminate H|].
  intros H. injection H as <-. cbn [McqRoute.numQuestions].
  unfold McqRoute.validateInput in Ev.
  destruct (length (JsString.trim _) =? 0)%nat; [discriminate Ev|]. cbn zeta in Ev.
  destruct (length (McqRoute.sanitizeText _) =? 0)%nat; [discriminate Ev|].
  destruct (McqRoute.MAX_TEXT_LENGTH <? _)%nat; [discriminate Ev|].
  destruct (JsNumber.ltb _ _ || JsNumber.ltb _ _) eqn:En; [discriminate Ev|].
  apply in_range; [apply or_default_number|exact En].
Qed.

(** X12.  How many MCQs a success of the mcq route returns.  The number
    asked for is a finite number between 1 and 50, whole or not.  From a
    reply that is a bare array (the old format) the route takes as many
    items as the integral part of that number says, at most; from a reply
    in the current format it takes all the items, also when they are more
    than were asked for. *)
Theorem mcq_reply_sizes e t req p raw items fields :
  McqRoute.prepare e t req = Go p ->
  raw <> [] ->
  lookup_field (js "status") fields = Some (Str (js "OK")) ->
  lookup_field (js "mcqs") fields = Some (Arr items) ->
  let bare := reply (McqRoute.POST e t req (Content (Some raw) (inr (Arr items)))) in
  let current := reply (McqRoute.POST e t req (Content (Some raw) (inr (Obj fields)))) in
  (exists q, McqRoute.numQuestions p = JsNumber.Finite q /\ (1 <= q <= 50)%Q
     /\ (status bare = 200%Z ->
         exists mcqs, field "mcqs" (body bare) = Some (Arr mcqs)
           /\ length mcqs = Nat.min (Z.to_nat (Qfloor q)) (length items)))
  /\ (status current = 200%Z ->
      exists mcqs, field "mcqs" (body current) = Some (Arr mcqs)
        /\ length mcqs = length items).
Proof.
  intros Hp Hraw Hst Hm. cbn zeta.
  destruct (mcq_prepare_count e t req p Hp) as (q & Hq & Hr).
  assert (Hne : nonempty (Some raw) = Some raw) by (by destruct raw).
  unfold McqRoute.POST. rewrite Hp. cbn [reply].
  unfold McqRoute.finish, received. rewrite Hne.
  cbn [mbind flow_mbind flow_bind json_parse]. split.
  - exists q. split; [exact Hq|]. split; [exact Hr|].
    unfold McqRoute.interpret. cbn [prop mbind flow_mbind flow_bind].
    change (is_str None "ERROR") with false. change (is_str None "OK") with false.
    cbv iota. rewrite Hq.
    destruct (flow_map _ 0 (JsNumber.slice_to _ items)) as [ys| |] eqn:E;
      cbn [mbind flow_mbind flow_bind rethrow settle].
    + intros _. exists ys. split; [reflexivity|].
      apply flow_map_length in E. rewrite E. apply slice_to_length.
      destruct Hr as [Hr _]. by apply (Qle_trans 0 1 q).
    + exfalso.
      pose proof (RouteFacts.flow_map_no_return
                    (fun i => McqRoute.format_item (McqRoute.includeExplanations p) (Some i))
                    (JsNumber.slice_to (JsNumber.Finite q) items) 0
                    (fun i x => RouteFacts.format_item_no_return _ _ x)) as Hn.
      by rewrite E in Hn.
    + intros H. discriminate H.
  - unfold McqRoute.interpret. cbn [prop mbind flow_mbind flow_bind field].
    rewrite Hst, Hm.
    change (is_str (Some (Str (js "OK"))) "ERROR") with false.
    change (is_str (Some (Str (js "OK"))) "OK") with true. cbv iota.
    destruct items as [|item items]; [intros H; discriminate H|].
    destruct (flow_map _ 0 (item :: items)) as [ys| |] eqn:E;
      cbn [mbind flow_mbind flow_bind rethrow settle].
    + intros _. exists ys. split; [reflexivity|]. by apply flow_map_length in E.
    + exfalso.
      pose proof (RouteFacts.flow_map_no_return
                    (fun _ : nat => McqRoute.format_item (McqRoute.includeExplanations p) None)
                    (item :: items) 0
                    (fun i x => RouteFacts.format_item_no_return _ _ x)) as Hn.
      by rewrite E in Hn.
    + intros H. discriminate H.
Qed.

End SizeFacts.

Module GateFacts.
Import Json RateLimit Server ServerView.

Lemma flashcards_prepare_gate e t req s :
  match fst (FlashcardsRoute.prepare e t req s) with
  | Go p => api_key e = true /\ is_Some (payload req)
  | Return r => status r <> 200%Z
  | Throw _ => False
  end.
Proof.
  unfold FlashcardsRoute.prepare.
  destruct (checkRateLimit _ t s) as [rl s']. cbn [fst].
  destruct (allowed rl); cbn [negb]; [|cbn; discriminate].
  destruct (payload req) as [b|]; [|cbn; discriminate].
  destruct (FlashcardsRoute.validateInput _ _); [cbn; discriminate|].
  destruct (api_key e); cbn [negb]; [|cbn; discriminate].
  split; [done|by eexists].
Qed.

Lemma concept_prepare_gate e t req s :
  match fst (ConceptBoosterRoute.prepare e t req s) with
  | Go p => api_key e = true /\ is_Some (payload req)
  | Return r => status r <> 200%Z
  | Throw _ => False
  end.
Proof.
  unfold ConceptBoosterRoute.prepare.
  destruct (checkRateLimit _ t s) as [rl s']. cbn [fst].
  destruct (allowed rl); cbn [negb]; [|cbn; discriminate].
  destruct (match content_length req with Some _ => _ | None => _ end);
    [cbn; discriminate|].
  destruct (payload req) as [b|]; [|cbn; discriminate].
  destruct (ConceptBoosterRoute.validateInput _ _); [cbn; discriminate|].
  destruct (api_key e); cbn [negb]; [|cbn; discriminate].
  split; [done|by eexists].
Qed.

Lemma format_prepare_gate e req :
  match FormatRoute.prepare e req with
  | Go p => api_key e = true /\ is_Some (payload req)
  | Return r => status r <> 200%Z
  | Throw _ => True
  end.
Proof.
  unfold FormatRoute.prepare.
  destruct (api_key e); cbn [negb]; [|cbn; discriminate].
  destruct (payload req) as [b|]; [|done].
  destruct (JsString.trim _); [cbn; discriminate|].
  split; [done|by eexists].
Qed.

(** X13.  In every route a response with status 200 comes from a call of
    the model, and the model is called only with an API key in the
    environment and a request body that parsed as JSON. *)
Theorem model_called_behind_the_checks e t c llm st :
  let o := fst (handle e t c llm st) in
  (status (reply o) = 200%Z -> is_Some (sent o))
  /\ (is_Some (sent o) -> api_key e = true /\ has_body c = true).
Proof.
  cbn zeta. destruct c as [req|req|req|req]; cbn [handle fst has_body].
  - unfold FormatRoute.POST. pose proof (format_prepare_gate e req) as H.
    destruct (FormatRoute.prepare e req) as [p|r|err]; cbn [reply sent].
    + split; [by eexists|]. intros _. destruct H as [H1 H2].
      split; [done|by apply bool_decide_eq_true].
    + split; [done|]. by intros [? ?].
    + split; [intros Hx; discriminate Hx|]. by intros [? ?].
  - unfold McqRoute.POST. pose proof (ShapeFacts.mcq_prepare_shape e t req) as H.
    destruct (McqRoute.prepare e t req) as [p|r|err]; cbn [reply sent]; [| |done].
    + split; [by eexists|]. intros _. destruct H as (_ & H1 & b & H2).
      split; [done|]. apply bool_decide_eq_true. by exists b.
    + split; [|by intros [? ?]].
      destruct H as [H|[H|H]]; rewrite H; intros Hx; discriminate Hx.
  - pose proof (flashcards_prepare_gate e t req (flashcards_store st)) as H.
    unfold FlashcardsRoute.POST.
    destruct (FlashcardsRoute.prepare e t req _) as [[p|r|err] s'];
      cbn [fst reply sent] in *; [| |done].
    + split; [by eexists|]. intros _. destruct H as [H1 H2].
      split; [done|by apply bool_decide_eq_true].
    + split; [done|]. by intros [? ?].
  - pose proof (concept_prepare_gate e t req (concept_store st)) as H.
    unfold ConceptBoosterRoute.POST.
    destruct (ConceptBoosterRoute.prepare e t req _) as [[p|r|err] s'];
      cbn [fst reply sent] in *; [| |done].
    + split; [by eexists|]. intros _. destruct H as [H1 H2].
      split; [done|by apply bool_decide_eq_true].
    + split; [done|]. by intros [? ?].
Qed.

(** X14.  When the call of the model is rejected, every route answers
    with status 500 and the code [INTERNAL_ERROR]; outside development
    the message is the default text of the route, whatever the rejection
    says. *)
Theorem upstream_rejection_reply e t c err st :
  is_Some (sent (fst (handle e t c (Rejected err) st))) ->
  reply (fst (handle e t c (Rejected err) st))
  = respond 500
      (Obj [(js "error", Str (if development e then exn_message err
                              else js (failure_text c)));
            (js "code", Str (js "INTERNAL_ERROR"))]).
Proof.
  destruct c as [req|req|req|req]; cbn [handle fst failure_text].
  - unfold FormatRoute.POST.
    destruct (FormatRoute.prepare e req) as [p|r|er]; cbn [reply sent];
      [reflexivity | by intros [? ?]..].
  - unfold McqRoute.POST.
    destruct (McqRoute.prepare e t req) as [p|r|er]; cbn [reply sent];
      [reflexivity | by intros [? ?]..].
  - unfold FlashcardsRoute.POST.
    destruct (FlashcardsRoute.prepare e t req _) as [[p|r|er] s'];
      cbn [fst reply sent]; [reflexivity | by intros [? ?]..].
  - unfold ConceptBoosterRoute.POST.
    destruct (ConceptBoosterRoute.prepare e t req _) as [[p|r|er] s'];
      cbn [fst reply sent]; [reflexivity | by intros [? ?]..].
Qed.

End GateFacts.

Module TaskFacts.
Import Server ModelRouter Tasks.

Lemma nonempty_Some o (m : jsstring) : nonempty o = Some m -> m <> [].
Proof. destruct o as [[|c s]|]; intros H; try discriminate H. by injection H as <-. Qed.

Lemma getModel_named e t :
  model (getModel e t) <> [] /\ temperature (getModel e t) = fst (temperatures t).
Proof.
  split; [|reflexivity]. unfold getModel. cbn [model].
  destruct (nonempty (taskModels e t)) as [m|] eqn:E1; [by eapply nonempty_Some|].
  destruct (nonempty (BRAINBOLT_MODEL e)) as [m|] eqn:E2; [by eapply nonempty_Some|].
  by destruct t.
Qed.

Lemma override_named requested c t :
  model c <> [] -> temperature c = fst (temperatures t) ->
  model (override requested c) <> []
  /\ temperature (override requested c) = fst (temperatures t).
Proof.
  intros Hm Ht. unfold override.
  destruct (nonempty requested) as [m|] eqn:E; [|done].
  destruct (JsString.eqb m (js "auto")); [done|]. cbn [model temperature].
  split; [by eapply nonempty_Some|done].
Qed.

Lemma routed requested e t :
  model (override requested (getModel e t)) <> []
  /\ temperature (override requested (getModel e t)) = fst (temperatures t).
Proof. by apply override_named; apply getModel_named. Qed.

(** X15.  Whenever a route calls the model, the identifier it sends is
    not empty, and the temperature is that of the task of the route,
    whatever model the request asked for. *)
Theorem upstream_call_well_formed e t c llm st u :
  sent (fst (handle e t c llm st)) = Some u ->
  sent_model u <> [] /\ sent_temperature u = fst (temperatures (task_of c)).
Proof.
  destruct c as [req|req|req|req]; cbn [handle fst task_of].
  - unfold FormatRoute.POST.
    destruct (FormatRoute.prepare e req) as [p|r|er] eqn:E; cbn [sent];
      intros H; try discriminate H. injection H as <-.
    unfold FormatRoute.prepare in E.
    destruct (negb (api_key e)); [discriminate E|].
    destruct (payload req) as [b|]; [|discriminate E].
    destruct (JsString.trim _); [discriminate E|]. injection E as <-.
    apply routed.
  - unfold McqRoute.POST.
    destruct (McqRoute.prepare e t req) as [p|r|er] eqn:E; cbn [sent];
      intros H; try discriminate H. injection H as <-.
    unfold McqRoute.prepare in E.
    destruct (negb (RateLimit.allowed _)); [discriminate E|].
    destruct (match content_length req with Some _ => _ | None => _ end);
      [discriminate E|].
    destruct (payload req) as [b|]; [|discriminate E].
    destruct (McqRoute.validateInput _ _ _); [discriminate E|].
    destruct (negb (api_key e)); [discriminate E|]. injection E as <-.
    apply routed.
  - unfold FlashcardsRoute.POST.
    destruct (FlashcardsRoute.prepare e t req _) as [[p|r|er] s'] eqn:E;
      cbn [fst sent]; intros H; try discriminate H. injection H as <-.
    unfold FlashcardsRoute.prepare in E.
    destruct (RateLimit.checkRateLimit _ t _) as [rl s1].
    injection E as E _.
    destruct (negb (RateLimit.allowed _)); [discriminate E|].
    destruct (payload req) as [b|]; [|discriminate E].
    destruct (FlashcardsRoute.validateInput _ _); [discriminate E|].
    destruct (negb (api_key e)); [discriminate E|]. injection E as <-.
    apply routed.
  - unfold ConceptBoosterRoute.POST.
    destruct (ConceptBoosterRoute.prepare e t req _) as [[p|r|er] s'] eqn:E;
      cbn [fst sent]; intros H; try discriminate H. injection H as <-.
    unfold ConceptBoosterRoute.prepare in E.
    destruct (RateLimit.checkRateLimit _ t _) as [rl s1].
    injection E as E _.
    destruct (negb (RateLimit.allowed _)); [discriminate E|].
    destruct (match content_length req with Some _ => _ | None => _ end);
      [discriminate E|].
    destruct (payload req) as [b|]; [|discriminate E].
    destruct (ConceptBoosterRoute.validateInput _ _); [discriminate E|].
    destruct (negb (api_key e)); [discriminate E|]. injection E as <-.
    apply routed.
Qed.

(** X16.  Every configuration [getAllModelConfigs] lists names a model,
    whatever the environment; with no model variable set, every one of
    them passes [isValidModel]. *)
Theorem router_defaults_are_valid e :
  Forall (fun kc => model (snd kc) <> []) (getAllModelConfigs e)
  /\ Forall (fun kc => isValidModel (Some (model (snd kc))) = true)
       (getAllModelConfigs
          (Environment (api_key e) (development e) None None None None None)).
Proof.
  split.
  - unfold getAllModelConfigs. cbn [List.map snd].
    repeat constructor; apply getModel_named.
  - unfold getAllModelConfigs. cbn [List.map snd]. repeat constructor.
Qed.

End TaskFacts.

Module BodyFacts.
Import Server ServerView.

(** X17.  A request whose body is not JSON never reaches the model.  The
    format route answers it with status 500; the other routes answer
    with 400, unless the rate limit (429) or the size limit (413) has
    answered before. *)
Theorem unparsable_body_replies e t c llm st :
  has_body c = false ->
  let o := fst (handle e t c llm st) in
  sent o = None
  /\ match c with
     | Format _ => status (reply o) = 500%Z
     | _ => In (status (reply o)) [400; 413; 429]%Z
     end.
Proof.
  intros Hb. cbn zeta. destruct c as [req|req|req|req]; cbn [has_body] in Hb;
    apply bool_decide_eq_false in Hb;
    (destruct (payload req) as [b|] eqn:Ep; [by destruct Hb; eexists|]);
    cbn [handle fst].
  - unfold FormatRoute.POST, FormatRoute.prepare. rewrite Ep.
    by destruct (api_key e).
  - unfold McqRoute.POST, McqRoute.prepare. rewrite Ep.
    rewrite HandlerFacts.getRateLimiter_check_allows. cbn [RateLimit.allowed negb].
    destruct (match content_length req with Some _ => _ | None => _ end);
      cbn; tauto.
  - unfold FlashcardsRoute.POST, FlashcardsRoute.prepare. rewrite Ep.
    destruct (RateLimit.checkRateLimit _ t _) as [rl s1].
    destruct (RateLimit.allowed rl); cbn; tauto.
  - unfold ConceptBoosterRoute.POST, ConceptBoosterRoute.prepare. rewrite Ep.
    destruct (RateLimit.checkRateLimit _ t _) as [rl s1].
    destruct (RateLimit.allowed rl); cbn [negb]; [|cbn; tauto].
    destruct (match content_length req with Some _ => _ | None => _ end);
      cbn; tauto.
Qed.

End BodyFacts.

(* ===================================================================== *)
(** ** The text of the reply *)
(* ===================================================================== *)

Module ReplyTextFacts.
Import Regex RegexFacts RegexMore ReplyText.

Lemma before_cons pv c a : before pv (c :: a) = before (Some c) a.
Proof.
  unfold before. destruct a as [|d a]; [done|].
  change (last (c :: d :: a)) with (last (d :: a)).
  destruct (last (d :: a)) eqn:E; [done|].
  by apply last_None in E.
Qed.

(** Units at which the pattern cannot start are skipped. *)
Lemma find_from_skip ci r a : forall pv s,
  Forall (fun c => forall pv' s', rmatch ci r (Pos pv' (c :: s')) Some = None) a ->
  find_from ci r pv (a ++ s)
  = match find_from ci r (before pv a) s with
    | Some (skipped, q) => Some (a ++ skipped, q)
    | None => None
    end.
Proof.
  induction a as [|c a IH]; intros pv s Ha.
  - cbn. by destruct (find_from ci r pv s) as [[? ?]|].
  - apply Forall_cons in Ha as [Hc Ha]. cbn [app find_from].
    rewrite Hc, (IH _ _ Ha), before_cons.
    by destruct (find_from ci r (before (Some c) a) s) as [[? ?]|].
Qed.

Lemma any_matches c : cls_match false true [] c = true.
Proof. reflexivity. Qed.

(** The greedy iteration of [any] first tries the continuation at the
    end of the subject, then one unit before it, and so on. *)
Lemma star_any_none k : forall s pv fuel,
  (forall pv' s', s' `suffix_of` s -> k (Pos pv' s') = None) ->
  star_loop (rmatch false any) fuel (Pos pv s) k = None.
Proof.
  induction s as [|c s IH]; intros pv fuel Hk.
  - destruct fuel; cbn [star_loop rmatch any rest]; by apply Hk.
  - destruct fuel as [|f]; cbn [star_loop]; [by apply Hk|].
    cbn [rmatch any rest]. rewrite any_matches. cbn [rest length].
    rewrite (proj2 (Nat.ltb_lt _ _)) by lia.
    rewrite IH; [by apply Hk|].
    intros pv' s' Hs. apply Hk. by apply suffix_cons_r.
Qed.

Lemma star_any_last k q b :
  (forall pv, k (Pos pv b) = Some q) ->
  (forall pv s', s' `suffix_of` b -> s' <> b -> k (Pos pv s') = None) ->
  forall a pv fuel, (length (a ++ b) < fuel)%nat ->
    star_loop (rmatch false any) fuel (Pos pv (a ++ b)) k = Some q.
Proof.
  intros Hq Hn. induction a as [|c a IH]; intros pv fuel Hf.
  - destruct fuel as [|f]; [cbn in Hf; lia|]. cbn [app star_loop].
    destruct b as [|c b']; cbn [rmatch any rest]; [by apply Hq|].
    rewrite any_matches. cbn [rest length].
    rewrite (proj2 (Nat.ltb_lt _ _)) by lia.
    rewrite star_any_none; [by apply Hq|].
    intros pv' s' Hs. apply Hn; [by apply suffix_cons_r|].
    intros ->. apply suffix_length in Hs. cbn in Hs. lia.
  - destruct fuel as [|f]; [cbn in Hf; lia|]. cbn [app star_loop].
    cbn [rmatch any rest]. rewrite any_matches. cbn [rest length].
    rewrite (proj2 (Nat.ltb_lt _ _)) by lia.
    rewrite IH; [done|]. cbn in Hf. lia.
Qed.

Lemma cls_single (a c : N) : cls_match false false [(a, a)] c = (c =? a).
Proof.
  unfold cls_match, in_ranges. cbn.
  destruct (N.eqb_spec c a) as [->|Hc].
  - by rewrite N.leb_refl.
  - destruct (a <=? c) eqn:E1, (c <=? a) eqn:E2; try done.
    apply N.leb_le in E1, E2. lia.
Qed.

Lemma object_cannot_start c :
  c <> 123 -> forall pv s, rmatch false re_object (Pos pv (c :: s)) Some = None.
Proof.
  intros Hc pv s. unfold re_object, chr. cbn [seqs fold_right rmatch rest].
  change (cls_match false false _ c) with (cls_match false false [(123, 123)] c).
  rewrite cls_single. by destruct (N.eqb_spec c 123).
Qed.

Lemma closes (c : N) pv s :
  rmatch false (chr "}") (Pos pv (c :: s)) (fun p' => Some p')
  = if c =? 125 then Some (Pos (Some c) s) else None.
Proof.
  unfold chr. cbn [rmatch rest].
  change (cls_match false false _ c) with (cls_match false false [(125, 125)] c).
  by rewrite cls_single.
Qed.

Lemma find_object pre mid post :
  Forall (fun c => c <> 123) pre -> Forall (fun c => c <> 125) post ->
  find_from false re_object None (pre ++ 123 :: mid ++ 125 :: post)
  = Some (pre, Pos (Some 125) post).
Proof.
  intros Hpre Hpost. rewrite find_from_skip.
  2:{ eapply Forall_impl; [exact Hpre|]. intros c Hc. by apply object_cannot_start. }
  cbn [find_from].
  assert (Hm : rmatch false re_object
                 (Pos (before None pre) (123 :: mid ++ 125 :: post)) Some
               = Some (Pos (Some 125) post)).
  { unfold re_object. cbn [seqs fold_right]. cbn [rmatch rest].
    apply (star_any_last _ _ (125 :: post)).
    - intros pv. by rewrite closes.
    - intros pv s' Hs Hne. destruct s' as [|c s'']; [done|].
      rewrite closes. destruct (N.eqb_spec c 125) as [->|Hc]; [|done].
      exfalso. destruct Hs as [l Hl]. destruct l as [|x l]; [by injection Hl as <-|].
      injection Hl as _ Hl. rewrite Forall_forall in Hpost.
      apply (Hpost 125); [|done]. rewrite Hl. set_solver.
    - cbn [rest]. lia. }
  rewrite Hm. by rewrite app_nil_r.
Qed.

(** X18.  The concept-booster route parses what stands between the first
    opening brace of the reply and its last closing brace, both
    included, whatever comes before and after; a reply with no opening
    brace is parsed as it is, trimmed. *)
Theorem extract_object_span pre mid post :
  Forall (fun c => c <> 123) pre -> Forall (fun c => c <> 125) post ->
  extract_object (pre ++ 123 :: mid ++ 125 :: post) = 123 :: mid ++ [125]
  /\ extract_object pre = JsString.trim pre.
Proof.
  intros Hpre Hpost. unfold extract_object, match_first. split.
  - rewrite find_object by done. cbn [rest].
    rewrite drop_app_length. rewrite !length_app. cbn [length]. rewrite length_app.
    cbn [length].
    replace (length pre + S (length mid + S (length post)) - length pre - length post)%nat
      with (length (123 :: mid ++ [125])) by (cbn; rewrite length_app; cbn; lia).
    change (123 :: mid ++ 125 :: post) with ((123 :: mid) ++ [125] ++ post).
    rewrite app_assoc. change ((123 :: mid) ++ [125]) with (123 :: mid ++ [125]).
    by rewrite take_app_length.
  - pose proof (find_from_skip false re_object pre None []) as H.
    rewrite app_nil_r in H. rewrite H.
    2:{ eapply Forall_impl; [exact Hpre|]. intros c Hc. by apply object_cannot_start. }
    reflexivity.
Qed.

End ReplyTextFacts.

Module FenceFacts.
Import Regex RegexFacts RegexMore ReplyText ReplyTextFacts.

(** The class [\s] holds the units [trim] takes for white space. *)
Lemma ws_is_space c : cls_match false false space_ranges c = JsString.is_space c.
Proof.
  unfold cls_match, in_ranges, space_ranges, JsString.is_space. cbn [xorb existsb].
  apply eq_true_iff_eq.
  rewrite !orb_true_iff, !andb_true_iff, !N.leb_le, !N.eqb_eq. lia.
Qed.

Lemma before_app pv a b : before pv (a ++ b) = before (before pv a) b.
Proof.
  revert pv. induction a as [|c a IH]; intros pv; [done|].
  cbn [app]. by rewrite !before_cons, IH.
Qed.

(** A literal matches its own text. *)
Lemma lit_units (l x : jsstring) k pv :
  rmatch false (fold_right (fun u r => Seq (Cls false [(u, u)]) r) Eps l)
    (Pos pv (l ++ x)) k
  = k (Pos (before pv l) x).
Proof.
  revert pv. induction l as [|c l IH]; intros pv; [done|].
  cbn [fold_right app rmatch rest]. rewrite cls_single, N.eqb_refl.
  by rewrite IH, before_cons.
Qed.

(** A literal does not match where another unit stands first. *)
Lemma lit_mismatch (c d : N) (l x : jsstring) k pv :
  d <> c ->
  rmatch false (fold_right (fun u r => Seq (Cls false [(u, u)]) r) Eps (c :: l))
    (Pos pv (d :: x)) k = None.
Proof.
  intros Hd. cbn [fold_right rmatch rest]. rewrite cls_single.
  by destruct (N.eqb_spec d c).
Qed.

Lemma rmatch_cls ci neg rs c x pv k :
  rmatch ci (Cls neg rs) (Pos pv (c :: x)) k
  = if cls_match ci neg rs c then k (Pos (Some c) x) else None.
Proof. reflexivity. Qed.

(** The greedy iteration of [\s] runs to the end of the white space and
    goes on from there when the continuation accepts that. *)
Lemma star_ws_full k q s :
  match s with c :: _ => JsString.is_space c = false | [] => True end ->
  forall w pv fuel,
    Forall (fun c => JsString.is_space c = true) w ->
    k (Pos (before pv w) s) = Some q ->
    (length (w ++ s) < fuel)%nat ->
    star_loop (rmatch false (Cls false space_ranges)) fuel (Pos pv (w ++ s)) k = Some q.
Proof.
  intros Hs. induction w as [|c w IH]; intros pv fuel Hw Hk Hf.
  - destruct fuel as [|f]; [done|]. cbn [app star_loop].
    destruct s as [|c s]; [done|]. by rewrite rmatch_cls, ws_is_space, Hs.
  - destruct fuel as [|f]; [cbn in Hf; lia|].
    apply Forall_cons in Hw as [Hc Hw]. cbn [app star_loop].
    rewrite rmatch_cls, ws_is_space, Hc. cbn [rest length].
    rewrite (proj2 (Nat.ltb_lt _ _)) by lia.
    rewrite (IH (Some c) f Hw); [done| |cbn in Hf; lia].
    by rewrite <- before_cons with (pv := pv).
Qed.

(** Where the iteration of [\s] hands over to the continuation, only
    white space has been passed. *)
Lemma star_ws_reach k q s :
  match s with c :: _ => JsString.is_space c = false | [] => True end ->
  forall u pv fuel,
    Forall (fun c => JsString.is_space c = true) u ->
    star_loop (rmatch false (Cls false space_ranges)) fuel (Pos pv (u ++ s)) k = Some q ->
    exists u1 u2 pv', u = u1 ++ u2 /\ k (Pos pv' (u2 ++ s)) = Some q.
Proof.
  intros Hs. induction u as [|c u IH]; intros pv fuel Hu H.
  - exists [], [], pv. split; [done|]. destruct fuel as [|f]; [done|].
    cbn [app star_loop] in H.
    destruct s as [|c s]; [done|]. by rewrite rmatch_cls, ws_is_space, Hs in H.
  - destruct fuel as [|f]; [by exists [], (c :: u), pv|].
    apply Forall_cons in Hu as [Hc Hu]. cbn [app star_loop] in H.
    rewrite rmatch_cls, ws_is_space, Hc in H. cbn [rest length] in H.
    rewrite (proj2 (Nat.ltb_lt _ _)) in H by lia.
    destruct (star_loop (rmatch false (Cls false space_ranges)) f _ k) as [q'|] eqn:E.
    + injection H as <-. apply IH in E as (u1 & u2 & pv' & -> & E); [|done].
      by exists (c :: u1), u2, pv'.
    + by exists [], (c :: u), pv.
Qed.

(** A run of white space, then a unit that is none. *)
Lemma leading_run (x : jsstring) l :
  last x = Some l -> JsString.is_space l = false ->
  exists u c y, x = u ++ c :: y
    /\ Forall (fun c => JsString.is_space c = true) u
    /\ JsString.is_space c = false /\ In c x.
Proof.
  induction x as [|d x IH]; [done|]. intros Hl Hsp.
  destruct (JsString.is_space d) eqn:E.
  - destruct x as [|d' x]; [cbn in Hl; injection Hl as <-; congruence|].
    destruct (IH Hl Hsp) as (u & c & y & Hx & Hu & Hc & Hin).
    exists (d :: u), c, y. rewrite Hx at 1. repeat split; try done.
    + by constructor.
    + by right.
  - exists [], d, x. repeat split; try done. by left.
Qed.

Lemma trim_fixed s : JsString.trimStart s = s -> JsString.trimStart (rev s) = rev s ->
  JsString.trim s = s.
Proof. intros H1 H2. unfold JsString.trim. by rewrite H1, H2, rev_involutive. Qed.

Lemma trim_ends s :
  JsString.trim s = s ->
  JsString.trimStart s = s /\ JsString.trimStart (rev s) = rev s.
Proof.
  intros H. assert (H1 : JsString.trimStart s = s).
  { rewrite <- H at 1. by rewrite TrimFacts.trim_start. }
  split; [done|]. unfold JsString.trim in H. rewrite H1 in H.
  apply (f_equal (@rev N)) in H. by rewrite rev_involutive in H.
Qed.

Lemma find_from_skip_at ci r a : forall pv s,
  (forall a1 a2, a = a1 ++ a2 -> a2 <> [] ->
     rmatch ci r (Pos (before pv a1) (a2 ++ s)) Some = None) ->
  find_from ci r pv (a ++ s)
  = match find_from ci r (before pv a) s with
    | Some (skipped, q) => Some (a ++ skipped, q)
    | None => None
    end.
Proof.
  induction a as [|c a IH]; intros pv s Ha.
  - cbn. by destruct (find_from ci r pv s) as [[? ?]|].
  - cbn [app find_from].
    pose proof (Ha [] (c :: a) eq_refl ltac:(done)) as H0.
    change (before pv []) with pv in H0. cbn [app] in H0. rewrite H0.
    rewrite IH, before_cons.
    + by destruct (find_from ci r (before (Some c) a) s) as [[? ?]|].
    + intros a1 a2 -> Ha2. rewrite <- before_cons with (pv := pv).
      by apply (Ha (c :: a1) a2).
Qed.

Lemma find_from_here ci r pv s q :
  rmatch ci r (Pos pv s) Some = Some q -> find_from ci r pv s = Some ([], q).
Proof. intros H. destruct s; cbn [find_from]; by rewrite H. Qed.

Section Unwrap.
Variables (w1 w2 body : jsstring).
Hypothesis Hw1 : Forall (fun c => JsString.is_space c = true) w1.
Hypothesis Hw2 : Forall (fun c => JsString.is_space c = true) w2.
Hypothesis Hticks : Forall (fun c => c <> 96) body.
Hypothesis Hbody : body <> [].
Hypothesis Htrim : JsString.trim body = body.

Lemma body_head : match body with c :: _ => JsString.is_space c = false | [] => True end.
Proof using Htrim. apply TrimFacts.trimStart_fixed, trim_ends, Htrim. Qed.

Lemma body_last : exists l, last body = Some l /\ JsString.is_space l = false.
Proof using All.
  destruct (trim_ends _ Htrim) as [_ H]. apply TrimFacts.trimStart_fixed in H.
  destruct (rev body) as [|l x] eqn:E.
  - apply (f_equal (@rev N)) in E. rewrite rev_involutive in E. done.
  - exists l. split; [|done]. apply (f_equal (@rev N)) in E.
    rewrite rev_involutive in E. rewrite E. cbn [rev]. by rewrite last_snoc.
Qed.

Lemma close_after_body pv :
  rmatch false re_close (Pos pv (w2 ++ js "```")) Some = Some (Pos (Some 96) []).
Proof using All.
  unfold re_close. cbn [seqs fold_right]. cbn [rmatch].
  apply star_ws_full; [reflexivity|exact Hw2| |cbn [rest]; lia].
  unfold lit. rewrite <- (app_nil_r (js "```")) at 2. by rewrite lit_units.
Qed.

Lemma no_close_in_body a1 a2 pv :
  body = a1 ++ a2 -> a2 <> [] ->
  rmatch false re_close (Pos pv (a2 ++ w2 ++ js "```")) Some = None.
Proof using All.
  intros Hsplit Ha2. destruct body_last as (l & Hl & Hsp).
  assert (Hl2 : last a2 = Some l).
  { rewrite Hsplit in Hl. destruct a2 as [|d a2]; [done|].
    by rewrite last_app_cons in Hl. }
  destruct (leading_run a2 l Hl2 Hsp) as (u & c & y & Hx & Hu & Hc & Hin).
  assert (Hc96 : c <> 96).
  { rewrite Forall_forall in Hticks. apply Hticks. rewrite Hsplit.
    apply list_elem_of_In, in_or_app. by right. }
  destruct (rmatch false re_close _ Some) as [q|] eqn:E; [|done]. exfalso.
  unfold re_close in E. cbn [seqs fold_right] in E. cbn [rmatch] in E.
  rewrite Hx in E. rewrite <- app_assoc in E. cbn [app] in E.
  apply (star_ws_reach _ _ (c :: y ++ w2 ++ js "```")) in E
    as (u1 & u2 & pv' & -> & E); [|done|done].
  destruct u2 as [|d u2]; cbn [app] in E.
  - unfold lit in E. change (js "```") with (96 :: js "``") in E at 1.
    by rewrite lit_mismatch in E.
  - apply Forall_app in Hu as [_ Hu]. apply Forall_cons in Hu as [Hd _].
    unfold lit in E. change (js "```") with (96 :: js "``") in E at 1.
    rewrite lit_mismatch in E; [done|]. intros ->. done.
Qed.

Lemma close_found pv :
  find_from false re_close pv (body ++ w2 ++ js "```")
  = Some (body, Pos (Some 96) []).
Proof using All.
  rewrite find_from_skip_at.
  2:{ intros a1 a2 Hs Ha2. by eapply no_close_in_body. }
  rewrite (find_from_here _ _ _ _ _ (close_after_body _)). by rewrite app_nil_r.
Qed.

Lemma wrapped_is_trimmed (tag : jsstring) :
  JsString.trim (js "```" ++ tag ++ w1 ++ body ++ w2 ++ js "```")
  = js "```" ++ tag ++ w1 ++ body ++ w2 ++ js "```".
Proof.
  apply trim_fixed; [reflexivity|].
  rewrite !rev_app_distr. reflexivity.
Qed.

Lemma open_found (tag : jsstring) :
  find_from false
    (seqs [Bol; fold_right (fun u r => Seq (Cls false [(u, u)]) r) Eps (js "```" ++ tag);
           Star ws])
    None (js "```" ++ tag ++ w1 ++ body ++ w2 ++ js "```")
  = Some ([], Pos (before None ((js "```" ++ tag) ++ w1)) (body ++ w2 ++ js "```")).
Proof using All.
  apply find_from_here.
  cbn [seqs fold_right]. cbn [rmatch prev].
  rewrite (app_assoc (js "```") tag), lit_units. cbn [rmatch]. unfold ws.
  rewrite (star_ws_full _ (Pos (before (before None (js "```" ++ tag)) w1)
                             (body ++ w2 ++ js "```"))).
  - by rewrite !before_app.
  - pose proof body_head as Hh. destruct body as [|d b]; [done|]. exact Hh.
  - exact Hw1.
  - reflexivity.
  - cbn [rest]. lia.
Qed.

(** A reply that is a fenced block, with or without the [json] tag,
    comes out as what stands between the fences, white space next to
    them left out. *)
Lemma unwrap_tagged :
  strip_fences (js "```json" ++ w1 ++ body ++ w2 ++ js "```") = body.
Proof using All.
  unfold strip_fences.
  change (js "```json" ++ w1 ++ body ++ w2 ++ js "```")
    with (js "```" ++ js "json" ++ w1 ++ body ++ w2 ++ js "```").
  rewrite wrapped_is_trimmed. cbn zeta.
  change (JsString.startsWith (js "```json") _) with true. cbv iota.
  unfold replace_first at 2. unfold re_open_json, lit.
  change (js "```json") with (js "```" ++ js "json").
  rewrite open_found. cbn [app rest].
  unfold replace_first. rewrite close_found. cbn [rest app]. apply app_nil_r.
Qed.

Lemma unwrap_bare :
  JsString.startsWith (js "json") (w1 ++ body) = false ->
  strip_fences (js "```" ++ w1 ++ body ++ w2 ++ js "```") = body.
Proof using All.
  intros Hj. unfold strip_fences.
  pose proof (wrapped_is_trimmed []) as Ht. cbn [app] in Ht. cbn [app]. rewrite Ht.
  cbn zeta.
  assert (Hy : exists c y, w2 ++ js "```" = c :: y /\ c <> 115 /\ c <> 111 /\ c <> 110).
  { destruct Hw2 as [|c w Hc _].
    - exists 96, (js "``"). by repeat split.
    - exists c, (w ++ js "```"). by repeat split; intros ->. }
  destruct Hy as (c0 & y & Hy & Hc1 & Hc2 & Hc3).
  assert (H1 : JsString.startsWith (js "```json")
                 (96 :: 96 :: 96 :: w1 ++ body ++ w2 ++ js "```") = false).
  { change (js "```json") with (96 :: 96 :: 96 :: js "json").
    cbn [JsString.startsWith]. rewrite N.eqb_refl. cbn [andb].
    rewrite app_assoc, Hy.
    assert (Hx : w1 ++ body <> []) by (by destruct w1, body).
    revert Hj Hx. generalize (w1 ++ body). intros x Hj Hx.
    change (js "json") with [106; 115; 111; 110] in *.
    destruct x as [|a [|b [|c [|d x]]]]; [done|..];
      cbn [app JsString.startsWith] in *.
    - destruct (N.eqb_spec 115 c0); [done|]. by rewrite andb_false_r.
    - destruct (N.eqb_spec 111 c0); [done|]. by rewrite !andb_false_r.
    - destruct (N.eqb_spec 110 c0); [done|]. by rewrite !andb_false_r.
    - by rewrite andb_true_r in *. }
  change (js "```" ++ w1 ++ body ++ w2 ++ js "```")
    with (96 :: 96 :: 96 :: w1 ++ body ++ w2 ++ js "```").
  rewrite H1.
  change (JsString.startsWith (js "```") _) with true. cbv iota.
  assert (Hopen :
    find_from false re_open None (96 :: 96 :: 96 :: w1 ++ body ++ w2 ++ js "```")
    = Some ([], Pos (before None ((js "```" ++ []) ++ w1)) (body ++ w2 ++ js "```")))
    by exact (open_found []).
  unfold replace_first at 2. rewrite Hopen. cbn [app rest].
  unfold replace_first. rewrite close_found. cbn [rest app]. apply app_nil_r.
Qed.

End Unwrap.

(** X19.  A reply that is a fenced block, with the [json] tag or
    without it, is handed to [JSON.parse] as what stands between the
    fences, the white space next to them left out. *)
Theorem strip_fences_unwraps (w1 w2 body : jsstring) :
  Forall (fun c => JsString.is_space c = true) w1 ->
  Forall (fun c => JsString.is_space c = true) w2 ->
  Forall (fun c => c <> 96) body ->
  body <> [] ->
  JsString.trim body = body ->
  strip_fences (js "```json" ++ w1 ++ body ++ w2 ++ js "```") = body
  /\ (JsString.startsWith (js "json") (w1 ++ body) = false ->
      strip_fences (js "```" ++ w1 ++ body ++ w2 ++ js "```") = body).
Proof.
  intros H1 H2 H3 H4 H5. split.
  - by apply unwrap_tagged.
  - by apply unwrap_bare.
Qed.

End FenceFacts.

(* ===================================================================== *)
(** ** The limiters *)
(* ===================================================================== *)

Module LimiterFacts.
Import RateLimit RateLimitFacts Limiter.
Open Scope Z_scope.

Lemma live_later now t' s1 s2 k :
  now <= t' -> live now s1 k = live now s2 k -> live t' s1 k = live t' s2 k.
Proof.
  unfold live. intros Ht.
  destruct (s1 !! k) as [e1|], (s2 !! k) as [e2|]; try done.
  - destruct (resetTime e1 <? now) eqn:E1, (resetTime e2 <? now) eqn:E2; try done.
    + intros _. apply Z.ltb_lt in E1, E2.
      destruct (resetTime e1 <? t') eqn:E3, (resetTime e2 <? t') eqn:E4; try done;
        apply Z.ltb_ge in E3 || apply Z.ltb_ge in E4; lia.
    + intros [= <-]. done.
  - destruct (resetTime e1 <? now) eqn:E1; [|done]. intros _.
    apply Z.ltb_lt in E1. destruct (resetTime e1 <? t') eqn:E3; [done|].
    apply Z.ltb_ge in E3. lia.
  - destruct (resetTime e2 <? now) eqn:E2; [|done]. intros _.
    apply Z.ltb_lt in E2. destruct (resetTime e2 <? t') eqn:E4; [done|].
    apply Z.ltb_ge in E4. lia.
Qed.

(** A check leaves what is live under the other keys as it is. *)
Lemma check_key_live_other k k' t L w s :
  k <> k' -> live (now t) (snd (check_key k t L w s)) k' = live (now t) s k'.
Proof.
  intros Hk. unfold check_key. set (s' := if sweep t then _ else s).
  rewrite <- (live_swept (now t) s k' (sweep t)). fold s'.
  assert (Hl : snd (decide_entry (s' !! k) k (now t) L w s') !! k' = s' !! k').
  { unfold decide_entry. destruct (s' !! k) as [e0|].
    - destruct (resetTime e0 <? now t); cbn [snd].
      + by rewrite lookup_insert_ne.
      + destruct (L <=? count e0); cbn [snd]; [done|]. by rewrite lookup_alter_ne.
    - cbn [snd]. by rewrite lookup_insert_ne. }
  unfold live. by rewrite Hl.
Qed.

(** X20.  The draw that decides whether a check sweeps the store shows
    neither in the answer of the check nor in what any check from that
    time on finds under any key. *)
Theorem sweep_is_invisible k (clock later : Z) L w s k' t' :
  let swept := check_key k (Tick clock true later) L w s in
  let unswept := check_key k (Tick clock false later) L w s in
  fst swept = fst unswept
  /\ (clock <= t' -> live t' (snd swept) k' = live t' (snd unswept) k').
Proof.
  cbn zeta. split.
  - by rewrite !check_key_result.
  - intros Ht. apply (live_later clock); [done|].
    destruct (decide (k = k')) as [<-|Hk].
    + unfold live. by rewrite !check_key_stored.
    + pose proof (check_key_live_other k k' (Tick clock true later) L w s Hk) as H1.
      pose proof (check_key_live_other k k' (Tick clock false later) L w s Hk) as H2.
      cbn [now] in H1, H2. by rewrite H1, H2.
Qed.

(** X21.  A check is refused only on an entry whose window is open and
    whose count has reached the limit, and it leaves that entry as it
    is: neither the count nor the end of the window moves. *)
Theorem refusal_leaves_entry k t L w s :
  allowed (fst (check_key k t L w s)) = false ->
  exists e, s !! k = Some e
    /\ L <= count e /\ now t <= resetTime e
    /\ fst (check_key k t L w s) = Result false 0 (resetTime e)
    /\ snd (check_key k t L w s) !! k = Some e.
Proof.
  rewrite check_key_result, check_key_stored. unfold live, verdict.
  destruct (s !! k) as [e|]; [|intros H; discriminate H].
  destruct (resetTime e <? now t) eqn:E1; [intros H; discriminate H|].
  destruct (L <=? count e) eqn:E2; [|intros H; discriminate H].
  intros _. exists e. apply Z.ltb_ge in E1. apply Z.leb_le in E2.
  repeat split; (done || lia).
Qed.

(** X22.  With a limit of at least 1, a check keeps every count in the
    store between 1 and the limit, and its answer shows between 0 and
    limit - 1 requests left. *)
Theorem counts_stay_bounded k t L w s :
  1 <= L -> bounded L s ->
  bounded L (snd (check_key k t L w s))
  /\ 0 <= remaining (fst (check_key k t L w s)) <= L - 1.
Proof.
  intros HL Hb. unfold check_key. set (s' := if sweep t then _ else s).
  assert (Hb' : bounded L s').
  { subst s'. destruct (sweep t); [|done]. unfold cleanup.
    intros k0 e0 [H0 _]%map_lookup_filter_Some. by apply (Hb k0). }
  clearbody s'. unfold decide_entry.
  destruct (s' !! k) as [e|] eqn:E.
  - pose proof (Hb' k e E) as He. cbn in He.
    destruct (resetTime e <? now t); cbn [fst snd remaining].
    + split; [|lia]. apply map_Forall_insert_2; [cbn; lia|done].
    + destruct (L <=? count e) eqn:E2; cbn [fst snd remaining].
      * split; [done|lia].
      * apply Z.leb_gt in E2. split; [|lia].
        intros k0 e0. destruct (decide (k0 = k)) as [->|Hk].
        -- rewrite lookup_alter_eq, E. cbn. intros [= <-]. cbn. lia.
        -- rewrite lookup_alter_ne by done. apply Hb'.
  - cbn [fst snd remaining]. split; [|lia].
    apply map_Forall_insert_2; [cbn; lia|done].
Qed.

Lemma serve_of_client_step_other k k' t L w calls s :
  k' <> k ->
  of_client k (fst (serve L w ((k', t) :: calls) s))
  = of_client k (fst (serve L w calls (snd (check_key k' t L w s)))).
Proof.
  intros Hk. cbn [serve]. destruct (check_key k' t L w s) as [r s1]. cbn [snd].
  destruct (serve L w calls s1) as [rs s2]. cbn [fst snd].
  unfold of_client. cbn [List.filter fst]. rewrite bool_decide_eq_false_2 by done.
  reflexivity.
Qed.

Lemma serve_one_client k L w calls : forall s1 s2 lo,
  (forall t', lo <= t' -> live t' s1 k = live t' s2 k) ->
  StronglySorted Z.le (lo :: List.map (fun c => now (snd c)) calls) ->
  of_client k (fst (serve L w calls s1))
  = fst (checks k L w (of_client k calls) s2).
Proof.
  induction calls as [|[k' t] calls IH]; intros s1 s2 lo Hl Hs; [done|].
  cbn [List.map snd] in Hs.
  apply StronglySorted_inv in Hs as [Hs Hlo].
  apply List.Forall_cons_iff in Hlo as [Hlo _].
  destruct (decide (k' = k)) as [->|Hk].
  - unfold of_client at 2. cbn [List.filter fst]. rewrite bool_decide_eq_true_2 by done.
    cbn [List.map snd]. fold (of_client k calls). cbn [serve checks].
    pose proof (check_key_result k t L w s1) as R1.
    pose proof (check_key_result k t L w s2) as R2.
    pose proof (check_key_stored k t L w s1) as S1.
    pose proof (check_key_stored k t L w s2) as S2.
    rewrite (Hl (now t) Hlo) in R1, S1.
    destruct (check_key k t L w s1) as [r1 s1'], (check_key k t L w s2) as [r2 s2'].
    cbn [fst snd] in *.
    specialize (IH s1' s2' (now t)).
    destruct (serve L w calls s1') as [rs1 s1''].
    destruct (checks k L w (of_client k calls) s2') as [rs2 s2''].
    cbn [fst] in *. unfold of_client at 1. cbn [List.filter fst].
    rewrite bool_decide_eq_true_2 by done. cbn [List.map snd].
    fold (of_client k rs1). rewrite R1, R2. f_equal. apply IH; [|done].
    intros t' Ht'. unfold live. by rewrite S1, S2.
  - rewrite serve_of_client_step_other by done.
    unfold of_client at 2. cbn [List.filter fst]. rewrite bool_decide_eq_false_2 by done.
    fold (of_client k calls). apply (IH _ _ (now t)); [|done].
    intros t' Ht'. rewrite <- (Hl t') by lia.
    apply (live_later (now t)); [done|]. by apply check_key_live_other.
Qed.

(** X23.  A limiter counts each client on its own: with a clock that does
    not run backwards, what a client is answered is what it would be
    answered if the checks of the other clients had never been made. *)
Theorem clients_are_counted_apart k L w calls s :
  StronglySorted Z.le (List.map (fun c => now (snd c)) calls) ->
  of_client k (fst (serve L w calls s))
  = fst (checks k L w (of_client k calls) s).
Proof.
  intros Hs. destruct calls as [|[k0 t0] calls]; [done|].
  apply (serve_one_client k L w _ s s (now t0)); [done|].
  cbn [List.map snd] in *. constructor; [done|].
  constructor; [lia|]. by apply StronglySorted_inv in Hs as [_ Hs].
Qed.

End LimiterFacts.

Module ClientFacts.

Lemma before_comma_app a b :
  Forall (fun c => c <> 44%N) a -> before_comma (a ++ 44%N :: b) = a.
Proof.
  induction 1 as [|c a Hc Ha IH]; cbn; [done|].
  destruct (N.eqb_spec c 44); [done|]. by rewrite IH.
Qed.

(** X24.  Of the [x-forwarded-for] header only what stands before the
    first comma counts, white space trimmed; what follows the comma and
    the [x-real-ip] header are not looked at. *)
Theorem client_ip_first_hop {B} (a b : jsstring) xr cl (p : option B) :
  Forall (fun c => c <> 44%N) a ->
  client_ip (Request (Some (a ++ 44%N :: b)) xr cl p) = JsString.trim a.
Proof.
  intros Ha. unfold client_ip. cbn [x_forwarded_for].
  assert (Hn : nonempty (Some (a ++ 44%N :: b)) = Some (a ++ 44%N :: b))
    by (by destruct a).
  rewrite Hn. by rewrite before_comma_app.
Qed.

End ClientFacts.

Module WindowFacts.
Import RateLimit RateLimitFacts Limiter.
Open Scope Z_scope.

(** X25.  In a store none of whose windows ends more than a minute ahead
    (as is the case with a clock that does not run backwards), a check
    of the flashcards or concept-booster route keeps it so; the
    [retry_after] of a refusal is at most 60 seconds, and it is not
    negative when the response is built before the window ends. *)
Theorem retry_after_within_a_minute k t s :
  within_window (now t) s ->
  let r := fst (checkRateLimit k t s) in
  within_window (now t) (snd (checkRateLimit k t s))
  /\ (allowed r = false -> now t <= later t -> retry_after r t <= 60)
  /\ (allowed r = false -> later t <= resetAt r -> 0 <= retry_after r t).
Proof.
  intros Hw. cbn zeta. rewrite checkRateLimit_check_key.
  unfold check_key. set (s' := if sweep t then _ else s).
  assert (Hw' : within_window (now t) s').
  { subst s'. destruct (sweep t); [|done]. unfold cleanup.
    intros k0 e0 [H0 _]%map_lookup_filter_Some. by apply (Hw k0). }
  clearbody s'. unfold within_window, decide_entry, retry_after in *.
  change RATE_LIMIT_WINDOW_MS with 60000 in *.
  destruct (s' !! k) as [e|] eqn:E.
  - pose proof (Hw' k e E) as He. cbn in He.
    destruct (resetTime e <? now t); cbn [fst snd allowed resetAt].
    + split; [|split; intros H; discriminate H].
      apply map_Forall_insert_2; [cbn; lia|done].
    + destruct (RATE_LIMIT_MAX_REQUESTS <=? count e); cbn [fst snd allowed resetAt].
      * split; [done|]. split; intros _ Hl.
        -- assert ((later t - resetTime e) / 1000 >= -60); [|lia].
           apply Z.le_ge, Z.div_le_lower_bound; lia.
        -- assert ((later t - resetTime e) / 1000 <= 0); [|lia].
           apply Z.div_le_upper_bound; lia.
      * split; [|split; intros H; discriminate H].
        intros k0 e0. destruct (decide (k0 = k)) as [->|Hk].
        -- rewrite lookup_alter_eq, E. cbn. intros [= <-]. cbn. lia.
        -- rewrite lookup_alter_ne by done. apply Hw'.
  - cbn [fst snd allowed]. split; [|split; intros H; discriminate H].
    apply map_Forall_insert_2; [cbn; lia|done].
Qed.

End WindowFacts.

(* ===================================================================== *)
(** ** The error handler and the router *)
(* ===================================================================== *)

Module ErrorResponseFacts.
Import Json ErrorHandler ErrorResponse.

(** X26.  A response the wrapped handler returns is passed on as it
    is, with nothing logged.  When the handler throws, the wrapper logs
    the failure twice and then hands the status code of its options (500
    when they give none) to [Response.json], which converts it to an
    [unsigned short].  If the converted code lies within 200..599 and is
    none of 204, 205 and 304, the wrapper answers under that code with a
    body that [isValidErrorResponse] accepts, whose message outside
    development is the default text.  Otherwise it answers nothing: it
    rejects, with a [RangeError] for a code out of range and a
    [TypeError] for 204, 205 and 304. *)
Theorem withErrorHandler_answer_or_rejection dev route name msg st error stack r :
  let failed := withErrorHandler dev route name msg st (inl (error, stack)) in
  let code :=
    JsNumber.to_uint16 match st with Some n => n | None => JsNumber.of_Z 500 end in
  withErrorHandler dev route name msg st (inr r) = (inr r, [])
  /\ length (snd failed) = 2%nat
  /\ (st = None -> code = 500%Z)
  /\ ((200 <= code <= 599)%Z /\ ~ In code [204; 205; 304]%Z ->
      exists answer,
        fst failed = inr answer /\ status answer = code
        /\ isValidErrorResponse (Some (body answer)) = true
        /\ (dev = false ->
            field "error" (body answer)
            = Some (Str match msg with
                        | Some m => m
                        | None => js "Something went wrong. Please try again."
                        end)))
  /\ ((code < 200 \/ 599 < code)%Z -> fst failed = inl (RangeError_status code))
  /\ (In code [204; 205; 304]%Z -> fst failed = inl (TypeError_null_body code)).
Proof.
  cbn zeta. split; [reflexivity|].
  unfold withErrorHandler, createErrorResponse, Response_json. cbn [fst snd].
  set (code := JsNumber.to_uint16 _).
  split; [reflexivity|]. split; [intros ->; reflexivity|].
  split; [|split].
  - intros [Hr Hn].
    destruct (Z.ltb_spec code 200) as [?|_]; [lia|].
    destruct (Z.ltb_spec 599 code) as [?|_]; [lia|]. cbn [orb].
    assert (Hb : null_body_status code = false).
    { unfold null_body_status. cbn [existsb In] in *. clearbody code.
      repeat match goal with
        | |- context [(code =? ?k)%Z] =>
            destruct (Z.eqb_spec code k) as [E|_];
            [exfalso; first [lia | apply Hn; rewrite E; tauto]|]
        end.
      reflexivity. }
    rewrite Hb. eexists. split; [reflexivity|]. split; [reflexivity|].
    split; [by destruct error|]. intros ->. by destruct error.
  - intros Hr.
    destruct (Z.ltb_spec code 200) as [?|?]; [reflexivity|].
    destruct (Z.ltb_spec 599 code) as [?|?]; [reflexivity|lia].
  - intros Hc.
    assert (Hr : ((code <? 200) || (599 <? code))%Z = false).
    { cbn [In] in Hc. apply orb_false_iff. rewrite Z.ltb_ge, Z.ltb_ge. lia. }
    rewrite Hr.
    assert (Hb : null_body_status code = true).
    { unfold null_body_status. apply existsb_exists. exists code.
      split; [|apply Z.eqb_refl]. cbn [In] in *. tauto. }
    by rewrite Hb.
Qed.

Lemma set_prop_plain k s fields :
  sensitive k = false -> plain fields -> plain (set_prop k (Str s) fields).
Proof.
  intros Hk. induction 1 as [|[k' v'] fields Hkv Hf IH]; cbn [set_prop].
  - constructor; [|constructor]. split; [done|by exists s].
  - destruct (JsString.eqb k' k).
    + constructor; [|done]. split; [done|by exists s].
    + constructor; [done|exact IH].
Qed.

Lemma stringify_plain key fields :
  plain fields -> stringify_with key (Obj fields) = Obj fields.
Proof.
  intros H. cbn [stringify_with]. f_equal.
  induction H as [|[k v] fields [Hk [s Hs]] Hf IH]; [done|].
  cbn [fst snd] in *. subst v. rewrite IH. cbn [stringify_with replacer].
  by rewrite Hk.
Qed.

(** X27.  For a context within its declared type (strings under [route],
    [operation], [userId], [requestId]) [logError] redacts nothing: what
    it prints is the payload as it was built, the message of the error
    included. *)
Theorem logError_typed_context_unredacted dev error stack context :
  typed_context context ->
  logError dev error stack context = logData dev error stack context.
Proof.
  intros Hc. unfold logError, logData.
  set (init := [(js "error", Str _); (js "name", Str _)]).
  assert (Hi : plain init).
  { subst init. repeat constructor; cbn [fst snd]; (reflexivity || by eexists). }
  assert (Hd : plain (fold_left (fun acc '(k, v) => set_prop k v acc) context init)).
  { clearbody init. revert init Hi.
    induction Hc as [|[k v] context [Hk [s Hs]] Hc IH]; intros init Hi; [done|].
    cbn [fold_left fst snd] in *. subst v. apply IH. apply set_prop_plain; [|done].
    unfold context_names in Hk. cbn [In] in Hk.
    destruct Hk as [<-|[<-|[<-|[<-|[]]]]]; reflexivity. }
  destruct (nonempty _) as [st|]; [|by apply stringify_plain].
  destruct dev; [|by apply stringify_plain].
  apply stringify_plain. by apply set_prop_plain.
Qed.

End ErrorResponseFacts.

(* ===================================================================== *)
(** ** The cache and the call manager of the client *)
(* ===================================================================== *)

Module CacheFacts.
Import Cache.

Lemma startsWith_app p q k :
  JsString.startsWith (p ++ q) k = true -> JsString.startsWith p k = true.
Proof.
  revert k. induction p as [|a p IH]; intros k; [done|].
  destruct k as [|b k]; cbn; [done|].
  intros [H1 H2]%andb_prop. by rewrite H1, (IH _ H2).
Qed.

Lemma clear_fold (p : jsstring) (ks : list jsstring) : forall (n : Z) (m : storage),
  NoDup ks -> (forall k, k ∈ ks -> is_Some (m !! k)) ->
  let r := fold_left (clear_step p) ks (n, m) in
  (forall k, snd r !! k
             = if bool_decide (k ∈ ks) && JsString.startsWith p k then None else m !! k)
  /\ (fst r = n + Z.of_nat (size m) - Z.of_nat (size (snd r)))%Z.
Proof.
  induction ks as [|key ks IH]; intros n m Hnd Hin; cbn zeta; cbn [fold_left].
  - split; [done|]. cbn. lia.
  - apply NoDup_cons in Hnd as [Hkey Hnd].
    assert (Hstep : clear_step p (n, m) key
                    = if JsString.startsWith p key then ((n + 1)%Z, delete key m)
                      else (n, m)) by reflexivity.
    rewrite Hstep. clear Hstep.
    destruct (JsString.startsWith p key) eqn:E.
    + destruct (Hin key ltac:(left)) as [v Hv].
      destruct (IH (n + 1)%Z (delete key m) Hnd) as [H1 H2].
      { intros k Hk. rewrite lookup_delete_ne; [apply Hin; by right|].
        intros ->. done. }
      split.
      * intros k. rewrite H1. destruct (decide (k = key)) as [->|Hk].
        -- rewrite (bool_decide_eq_false_2 (key ∈ ks)) by done.
           rewrite (bool_decide_eq_true_2 (key ∈ key :: ks)) by left.
           cbn [andb]. rewrite E. by rewrite lookup_delete_eq.
        -- rewrite lookup_delete_ne by done.
           destruct (bool_decide (k ∈ ks)) eqn:Ek.
           ++ apply bool_decide_eq_true in Ek.
              by rewrite (bool_decide_eq_true_2 (k ∈ key :: ks)) by (by right).
           ++ apply bool_decide_eq_false in Ek.
              rewrite (bool_decide_eq_false_2 (k ∈ key :: ks)); [done|].
              intros [?|?]%elem_of_cons; done.
      * rewrite H2. rewrite map_size_delete_Some by (by exists v).
        assert (size m <> 0%nat); [|lia].
        apply map_size_ne_0_lookup. by exists key, v.
    + destruct (IH n m Hnd) as [H1 H2].
      { intros k Hk. apply Hin. by right. }
      split; [|done]. intros k. rewrite H1.
      destruct (decide (k = key)) as [->|Hk].
      * by rewrite E, !andb_false_r.
      * destruct (bool_decide (k ∈ ks)) eqn:Ek.
        -- apply bool_decide_eq_true in Ek.
           by rewrite (bool_decide_eq_true_2 (k ∈ key :: ks)) by (by right).
        -- apply bool_decide_eq_false in Ek.
           rewrite (bool_decide_eq_false_2 (k ∈ key :: ks)); [done|].
           intros [?|?]%elem_of_cons; done.
Qed.

Lemma clear_keys (p : jsstring) (ls : storage) :
  let r := fold_left (clear_step p) (keys ls) (0%Z, ls) in
  (forall k, snd r !! k = if JsString.startsWith p k then None else ls !! k)
  /\ (fst r = Z.of_nat (size ls) - Z.of_nat (size (snd r)))%Z.
Proof.
  cbn zeta. destruct (clear_fold p (keys ls) 0%Z ls) as [H1 H2].
  - apply NoDup_fst_map_to_list.
  - intros k [[k' v] [-> Hkv]]%list_elem_of_fmap. cbn.
    apply elem_of_map_to_list in Hkv. by exists v.
  - split; [|by rewrite H2]. intros k. rewrite H1.
    destruct (bool_decide (k ∈ keys ls)) eqn:Ek; [done|]. cbn [andb].
    apply bool_decide_eq_false in Ek.
    destruct (ls !! k) as [v|] eqn:Ev; [|by destruct (JsString.startsWith p k)].
    destruct Ek. apply list_elem_of_fmap. exists (k, v). split; [done|].
    by apply elem_of_map_to_list.
Qed.

(** X28.  Clearing goes by prefix and by nothing else: [clearAllCaches]
    removes exactly the keys that start with the cache prefix,
    [clearToolCache] exactly those that start with the prefix of the
    tool (so also the entries of a tool whose name extends the given
    name by an underscore and more); every other key keeps its value;
    each returns the number of keys it removed, and clearing one tool
    removes no more than clearing all. *)
Theorem cache_clearing_by_prefix (ls : storage) (toolType : jsstring) :
  let all := clearAllCaches ls in
  let one := clearToolCache toolType ls in
  (forall k, snd all !! k
             = if JsString.startsWith CACHE_PREFIX k then None else ls !! k)
  /\ (forall k, snd one !! k
                = if JsString.startsWith (CACHE_PREFIX ++ toolType ++ js "_") k
                  then None else ls !! k)
  /\ (fst all = Z.of_nat (size ls) - Z.of_nat (size (snd all)))%Z
  /\ (fst one = Z.of_nat (size ls) - Z.of_nat (size (snd one)))%Z
  /\ (0 <= fst one <= fst all)%Z.
Proof.
  cbn zeta. unfold clearAllCaches, clearToolCache.
  destruct (clear_keys CACHE_PREFIX ls) as [A1 A2].
  destruct (clear_keys (CACHE_PREFIX ++ toolType ++ js "_") ls) as [B1 B2].
  cbn zeta in *. repeat split; try done.
  - rewrite B2.
    assert (snd (fold_left (clear_step (CACHE_PREFIX ++ toolType ++ js "_"))
                   (keys ls) (0%Z, ls)) ⊆ ls); [|apply map_subseteq_size in H; lia].
    apply map_subseteq_spec. intros k v. rewrite B1.
    by destruct (JsString.startsWith _ k).
  - rewrite A2, B2.
    assert (snd (fold_left (clear_step CACHE_PREFIX) (keys ls) (0%Z, ls))
            ⊆ snd (fold_left (clear_step (CACHE_PREFIX ++ toolType ++ js "_"))
                     (keys ls) (0%Z, ls))); [|apply map_subseteq_size in H; lia].
    apply map_subseteq_spec. intros k v. rewrite A1, B1.
    destruct (JsString.startsWith CACHE_PREFIX k) eqn:E; [done|].
    destruct (JsString.startsWith (CACHE_PREFIX ++ _) k) eqn:E'; [|done].
    apply startsWith_app in E'. congruence.
Qed.

End CacheFacts.

Module ApiManagerFacts.
Import ApiManager.

Lemma start_numbers requestId cancelPrevious m :
  well_numbered m ->
  fst (makeRequest_start requestId cancelPrevious m) = made m
  /\ made (snd (makeRequest_start requestId cancelPrevious m)) = S (made m)
  /\ activeRequests (snd (makeRequest_start requestId cancelPrevious m)) !! requestId
     = Some (made m)
  /\ well_numbered (snd (makeRequest_start requestId cancelPrevious m)).
Proof.
  intros [Ha Hb]. unfold makeRequest_start, well_numbered.
  destruct (activeRequests m !! requestId) as [previous|] eqn:E.
  - destruct cancelPrevious; cbn [fst snd made activeRequests aborted].
    + rewrite lookup_insert_eq. repeat split; try done.
      * intros c [->%elem_of_singleton|Hc]%elem_of_union.
        -- apply Hb in E. lia.
        -- apply Ha in Hc. lia.
      * intros k c. destruct (decide (k = requestId)) as [->|Hk].
        -- rewrite lookup_insert_eq. intros [= <-]. lia.
        -- rewrite lookup_insert_ne, lookup_delete_ne by done.
           intros Hc%Hb. lia.
    + rewrite lookup_insert_eq. repeat split; try done.
      * intros c Hc%Ha. lia.
      * intros k c. destruct (decide (k = requestId)) as [->|Hk].
        -- rewrite lookup_insert_eq. intros [= <-]. lia.
        -- rewrite lookup_insert_ne by done. intros Hc%Hb. lia.
  - cbn [fst snd made activeRequests aborted].
    rewrite lookup_insert_eq. repeat split; try done.
    + intros c Hc%Ha. lia.
    + intros k c. destruct (decide (k = requestId)) as [->|Hk].
      * rewrite lookup_insert_eq. intros [= <-]. lia.
      * rewrite lookup_insert_ne by done. intros Hc%Hb. lia.
Qed.

(** X29.  A request that is superseded takes its successor off the books.
    When a second request starts under the name of one still running,
    the first is aborted and the second takes the name; but when the
    first then comes to its end it deletes the name, so the second,
    still running and not aborted, is no longer active and can no longer
    be cancelled. *)
Theorem superseded_request_untracks_successor {T} requestId (m : manager)
    (outcome : option exn + T) :
  well_numbered m ->
  let first := makeRequest_start requestId true m in
  let second := makeRequest_start requestId true (snd first) in
  let after := snd (makeRequest_end requestId outcome (snd second)) in
  fst first ∈ aborted (snd second)
  /\ activeRequests (snd second) !! requestId = Some (fst second)
  /\ ~ (fst second ∈ aborted after)
  /\ isRequestActive requestId after = false
  /\ cancelRequest requestId after = (false, after).
Proof.
  intros Hm. cbn zeta.
  destruct (start_numbers requestId true m Hm) as (H1 & H2 & H3 & H4).
  destruct (start_numbers requestId true _ H4) as (H5 & H6 & H7 & H8).
  destruct (makeRequest_start requestId true m) as [c1 m1]. cbn [fst snd] in *.
  assert (Hab : aborted (snd (makeRequest_start requestId true m1))
                = {[c1]} ∪ aborted m1).
  { unfold makeRequest_start. rewrite H3, H1. reflexivity. }
  destruct (makeRequest_start requestId true m1) as [c2 m2]. cbn [fst snd] in *.
  subst c1 c2. split; [rewrite Hab; apply elem_of_union; left; by apply elem_of_singleton|]. split; [by rewrite H7, H2|].
  unfold makeRequest_end. cbn [snd aborted]. split.
  - rewrite Hab. intros [Hx%elem_of_singleton|Hx]%elem_of_union; [lia|].
    destruct H4 as [Ha _]. apply Ha in Hx. lia.
  - unfold isRequestActive, cancelRequest. cbn [activeRequests].
    rewrite lookup_delete_eq. split; [|done].
    apply bool_decide_eq_false. by intros [? ?].
Qed.

End ApiManagerFacts.

(* ===================================================================== *)
(** ** Instances *)
(* ===================================================================== *)

Module Witnesses.
Import Json.

Lemma clean_text_is_input_safe_witness :
  Sanitize.allowHtml (Sanitize.Options false None false) = false
  /\ forallb (Sanitize.absent Sample.sentence)
       (Sanitize.patterns (Sanitize.Options false None false)) = true
  /\ InputCheck.isInputSafe Sample.sentence = true.
Proof.
  split; [reflexivity|]. split; [vm_compute; reflexivity|].
  apply (InputCheckFacts.clean_text_is_input_safe (Sanitize.Options false None false));
    [reflexivity | vm_compute; reflexivity].
Defined.

Lemma input_safe_text_has_no_shell_unit_witness :
  InputCheck.isInputSafe Sample.sentence = true
  /\ Sanitized.never
       [(59, 59); (38, 38); (124, 124); (96, 96); (36, 36); (40, 40);
        (41, 41); (123, 123); (125, 125); (91, 91); (93, 93)] Sample.sentence.
Proof.
  split; [vm_compute; reflexivity|].
  apply InputCheckFacts.input_safe_text_has_no_shell_unit. vm_compute. reflexivity.
Defined.

Lemma mcq_success_items_well_formed_witness :
  let r := reply (McqRoute.POST Sample.env (Sample.at_ 1000) (Sample.mcq_request None)
                    (Sample.parses_to Cases.mcq_reply)) in
  status r = 200%Z
  /\ exists items, field "mcqs" (body r) = Some (Arr items)
                   /\ forallb Replies.returned_ok items = true.
Proof.
  cbn zeta. split; [vm_compute; reflexivity|].
  apply (ShapeFacts.mcq_success_items_well_formed Sample.env (Sample.at_ 1000)
           (Sample.mcq_request None) (Sample.parses_to Cases.mcq_reply)).
  vm_compute. reflexivity.
Defined.


Lemma flashcards_counts_within_total_witness :
  let r := reply (fst (FlashcardsRoute.POST Sample.env (Sample.at_ 1000)
                         (Sample.flashcards_request None)
                         (Sample.parses_to Cases.flashcards_reply) ∅)) in
  status r = 200%Z
  /\ Replies.metadata_count "total_cards" (body r) = Some 2%Z
  /\ Replies.metadata_count "concept_cards" (body r) = Some 1%Z
  /\ exists total concept application trick,
       Replies.metadata_count "total_cards" (body r) = Some total
       /\ Replies.metadata_count "concept_cards" (body r) = Some concept
       /\ Replies.metadata_count "application_cards" (body r) = Some application
       /\ Replies.metadata_count "trick_cards" (body r) = Some trick
       /\ (1 <= total /\ 0 <= concept /\ 0 <= application /\ 0 <= trick
           /\ concept + application + trick <= total)%Z.
Proof.
  cbn zeta. split; [vm_compute; reflexivity|].
  split; [vm_compute; reflexivity|]. split; [vm_compute; reflexivity|].
  apply (ShapeFacts.flashcards_counts_within_total Sample.env (Sample.at_ 1000)
           (Sample.flashcards_request None) (Sample.parses_to Cases.flashcards_reply) ∅).
  vm_compute. reflexivity.
Defined.

Lemma upstream_rejection_reply_witness :
  let c := Server.Mcq (Sample.mcq_request None) in
  let err := Error (js "OpenRouter API error: 401 {}") in
  is_Some (sent (fst (Server.handle Sample.env (Sample.at_ 1000) c (Rejected err)
                        Sample.empty_state)))
  /\ reply (fst (Server.handle Sample.env (Sample.at_ 1000) c (Rejected err)
                   Sample.empty_state))
     = respond 500
         (Obj [(js "error", Str (js "Failed to generate MCQs. Please try again."));
               (js "code", Str (js "INTERNAL_ERROR"))]).
Proof.
  cbn zeta.
  assert (H : is_Some (sent (fst (Server.handle Sample.env (Sample.at_ 1000)
                                   (Server.Mcq (Sample.mcq_request None))
                                   (Rejected (Error (js "OpenRouter API error: 401 {}")))
                                   Sample.empty_state)))).
  { eexists. vm_compute. reflexivity. }
  split; [exact H|].
  exact (GateFacts.upstream_rejection_reply Sample.env (Sample.at_ 1000)
           (Server.Mcq (Sample.mcq_request None))
           (Error (js "OpenRouter API error: 401 {}")) Sample.empty_state H).
Defined.

Lemma refusal_leaves_entry_witness :
  RateLimit.allowed (fst (RateLimit.check_key Cases.client (Sample.at_ 2000) 10 60000
                            Cases.spent)) = false
  /\ exists e, Cases.spent !! Cases.client = Some e
       /\ (10 <= RateLimit.count e)%Z /\ (now (Sample.at_ 2000) <= RateLimit.resetTime e)%Z
       /\ fst (RateLimit.check_key Cases.client (Sample.at_ 2000) 10 60000 Cases.spent)
          = RateLimit.Result false 0 (RateLimit.resetTime e)
       /\ snd (RateLimit.check_key Cases.client (Sample.at_ 2000) 10 60000 Cases.spent)
            !! Cases.client = Some e.
Proof.
  assert (H : RateLimit.allowed
                (fst (RateLimit.check_key Cases.client (Sample.at_ 2000) 10 60000
                        Cases.spent)) = false).
  { rewrite RateLimitFacts.check_key_result. unfold RateLimit.live, Cases.spent.
    rewrite lookup_singleton_eq. reflexivity. }
  split; [exact H|].
  exact (LimiterFacts.refusal_leaves_entry Cases.client (Sample.at_ 2000) 10 60000
           Cases.spent H).
Defined.

Lemma counts_stay_bounded_witness :
  (1 <= 10)%Z /\ Limiter.bounded 10 Cases.spent
  /\ Limiter.bounded 10
       (snd (RateLimit.check_key Cases.client (Sample.at_ 2000) 10 60000 Cases.spent))
  /\ (0 <= RateLimit.remaining
             (fst (RateLimit.check_key Cases.client (Sample.at_ 2000) 10 60000
                     Cases.spent)) <= 10 - 1)%Z.
Proof.
  assert (H1 : (1 <= 10)%Z) by lia.
  assert (H2 : Limiter.bounded 10 Cases.spent).
  { unfold Limiter.bounded, Cases.spent. apply map_Forall_singleton. cbn. lia. }
  split; [exact H1|]. split; [exact H2|].
  exact (LimiterFacts.counts_stay_bounded Cases.client (Sample.at_ 2000) 10 60000
           Cases.spent H1 H2).
Defined.

Lemma clients_are_counted_apart_witness :
  StronglySorted Z.le (List.map (fun c => now (snd c)) Cases.two_clients)
  /\ Limiter.of_client Cases.client
       (fst (Limiter.serve 1 60000 Cases.two_clients ∅))
     = fst (RateLimit.checks Cases.client 1 60000
              (Limiter.of_client Cases.client Cases.two_clients) ∅).
Proof.
  assert (H : StronglySorted Z.le
                (List.map (fun c => now (snd c)) Cases.two_clients)).
  { repeat constructor; cbn; lia. }
  split; [exact H|].
  exact (LimiterFacts.clients_are_counted_apart Cases.client 1 60000
           Cases.two_clients ∅ H).
Defined.

Lemma client_ip_first_hop_witness :
  Forall (fun c => c <> 44) (js "203.0.113.7 ")
  /\ client_ip (Request (Some (js "203.0.113.7 " ++ 44 :: js " 10.0.0.1"))
                  (Some (js "192.0.2.1")) None (@None unit))
     = js "203.0.113.7".
Proof.
  assert (H : Forall (fun c => c <> 44) (js "203.0.113.7 ")).
  { apply Forall_forall. intros c Hc. apply list_elem_of_In in Hc.
    cbn in Hc. intuition (subst; discriminate). }
  split; [exact H|].
  rewrite (ClientFacts.client_ip_first_hop (js "203.0.113.7 ") (js " 10.0.0.1")
             (Some (js "192.0.2.1")) None (@None unit) H).
  vm_compute. reflexivity.
Defined.

Lemma logError_typed_context_unredacted_witness :
  let context := [(js "route", Str (js "/api/mcq")); (js "operation", Str (js "POST"))] in
  let error := Some (Error (js "token sk-live-1234 was refused")) in
  ErrorResponse.typed_context context
  /\ ErrorHandler.logError false error None context
     = Obj [(js "error", Str (js "token sk-live-1234 was refused"));
            (js "name", Str (js "Error"));
            (js "route", Str (js "/api/mcq")); (js "operation", Str (js "POST"))].
Proof.
  cbn zeta.
  assert (H : ErrorResponse.typed_context
                [(js "route", Str (js "/api/mcq")); (js "operation", Str (js "POST"))]).
  { apply Forall_cons. split; [split; [left; reflexivity | by eexists]|].
    apply Forall_cons. split; [split; [right; left; reflexivity | by eexists]|].
    constructor. }
  split; [exact H|].
  rewrite (ErrorResponseFacts.logError_typed_context_unredacted false
             (Some (Error (js "token sk-live-1234 was refused"))) None _ H).
  vm_compute. reflexivity.
Defined.

Lemma upstream_call_well_formed_witness :
  let c := Server.ConceptBooster (Sample.concept_request (Some (js "x"))) in
  let llm := Sample.parses_to (Sample.error_reply "INSUFFICIENT_CONTEXT" "no facts") in
  let u := Upstream (js "x") (3 # 10) in
  sent (fst (Server.handle Sample.env (Sample.at_ 1000) c llm Sample.empty_state))
  = Some u
  /\ sent_model u <> []
  /\ sent_temperature u = fst (ModelRouter.temperatures (Tasks.task_of c)).
Proof.
  cbn zeta.
  assert (H : sent (fst (Server.handle Sample.env (Sample.at_ 1000)
                           (Server.ConceptBooster (Sample.concept_request (Some (js "x"))))
                           (Sample.parses_to
                              (Sample.error_reply "INSUFFICIENT_CONTEXT" "no facts"))
                           Sample.empty_state))
              = Some (Upstream (js "x") (3 # 10))) by (vm_compute; reflexivity).
  split; [exact H|].
  exact (TaskFacts.upstream_call_well_formed _ _ _ _ _ _ H).
Defined.

Lemma extract_object_span_witness :
  Forall (fun c => c <> 123) (js "Here it is: ")
  /\ Forall (fun c => c <> 125) (js " Hope it helps.")
  /\ ReplyText.extract_object
       (js "Here it is: " ++ 123 :: js "'a':{'b':1}" ++ 125 :: js " Hope it helps.")
     = js "{'a':{'b':1}}".
Proof.
  assert (H1 : Forall (fun c => c <> 123) (js "Here it is: ")).
  { apply Forall_forall. intros c Hc. apply list_elem_of_In in Hc.
    cbn in Hc. intuition (subst; discriminate). }
  assert (H2 : Forall (fun c => c <> 125) (js " Hope it helps.")).
  { apply Forall_forall. intros c Hc. apply list_elem_of_In in Hc.
    cbn in Hc. intuition (subst; discriminate). }
  split; [exact H1|]. split; [exact H2|].
  exact (proj1 (ReplyTextFacts.extract_object_span _ (js "'a':{'b':1}") _ H1 H2)).
Defined.

Lemma retry_after_within_a_minute_witness :
  Limiter.within_window (now (Sample.at_ 2000)) Cases.spent
  /\ RateLimit.allowed (fst (RateLimit.checkRateLimit Cases.client (Sample.at_ 2000)
                               Cases.spent)) = false
  /\ (RateLimit.retry_after
        (fst (RateLimit.checkRateLimit Cases.client (Sample.at_ 2000) Cases.spent))
        (Sample.at_ 2000) <= 60)%Z.
Proof.
  assert (H : Limiter.within_window (now (Sample.at_ 2000)) Cases.spent).
  { unfold Limiter.within_window, Cases.spent. apply map_Forall_singleton.
    cbn. unfold RateLimit.RATE_LIMIT_WINDOW_MS. lia. }
  assert (Hd : RateLimit.allowed
                 (fst (RateLimit.checkRateLimit Cases.client (Sample.at_ 2000)
                         Cases.spent)) = false).
  { rewrite RateLimitFacts.checkRateLimit_check_key, RateLimitFacts.check_key_result.
    unfold RateLimit.live, Cases.spent. rewrite lookup_singleton_eq. reflexivity. }
  split; [exact H|]. split; [exact Hd|].
  apply (proj1 (proj2 (WindowFacts.retry_after_within_a_minute Cases.client
                         (Sample.at_ 2000) Cases.spent H))); [exact Hd|].
  cbn. lia.
Defined.

Lemma unparsable_body_replies_witness :
  let c := Server.Format (Request None None None None) in
  ServerView.has_body c = false
  /\ sent (fst (Server.handle Sample.env (Sample.at_ 1000) c
                  (Sample.parses_to Cases.mcq_reply) Sample.empty_state)) = None
  /\ status (reply (fst (Server.handle Sample.env (Sample.at_ 1000) c
                           (Sample.parses_to Cases.mcq_reply) Sample.empty_state)))
     = 500%Z.
Proof.
  cbn zeta. split; [reflexivity|].
  exact (BodyFacts.unparsable_body_replies Sample.env (Sample.at_ 1000)
           (Server.Format (Request None None None None))
           (Sample.parses_to Cases.mcq_reply) Sample.empty_state eq_refl).
Defined.

Lemma superseded_request_untracks_successor_witness :
  let m := ApiManager.Manager ∅ ∅ 0 in
  let name := js "generate-mcqs" in
  let first := ApiManager.makeRequest_start name true m in
  let second := ApiManager.makeRequest_start name true (snd first) in
  let after :=
    snd (ApiManager.makeRequest_end name
           (@inl _ unit (Some (Exn (js "AbortError") (js "The operation was aborted."))))
           (snd second)) in
  ApiManager.well_numbered m
  /\ fst first ∈ ApiManager.aborted (snd second)
  /\ ApiManager.isRequestActive name (snd second) = true
  /\ ApiManager.isRequestActive name after = false.
Proof.
  cbn zeta.
  assert (H : ApiManager.well_numbered (ApiManager.Manager ∅ ∅ 0)).
  { split; cbn; [set_solver|]. intros k c Hc. by rewrite lookup_empty in Hc. }
  split; [exact H|].
  destruct (ApiManagerFacts.superseded_request_untracks_successor
              (js "generate-mcqs") (ApiManager.Manager ∅ ∅ 0)
              (@inl _ unit (Some (Exn (js "AbortError") (js "The operation was aborted."))))
              H) as (H1 & H2 & _ & H4 & _).
  split; [exact H1|]. split; [|exact H4].
  unfold ApiManager.isRequestActive. apply bool_decide_eq_true.
  rewrite H2. by eexists.
Defined.

Lemma mcq_reply_sizes_witness :
  let req := Cases.fractional_request in
  let item := Obj [(js "question", Str (js "What do plants convert?"));
                   (js "options", Arr [Str (js "light"); Str (js "water");
                                       Str (js "soil"); Str (js "air")]);
                   (js "correct", Str (js "A"))] in
  let items := [item; item; item; item; item; item; item] in
  let fields := [(js "status", Str (js "OK")); (js "mcqs", Arr items)] in
  let bare := reply (McqRoute.POST Sample.env (Sample.at_ 1000) req
                       (Content (Some (js "[...]")) (inr (Arr items)))) in
  let current := reply (McqRoute.POST Sample.env (Sample.at_ 1000) req
                          (Content (Some (js "[...]")) (inr (Obj fields)))) in
  status bare = 200%Z /\ status current = 200%Z
  /\ (exists mcqs, field "mcqs" (body bare) = Some (Arr mcqs) /\ length mcqs = 2%nat)
  /\ (exists mcqs, field "mcqs" (body current) = Some (Arr mcqs) /\ length mcqs = 7%nat).
Proof.
  cbn zeta.
  match goal with |- _ /\ status (reply (McqRoute.POST _ _ _
                          (Content _ (inr (Obj [_; (_, Arr ?l)]))))) = _ /\ _ =>
    set (items := l) end.
  split; [vm_compute; reflexivity|]. split; [vm_compute; reflexivity|].
  destruct (McqRoute.prepare Sample.env (Sample.at_ 1000) Cases.fractional_request)
    as [p| |] eqn:Hp; try (vm_compute in Hp; discriminate Hp).
  destruct (SizeFacts.mcq_reply_sizes Sample.env (Sample.at_ 1000)
              Cases.fractional_request p (js "[...]") items
              [(js "status", Str (js "OK")); (js "mcqs", Arr items)]
              Hp ltac:(discriminate) eq_refl eq_refl) as ((q & Hq & _ & Hb) & Hc).
  assert (Hn : McqRoute.numQuestions p = JsNumber.Finite 2.5).
  { vm_compute in Hp. injection Hp as <-. reflexivity. }
  rewrite Hn in Hq. injection Hq as <-.
  split.
  - destruct (Hb ltac:(vm_compute; reflexivity)) as (mcqs & Hm & Hl).
    exists mcqs. split; [exact Hm|]. rewrite Hl. reflexivity.
  - destruct (Hc ltac:(vm_compute; reflexivity)) as (mcqs & Hm & Hl).
    exists mcqs. split; [exact Hm|]. rewrite Hl. reflexivity.
Defined.

Lemma strip_fences_unwraps_witness :
  Forall (fun c => JsString.is_space c = true) [10]
  /\ Forall (fun c => c <> 96) (js "{'a': [1, 2]}")
  /\ JsString.trim (js "{'a': [1, 2]}") = js "{'a': [1, 2]}"
  /\ ReplyText.strip_fences (js "```json" ++ [10] ++ js "{'a': [1, 2]}" ++ [10] ++ js "```")
     = js "{'a': [1, 2]}".
Proof.
  assert (H1 : Forall (fun c => JsString.is_space c = true) [10])
    by (repeat constructor).
  assert (H3 : Forall (fun c => c <> 96) (js "{'a': [1, 2]}")).
  { apply Forall_forall. intros c Hc. apply list_elem_of_In in Hc.
    cbn in Hc. intuition (subst; discriminate). }
  assert (H5 : JsString.trim (js "{'a': [1, 2]}") = js "{'a': [1, 2]}")
    by (vm_compute; reflexivity).
  split; [exact H1|]. split; [exact H3|]. split; [exact H5|].
  exact (proj1 (FenceFacts.strip_fences_unwraps [10] [10] (js "{'a': [1, 2]}")
                  H1 H1 H3 ltac:(discriminate) H5)).
Defined.

End Witnesses.
